(** * SecureHTTP: the envelope protocol of [SecureHTTP.py], embedded and verified

    The development follows the source file top to bottom:

    - [Py]      the fragment of Python the module relies on: exceptions,
                JSON-shaped values, truthiness, [==], insertion-ordered
                dictionaries, [sorted], [str.replace];
    - [Json]    [json.dumps] as the module calls it (with and without
                [sort_keys], with both separator pairs);
    - [Url]     [urllib]'s [quote] with an empty [safe] argument;
    - [MD5]     [hashlib.md5], written out from RFC 1321;
    - [Time]    [time.strftime] for the format of the timestamps;
    - [Library] the other libraries the module imports ([base64],
                [Crypto.Cipher.AES], [rsa], [json.loads], [bytes.decode]);
                they are an interface here, and each theorem names the laws
                of the interface it needs;
    - the functions of [SecureHTTP.py] themselves, under their own names;
    - [Reference] a library that keeps those laws, on which the protocol runs;
    - the vocabulary of the statements, then the facts and the theorems
      (first those of the specification, then further properties of the
      functions, in the order of the source; the theorem on the meanings of
      [SignatureIndex] stands with the facts on the signing string, which it
      uses), and last the theorems applied to the end-to-end scenario.

    Python text is modelled by [string], one [ascii] per code point, so the
    embedding covers text whose code points lie below 256; Python [bytes] are
    [list byte].  Floating point numbers are left out of [value].  The clock
    ([time.gmtime], and the timestamp [get_current_timestamp] makes of it) and
    the two random sources ([Random.new().read], the padding of [rsa.encrypt])
    are arguments of the functions that read them.  [copy.deepcopy] is the
    identity on these values.  [generate_rsa_keys], which generates a key pair
    and writes it to the terminal, is not embedded. *)

From Stdlib Require Import String Ascii List ZArith NArith Lia Bool.
From Stdlib Require Import DecimalString DecimalPos Permutation Sorted.
From Stdlib.Strings Require Import Byte.
Set Warnings "-register-all".
Import ListNotations.
Open Scope string_scope.

(* ================================================================= *)
(** ** Python: exceptions, values, dictionaries *)

Module Py.

(** The exception classes the module raises or lets through. [SignError] and
    [AESError] are its own (subclasses of [SecureHTTPException]); the others
    are builtins.  [LibraryError] stands for an exception raised inside an
    imported library ([binascii.Error], [rsa.DecryptionError],
    [json.JSONDecodeError], a rejected key, ...). *)
Inductive exn : Set :=
| TypeError
| ValueError
| KeyError
| AttributeError
| UnicodeDecodeError
| SignError
| AESError
| LibraryError.

Inductive result (A : Type) : Type :=
| Ok (a : A)
| Raise (e : exn).

Arguments Ok {A} a.
Arguments Raise {A} e.

Definition bind {A B : Type} (m : result A) (k : A -> result B) : result B :=
  match m with
  | Ok a => k a
  | Raise e => Raise e
  end.

(** Python values that [json] can carry. *)
Inductive value : Type :=
| VNone
| VBool (b : bool)
| VInt (n : Z)
| VStr (s : string)
| VList (l : list value)
| VDict (d : list (string * value)).

(** A [dict] keeps its items in insertion order; keys are text. *)
Definition dict (V : Type) : Type := list (string * V).

Definition keys {V : Type} (d : dict V) : list string := map fst d.

Fixpoint dict_get {V : Type} (k : string) (d : dict V) : option V :=
  match d with
  | [] => None
  | (k', v) :: d' => if String.eqb k k' then Some v else dict_get k d'
  end.

Definition dict_mem {V : Type} (k : string) (d : dict V) : bool :=
  match dict_get k d with
  | Some _ => true
  | None => false
  end.

(** [d[k] = v]: an existing key keeps its place, a new one goes last. *)
Fixpoint dict_set {V : Type} (k : string) (v : V) (d : dict V) : dict V :=
  match d with
  | [] => [(k, v)]
  | (k', v') :: d' =>
      if String.eqb k k' then (k, v) :: d' else (k', v') :: dict_set k v d'
  end.

(** [for k, v in src.items(): dst[k] = v], which is also [dst.update(src)]. *)
Definition dict_update {V : Type} (dst src : dict V) : dict V :=
  fold_left (fun acc kv => dict_set (fst kv) (snd kv) acc) src dst.

(** [d.pop(k)]: the value and the dictionary without the key. *)
Fixpoint dict_pop {V : Type} (k : string) (d : dict V) : option (V * dict V) :=
  match d with
  | [] => None
  | (k', v) :: d' =>
      if String.eqb k k' then Some (v, d')
      else match dict_pop k d' with
           | Some (w, r) => Some (w, (k', v) :: r)
           | None => None
           end
  end.

(** Truth value testing ([if x:], [x and ...]). *)
Definition truthy (v : value) : bool :=
  match v with
  | VNone => false
  | VBool b => b
  | VInt n => negb (Z.eqb n 0)
  | VStr s => negb (String.eqb s "")
  | VList l => match l with [] => false | _ => true end
  | VDict d => match d with [] => false | _ => true end
  end.

(** [isinstance(x, dict)] and [isinstance(x, string_types)]. *)
Definition is_dict (v : value) : bool :=
  match v with VDict _ => true | _ => false end.

Definition is_text (v : value) : bool :=
  match v with VStr _ => true | _ => false end.

(** [x == y] on these values: a [bool] compares as the integer it is, lists
    compare item by item, dictionaries compare as sets of items. *)
Fixpoint py_eq (x y : value) {struct x} : bool :=
  match x, y with
  | VNone, VNone => true
  | VBool a, VBool b => Bool.eqb a b
  | VBool a, VInt n => Z.eqb (if a then 1 else 0) n
  | VInt n, VBool b => Z.eqb n (if b then 1 else 0)
  | VInt n, VInt m => Z.eqb n m
  | VStr s, VStr t => String.eqb s t
  | VList l, VList m =>
      (fix items (l m : list value) {struct l} : bool :=
         match l, m with
         | [], [] => true
         | a :: l', b :: m' => py_eq a b && items l' m'
         | _, _ => false
         end) l m
  | VDict d, VDict e =>
      Nat.eqb (List.length d) (List.length e)
      && forallb (fun kv => match dict_get (fst kv) e with
                            | Some w => py_eq (snd kv) w
                            | None => false
                            end) d
  | _, _ => false
  end.

(** [sorted(items, key=lambda item: item[0])]: a stable sort on the keys, text
    compared code point by code point. *)
Fixpoint insert_item {V : Type} (x : string * V) (l : list (string * V))
  : list (string * V) :=
  match l with
  | [] => [x]
  | y :: l' =>
      if String.leb (fst x) (fst y) then x :: l else y :: insert_item x l'
  end.

Definition sorted_items {V : Type} (l : list (string * V)) : list (string * V) :=
  fold_right insert_item [] l.

(** [s.startswith(old)] *)
Fixpoint has_prefix (old s : string) {struct old} : bool :=
  match old with
  | EmptyString => true
  | String a old' =>
      match s with
      | EmptyString => false
      | String b s' => Ascii.eqb a b && has_prefix old' s'
      end
  end.

(** [s.replace(old, new)] for a non-empty [old]: occurrences are replaced from
    the left and do not overlap.  [skip] counts the characters of a matched
    occurrence that are still to be passed over. *)
Fixpoint replace_from (skip : nat) (old new s : string) {struct s} : string :=
  match s with
  | EmptyString => EmptyString
  | String c s' =>
      match skip with
      | S n => replace_from n old new s'
      | O =>
          if has_prefix old s
          then new ++ replace_from (String.length old - 1) old new s'
          else String c (replace_from 0 old new s')
      end
  end.

Definition replace (old new s : string) : string := replace_from 0 old new s.

(** [n * c] for a one-character string [c]. *)
Fixpoint repeat_char (c : ascii) (n : nat) : string :=
  match n with
  | O => EmptyString
  | S n' => String c (repeat_char c n')
  end.

Definition code (c : ascii) : N := N_of_ascii c.

End Py.

Export Py.

Declare Scope py_scope.
Notation "x <- m ;; k" := (bind m (fun x => k))
  (at level 61, m at next level, right associativity) : py_scope.
Notation "' p <- m ;; k" := (bind m (fun v => match v with p => k end))
  (at level 61, p pattern, m at next level, right associativity) : py_scope.
Open Scope py_scope.

(* ================================================================= *)
(** ** [json.dumps] *)

Module Json.

(** The quotation mark, by its code. *)
Definition dquote : ascii := ascii_of_N 34.

Definition hex_lower (n : N) : ascii :=
  if (n <? 10)%N then ascii_of_N (48 + n) else ascii_of_N (87 + n).

(** One character of [py_encode_basestring_ascii]: the short escapes of
    [ESCAPE_DCT], a [\uXXXX] escape (lower-case digits) for anything else
    outside [' '..'~'], and the character itself otherwise. *)
Definition escape_char (c : ascii) : string :=
  let n := code c in
  if (n =? 34)%N then String "\" (String dquote "")
  else if (n =? 92)%N then "\\"
  else if (n =? 10)%N then "\n"
  else if (n =? 13)%N then "\r"
  else if (n =? 9)%N then "\t"
  else if (n =? 8)%N then "\b"
  else if (n =? 12)%N then "\f"
  else if ((n <? 32) || (126 <? n))%N
       then "\u00" ++ String (hex_lower (n / 16)) (String (hex_lower (n mod 16)) "")
  else String c "".

Fixpoint escape (s : string) : string :=
  match s with
  | EmptyString => EmptyString
  | String c s' => escape_char c ++ escape s'
  end.

Definition encode_basestring_ascii (s : string) : string :=
  String dquote (escape s ++ String dquote "").

(** [int.__repr__]. *)
Definition repr_int (n : Z) : string := NilZero.string_of_int (Z.to_int n).

Definition join (sep : string) (l : list string) : string := String.concat sep l.

(** [json.dumps(v, sort_keys=sort_keys, separators=(item_sep, key_sep))] with
    the default [ensure_ascii=True].  With [sort_keys] the items of every
    dictionary, at every depth, are written in the order of their keys. *)
Fixpoint dumps (sort_keys : bool) (item_sep key_sep : string) (v : value)
  : string :=
  match v with
  | VNone => "null"
  | VBool true => "true"
  | VBool false => "false"
  | VInt n => repr_int n
  | VStr s => encode_basestring_ascii s
  | VList l =>
      "[" ++ join item_sep (map (dumps sort_keys item_sep key_sep) l) ++ "]"
  | VDict d =>
      let items :=
        map (fun kv => (fst kv, dumps sort_keys item_sep key_sep (snd kv))) d in
      let items := if sort_keys then sorted_items items else items in
      "{" ++ join item_sep
               (map (fun kt => encode_basestring_ascii (fst kt) ++ key_sep ++ snd kt)
                    items)
          ++ "}"
  end.

(** [json.dumps(v, sort_keys=True)]: the default separators. *)
Definition dumps_sorted (v : value) : string := dumps true ", " ": " v.

(** [json.dumps(v, separators=(',', ':'))]. *)
Definition dumps_compact (v : value) : string := dumps false "," ":" v.

End Json.

(* ================================================================= *)
(** ** [urllib]'s [quote] and the UTF-8 encoder *)

Module Url.

Definition hex_upper (n : N) : ascii :=
  if (n <? 10)%N then ascii_of_N (48 + n) else ascii_of_N (55 + n).

Definition is_alnum (c : ascii) : bool :=
  let n := code c in
  ((48 <=? n) && (n <=? 57) || (65 <=? n) && (n <=? 90)
   || (97 <=? n) && (n <=? 122))%N.

(** The characters [quote] never escapes: letters, digits and ['_.-'], and
    from Python 3.7 on also ['~'] ([tilde] says which [urllib] is loaded). *)
Definition always_safe (tilde : bool) (c : ascii) : bool :=
  let n := code c in
  is_alnum c || (n =? 95)%N || (n =? 46)%N || (n =? 45)%N
  || (tilde && (n =? 126)%N).

Definition percent (c : ascii) : string :=
  let n := code c in
  String "%" (String (hex_upper (n / 16)) (String (hex_upper (n mod 16)) "")).

Definition quote_byte (tilde : bool) (b : byte) : string :=
  let c := ascii_of_byte b in
  if always_safe tilde c then String c "" else percent c.

(** [quote(bs, '')]: no character besides the always safe ones is kept. *)
Fixpoint quote (tilde : bool) (bs : list byte) : string :=
  match bs with
  | [] => EmptyString
  | b :: bs' => quote_byte tilde b ++ quote tilde bs'
  end.

End Url.

(** [s.encode('utf-8')] on text below U+0100: one byte below U+0080, two
    bytes from there on. *)
Definition utf8_char (c : ascii) : list byte :=
  let n := code c in
  if (n <? 128)%N then [byte_of_ascii c]
  else [byte_of_ascii (ascii_of_N (192 + n / 64));
        byte_of_ascii (ascii_of_N (128 + n mod 64))].

Definition str_encode (s : string) : list byte :=
  flat_map utf8_char (list_ascii_of_string s).

Fixpoint starts_with (prefix bs : list byte) : bool :=
  match prefix, bs with
  | [], _ => true
  | p :: prefix', b :: bs' => Byte.eqb p b && starts_with prefix' bs'
  | _ :: _, [] => false
  end.

(* ================================================================= *)
(** ** [hashlib.md5]: the MD5 digest of RFC 1321 *)

Module MD5.

Local Open Scope N_scope.

(** Addition modulo 2^32, complement and left rotation of a 32-bit word. *)
Definition add32 (a b : N) : N := (a + b) mod 4294967296.

Definition not32 (x : N) : N := N.lxor x 4294967295.

Definition rotl (x s : N) : N :=
  N.lor (N.shiftl x s mod 4294967296) (N.shiftr x (32 - s)).

(** [K[i] = floor(2^32 * abs(sin(i + 1)))] and the per-round shifts. *)
Definition K : list N :=
  [3614090360; 3905402710; 606105819; 3250441966;
   4118548399; 1200080426; 2821735955; 4249261313;
   1770035416; 2336552879; 4294925233; 2304563134;
   1804603682; 4254626195; 2792965006; 1236535329;
   4129170786; 3225465664; 643717713; 3921069994;
   3593408605; 38016083; 3634488961; 3889429448;
   568446438; 3275163606; 4107603335; 1163531501;
   2850285829; 4243563512; 1735328473; 2368359562;
   4294588738; 2272392833; 1839030562; 4259657740;
   2763975236; 1272893353; 4139469664; 3200236656;
   681279174; 3936430074; 3572445317; 76029189;
   3654602809; 3873151461; 530742520; 3299628645;
   4096336452; 1126891415; 2878612391; 4237533241;
   1700485571; 2399980690; 4293915773; 2240044497;
   1873313359; 4264355552; 2734768916; 1309151649;
   4149444226; 3174756917; 718787259; 3951481745].

Definition shifts : list N :=
  [7; 12; 17; 22; 7; 12; 17; 22; 7; 12; 17; 22; 7; 12; 17; 22;
   5; 9; 14; 20; 5; 9; 14; 20; 5; 9; 14; 20; 5; 9; 14; 20;
   4; 11; 16; 23; 4; 11; 16; 23; 4; 11; 16; 23; 4; 11; 16; 23;
   6; 10; 15; 21; 6; 10; 15; 21; 6; 10; 15; 21; 6; 10; 15; 21].

Definition state : Type := N * N * N * N.

(** One of the 64 operations on a 16-word block [M]. *)
Definition step (M : list N) (st : state) (i : nat) : state :=
  let '(a, b, c, d) := st in
  let '(f, g) :=
    if (i <? 16)%nat then (N.lor (N.land b c) (N.land (not32 b) d), i)
    else if (i <? 32)%nat
         then (N.lor (N.land d b) (N.land (not32 d) c), ((5 * i + 1) mod 16)%nat)
    else if (i <? 48)%nat
         then (N.lxor (N.lxor b c) d, ((3 * i + 5) mod 16)%nat)
    else (N.lxor c (N.lor b (not32 d)), ((7 * i) mod 16)%nat) in
  let f := add32 (add32 (add32 f a) (nth i K 0)) (nth g M 0) in
  (d, add32 b (rotl f (nth i shifts 0)), b, c).

Definition compress (st : state) (M : list N) : state :=
  let '(a0, b0, c0, d0) := st in
  let '(a, b, c, d) := fold_left (step M) (seq 0 64) st in
  (add32 a0 a, add32 b0 b, add32 c0 c, add32 d0 d).

(** The little-endian 32-bit words of a byte sequence. *)
Fixpoint words (bs : list N) : list N :=
  match bs with
  | b0 :: b1 :: b2 :: b3 :: r =>
      (b0 + 256 * b1 + 65536 * b2 + 16777216 * b3) :: words r
  | _ => []
  end.

Fixpoint chunks (n : nat) (ws : list N) : list (list N) :=
  match n with
  | O => []
  | S n' =>
      match ws with
      | [] => []
      | _ => firstn 16 ws :: chunks n' (skipn 16 ws)
      end
  end.

Definition le_bytes (k : nat) (x : N) : list N :=
  map (fun i => (x / 256 ^ N.of_nat i) mod 256) (seq 0 k).

(** A 1 bit, zeros up to 56 modulo 64 bytes, then the bit length on 8 bytes. *)
Definition pad (bs : list N) : list N :=
  let len := List.length bs in
  let zeros := ((119 - len mod 64) mod 64)%nat in
  bs ++ [128] ++ repeat 0 zeros ++ le_bytes 8 (8 * N.of_nat len).

Definition hex_digit (n : N) : ascii :=
  if n <? 10 then ascii_of_N (48 + n) else ascii_of_N (87 + n).

Definition hex_byte (b : N) : string :=
  String (hex_digit (b / 16 mod 16)) (String (hex_digit (b mod 16)) "").

Definition hex_word (w : N) : string :=
  hex_byte w ++ hex_byte (w / 256) ++ hex_byte (w / 65536)
  ++ hex_byte (w / 16777216).

Definition init : state := (1732584193, 4023233417, 2562383102, 271733878).

Definition hexdigest (bs : list byte) : string :=
  let ws := words (pad (map Byte.to_N bs)) in
  let '(a, b, c, d) :=
    fold_left compress (chunks (List.length ws) ws) init in
  hex_word a ++ hex_word b ++ hex_word c ++ hex_word d.

End MD5.

(* ================================================================= *)
(** ** [time.strftime] *)

Module Time.

(** [time.struct_time]: the fields that the format of the module reads. *)
Record struct_time : Set := {
  tm_year : N;
  tm_mon : N;
  tm_mday : N;
  tm_hour : N;
  tm_min : N;
  tm_sec : N
}.

Definition digit (n : N) : ascii := ascii_of_N (48 + n mod 10).

(** [%m], [%d], [%H], [%M] and [%S] write two digits. *)
Definition two_digits (n : N) : string :=
  String (digit (n / 10)) (String (digit n) "").

(** [%Y] writes the year in decimal, with as many digits as it has. *)
Definition year_digits (n : N) : string :=
  NilZero.string_of_uint (N.to_uint n).

Definition directive (d : ascii) (t : struct_time) : string :=
  if Ascii.eqb d "Y" then year_digits (tm_year t)
  else if Ascii.eqb d "m" then two_digits (tm_mon t)
  else if Ascii.eqb d "d" then two_digits (tm_mday t)
  else if Ascii.eqb d "H" then two_digits (tm_hour t)
  else if Ascii.eqb d "M" then two_digits (tm_min t)
  else if Ascii.eqb d "S" then two_digits (tm_sec t)
  else String "%" (String d "").

(** [time.strftime(format, t)] for these directives: a [%] and the letter after
    it are replaced, any other character is copied. *)
Fixpoint strftime (format : string) (t : struct_time) : string :=
  match format with
  | EmptyString => EmptyString
  | String c rest =>
      if Ascii.eqb c "%" then
        match rest with
        | String d rest' => directive d t ++ strftime rest' t
        | EmptyString => String c EmptyString
        end
      else String c (strftime rest t)
  end.

End Time.

(* ================================================================= *)
(** ** The imported libraries *)

(** What [SecureHTTP.py] imports and this file does not define.  A function that can
    raise returns a [result]; [bytes_decode] returns [None] where Python
    raises [UnicodeDecodeError], because [AESDecrypt] catches it. *)
Class Library : Type := {
  (** [b.decode('utf-8')] *)
  bytes_decode : list byte -> option string;
  (** [base64.b64encode(b)] and [base64.b64decode(s)] *)
  b64encode : list byte -> list byte;
  b64decode : string -> result (list byte);
  (** [AES.new(key, AES.MODE_CBC, iv).encrypt(data)] and [.decrypt(data)] *)
  aes_cbc_encrypt : list byte -> list byte -> list byte -> result (list byte);
  aes_cbc_decrypt : list byte -> list byte -> list byte -> result (list byte);
  (** [rsa.PublicKey], [rsa.PrivateKey] and their loaders *)
  public_key : Type;
  private_key : Type;
  load_pkcs1_public : list byte -> result public_key;
  load_pkcs1_openssl_pem : list byte -> result public_key;
  load_pkcs1_private : list byte -> result private_key;
  (** [rsa.encrypt(message, key)], with the random padding it draws, and
      [rsa.decrypt(crypto, key)] *)
  rsa_encrypt : list byte -> public_key -> list byte -> result (list byte);
  rsa_decrypt : list byte -> private_key -> result (list byte);
  (** [json.loads(s)] on text *)
  json_loads : string -> result value;
  (** whether [quote] keeps ['~'] (Python 3.7 and later) *)
  quote_keeps_tilde : bool
}.

(* ================================================================= *)
(** ** [SecureHTTP.py] *)

Section SecureHTTP.

Context {lib : Library}.

(** [AES.block_size] *)
Definition block_size : nat := 16.

Definition public_key_prefix : list byte :=
  str_encode "-----BEGIN RSA PUBLIC KEY-----".

Definition decode_utf8 (b : list byte) : result string :=
  match bytes_decode b with
  | Some s => Ok s
  | None => Raise UnicodeDecodeError
  end.

(** [RSAEncrypt(pubkey, plaintext)]; [rnd] is the randomness [rsa.encrypt]
    draws for its padding. *)
Definition RSAEncrypt (pubkey : list byte) (plaintext : string) (rnd : list byte)
  : result string :=
  key <- (if match pubkey with [] => false | _ => true end
             && starts_with public_key_prefix pubkey
          then load_pkcs1_public pubkey
          else load_pkcs1_openssl_pem pubkey) ;;
  ciphertext <- rsa_encrypt (str_encode plaintext) key rnd ;;
  decode_utf8 (b64encode ciphertext).

(** [RSADecrypt(privkey, ciphertext)] *)
Definition RSADecrypt (privkey : list byte) (ciphertext : value) : result string :=
  key <- load_pkcs1_private privkey ;;
  crypto <- match ciphertext with
            | VStr c => b64decode c
            | _ => Raise TypeError
            end ;;
  plaintext <- rsa_decrypt crypto key ;;
  decode_utf8 plaintext.

(** The test both [AESEncrypt] and [AESDecrypt] start with:
    [key and isinstance(key, string_types) and mod(len(key), 16) == 0 and text
     and isinstance(text, string_types)]. *)
Definition aes_arguments_ok (key text : value) : bool :=
  truthy key && is_text key
  && match key with
     | VStr k => Nat.eqb (String.length k mod 16) 0
     | _ => false
     end
  && truthy text && is_text text.

(** [PADDING] of [AESEncrypt]. *)
Definition PADDING (s : string) : string :=
  let n := (block_size - String.length s mod block_size)%nat in
  s ++ repeat_char (ascii_of_nat n) n.

Definition AESEncrypt (key plaintext : value) : result string :=
  if aes_arguments_ok key plaintext then
    match key, plaintext with
    | VStr key, VStr plaintext =>
        let key := str_encode key in
        let plaintext := PADDING plaintext in
        ciphertext <-
          aes_cbc_encrypt key (firstn block_size key) (str_encode plaintext) ;;
        decode_utf8 (b64encode ciphertext)
    | _, _ => Raise AESError
    end
  else Raise AESError.

(** The character class of the pattern in [AESDecrypt]:
    [[\x00-\x08\x0b-\x0c\x0e-\x1f\n\r\t]]. *)
Definition illegal_char (c : ascii) : bool :=
  let n := code c in
  ((n <=? 8) || (11 <=? n) && (n <=? 12) || (14 <=? n) && (n <=? 31)
   || (n =? 10) || (n =? 13) || (n =? 9))%N.

(** [re.compile(...).sub('', s)] for that one-character class. *)
Fixpoint strip_illegal (s : string) : string :=
  match s with
  | EmptyString => EmptyString
  | String c s' =>
      if illegal_char c then strip_illegal s' else String c (strip_illegal s')
  end.

(** [AESDecrypt(key, ciphertext)]: text, or [False] when the decrypted bytes
    are not text. *)
Definition AESDecrypt (key ciphertext : value) : result value :=
  if aes_arguments_ok key ciphertext then
    match key, ciphertext with
    | VStr key, VStr ciphertext =>
        let key := str_encode key in
        let ciphertext :=
          ciphertext ++ repeat_char "=" (String.length ciphertext mod 4) in
        decrpyt_bytes <- b64decode ciphertext ;;
        msg <- aes_cbc_decrypt key (firstn block_size key) decrpyt_bytes ;;
        match bytes_decode msg with
        | Some text => Ok (VStr (strip_illegal text))
        | None => Ok (VBool false)
        end
    | _, _ => Raise AESError
    end
  else Raise AESError.

(** *** [EncryptedCommunicationMix] *)

(** [get_current_timestamp()]; [gmtime] is what [time.gmtime()] returned. *)
Definition get_current_timestamp (gmtime : Time.struct_time) : string :=
  Time.strftime "%Y-%m-%dT%H:%M:%SZ" gmtime.

(** The argument of [md5]: text is encoded first, bytes are hashed as they
    are. *)
Inductive message : Type :=
| Text (s : string)
| Bytes (b : list byte).

Definition md5 (m : message) : string :=
  match m with
  | Text s => MD5.hexdigest (str_encode s)
  | Bytes b => MD5.hexdigest b
  end.

(** [genAesKey()]; [random] is what [Random.new().read(AES.block_size)]
    returned. *)
Definition genAesKey (random : list byte) : string := md5 (Bytes random).

(** [\s] of a text pattern, below U+0100. *)
Definition is_space (c : ascii) : bool :=
  let n := code c in
  ((9 <=? n) && (n <=? 13) || (28 <=? n) && (n <=? 32)
   || (n =? 133) || (n =? 160))%N.

(** [re.compile(r"\s*,\s*").split(s)].  [cur] is the field read so far and
    [ws] the white space after it, which belongs to the field unless a comma
    follows; [skip] holds right after a comma, where white space belongs to
    the separator. *)
Fixpoint comma_split (skip : bool) (cur ws s : string) {struct s} : list string :=
  match s with
  | EmptyString => [cur ++ ws]
  | String c s' =>
      if Ascii.eqb c "," then cur :: comma_split true "" "" s'
      else if is_space c then
        if skip then comma_split true "" "" s'
        else comma_split false cur (ws ++ String c "") s'
      else comma_split false (cur ++ ws ++ String c "") "" s'
  end.

Definition nonempty (s : string) : bool := negb (String.eqb s "").

Definition conversionComma (comma_str : value) : list string :=
  match comma_str with
  | VStr s =>
      if truthy comma_str then filter nonempty (comma_split false "" "" s)
      else []
  | _ => []
  end.

(** [_percent_encode(encodeStr)] *)
Definition _percent_encode (encodeStr : value) : string :=
  let encodeStr := Json.dumps_sorted encodeStr in
  let res := Url.quote quote_keeps_tilde (str_encode encodeStr) in
  let res := replace "+" "%20" res in
  let res := replace "*" "%2A" res in
  let res := replace "%7E" "~" res in
  res.

(** [data = dict(); for k in signIndex: data[k] = parameters[k]] *)
Fixpoint select_keys (signIndex : list string) (parameters data : dict value)
  : result (dict value) :=
  match signIndex with
  | [] => Ok data
  | k :: rest =>
      match dict_get k parameters with
      | Some v => select_keys rest parameters (dict_set k v data)
      | None => Raise KeyError
      end
  end.

(** The loop that builds [canonicalizedQueryString]. *)
Definition canonicalize (_my_sorted : list (string * value)) : string :=
  fold_left
    (fun acc kv =>
       acc ++ (_percent_encode (VStr (fst kv)) ++ "="
               ++ _percent_encode (snd kv) ++ "&"))
    _my_sorted "".

(** [meta.get("SignatureIndex", None)] *)
Definition signature_index (meta : dict value) : value :=
  match dict_get "SignatureIndex" meta with
  | Some v => v
  | None => VNone
  end.

(** The first half of [sign]: the dictionary [data] that is signed, [None]
    where [sign] returns without signing. *)
Definition sign_data (parameters meta : dict value)
  : result (option (dict value)) :=
  let signIndex := signature_index meta in
  match signIndex with
  | VBool false => Ok None
  | _ =>
      data <- (if truthy signIndex && is_text signIndex
               then select_keys (conversionComma signIndex) parameters []
               else Ok parameters) ;;
      Ok (Some (dict_update data meta))
  end.

(** [sign(parameters, meta)]: [Ok VNone] is the bare [return]. *)
Definition sign (parameters meta : value) : result value :=
  match parameters, meta with
  | VDict parameters, VDict meta =>
      data <- sign_data parameters meta ;;
      match data with
      | None => Ok VNone
      | Some data =>
          let _my_sorted := sorted_items data in
          Ok (VStr (md5 (Text (canonicalize _my_sorted))))
      end
  | _, _ => Raise TypeError
  end.

(** [x.pop(k)] on whatever [json.loads] returned. *)
Definition pop (k : string) (x : value) : result (value * value) :=
  match x with
  | VDict d =>
      match dict_pop k d with
      | Some (v, d') => Ok (v, VDict d')
      | None => Raise KeyError
      end
  | VList _ => Raise TypeError
  | _ => Raise AttributeError
  end.

(** [json.loads(x)] on what [AESDecrypt] returned. *)
Definition loads (x : value) : result value :=
  match x with
  | VStr s => json_loads s
  | _ => Raise TypeError
  end.

(** The five lines [clientDecrypt] and [serverDecrypt] share: pop
    [__meta__], pop [Signature], sign what is left, compare. *)
Definition verify (data : value) : result value :=
  ' (metaData, data) <- pop "__meta__" data ;;
  ' (Signature, metaData) <- pop "Signature" metaData ;;
  SignData <- sign data metaData ;;
  if py_eq Signature SignData then Ok data else Raise SignError.

(** [dict(Timestamp=..., SignatureVersion="v1", SignatureMethod="MD5",
    SignatureIndex=signIndex)]; [now] is what [get_current_timestamp()]
    returned. *)
Definition new_metaData (now : string) (signIndex : value) : dict value :=
  [("Timestamp", VStr now); ("SignatureVersion", VStr "v1");
   ("SignatureMethod", VStr "MD5"); ("SignatureIndex", signIndex)].

(** The steps [clientEncrypt] and [serverEncrypt] share.  First the metadata
    is built, signed and stored under [__meta__] ... *)
Definition with_meta (data : dict value) (signIndex : value) (now : string)
  : result (dict value) :=
  let metaData := new_metaData now signIndex in
  Signature <- sign (VDict data) (VDict metaData) ;;
  let metaData := dict_set "Signature" Signature metaData in
  Ok (dict_set "__meta__" (VDict metaData) data).

(** ... then the whole is written as compact JSON and encrypted. *)
Definition seal (AESKey : value) (data : dict value) (signIndex : value)
  (now : string) : result string :=
  data <- with_meta data signIndex now ;;
  AESEncrypt AESKey (VStr (Json.dumps_compact (VDict data))).

(** *** [EncryptedCommunicationClient] *)

Record Client : Type := {
  client_AESKey : string;
  PublicKey : list byte
}.

(** [EncryptedCommunicationClient(PublicKey)] *)
Definition new_client (PublicKey : list byte) (random : list byte) : Client :=
  {| client_AESKey := genAesKey random; PublicKey := PublicKey |}.

Definition clientEncrypt (self : Client) (post signIndex : value)
  (now : string) (rnd : list byte) : result value :=
  match post with
  | VDict postData =>
      if truthy post then
        RSAKey <- RSAEncrypt (PublicKey self) (client_AESKey self) rnd ;;
        JsonAESEncryptedData <-
          seal (VStr (client_AESKey self)) postData signIndex now ;;
        Ok (VDict [("key", VStr RSAKey); ("value", VStr JsonAESEncryptedData)])
      else Raise TypeError
  | _ => Raise TypeError
  end.

Definition clientDecrypt (self : Client) (encryptedRespData : value)
  : result value :=
  match encryptedRespData with
  | VDict d =>
      match dict_get "data" d with
      | Some JsonAESEncryptedData =>
          plain <- AESDecrypt (VStr (client_AESKey self)) JsonAESEncryptedData ;;
          respData <- loads plain ;;
          verify respData
      | None => Raise TypeError
      end
  | _ => Raise TypeError
  end.

(** *** [EncryptedCommunicationServer] *)

Record Server : Type := {
  PrivateKey : list byte;
  server_AESKey : value
}.

(** [EncryptedCommunicationServer(PrivateKey)]: the key slot starts as [None]. *)
Definition new_server (PrivateKey : list byte) : Server :=
  {| PrivateKey := PrivateKey; server_AESKey := VNone |}.

(** [serverDecrypt] assigns [self.AESKey] before it decrypts and verifies, so
    the instance it leaves behind is returned beside the outcome. *)
Definition serverDecrypt (self : Server) (encryptedPostData : value)
  : result value * Server :=
  match encryptedPostData with
  | VDict d =>
      match dict_get "key" d, dict_get "value" d with
      | Some RSAKey, Some JsonAESEncryptedData =>
          match RSADecrypt (PrivateKey self) RSAKey with
          | Ok AESKey =>
              let self :=
                {| PrivateKey := PrivateKey self; server_AESKey := VStr AESKey |} in
              (plain <- AESDecrypt (server_AESKey self) JsonAESEncryptedData ;;
               postData <- loads plain ;;
               verify postData,
               self)
          | Raise e => (Raise e, self)
          end
      | _, _ => (Raise TypeError, self)
      end
  | _ => (Raise TypeError, self)
  end.

Definition serverEncrypt (self : Server) (resp signIndex : value) (now : string)
  : result value :=
  if truthy (server_AESKey self) then
    match resp with
    | VDict respData =>
        if truthy resp then
          JsonAESEncryptedData <- seal (server_AESKey self) respData signIndex now ;;
          Ok (VDict [("data", VStr JsonAESEncryptedData)])
        else Raise TypeError
    | _ => Raise TypeError
    end
  else Raise ValueError.

End SecureHTTP.

(* ================================================================= *)
(** ** A reference library

    A [Library] to run the protocol on: UTF-8 and base64 as the RFCs define
    them, a JSON reader for what [json.dumps] writes, and stand-ins for the two
    ciphers that keep their contracts (what is encrypted decrypts to itself,
    under the matching key only for RSA) and none of their secrecy. *)

Module Reference.

Definition byte_of_N (n : N) : byte := byte_of_ascii (ascii_of_N n).

(** UTF-8, for code points below U+0100 (lead bytes [C2] and [C3]). *)
Fixpoint utf8_decode (bs : list byte) : option string :=
  match bs with
  | [] => Some EmptyString
  | b :: r =>
      let n := Byte.to_N b in
      if (n <? 128)%N then option_map (String (ascii_of_byte b)) (utf8_decode r)
      else
        match r with
        | b2 :: r' =>
            let m := Byte.to_N b2 in
            if (((n =? 194) || (n =? 195)) && (128 <=? m) && (m <? 192))%N
            then option_map (String (ascii_of_N ((n - 192) * 64 + (m - 128))))
                            (utf8_decode r')
            else None
        | [] => None
        end
  end.

(** Base64 (RFC 4648). *)
Definition sextet_char (n : N) : ascii :=
  if (n <? 26)%N then ascii_of_N (65 + n)
  else if (n <? 52)%N then ascii_of_N (71 + n)
  else if (n <? 62)%N then ascii_of_N (n - 4)
  else if (n =? 62)%N then "+"%char
  else "/"%char.

Definition char_sextet (c : ascii) : option N :=
  let n := code c in
  if ((65 <=? n) && (n <=? 90))%N then Some (n - 65)%N
  else if ((97 <=? n) && (n <=? 122))%N then Some (n - 71)%N
  else if ((48 <=? n) && (n <=? 57))%N then Some (n + 4)%N
  else if (n =? 43)%N then Some 62%N
  else if (n =? 47)%N then Some 63%N
  else None.

Fixpoint b64_chars (bs : list N) : list ascii :=
  match bs with
  | [] => []
  | [a] =>
      [sextet_char (a / 4); sextet_char (a mod 4 * 16); "="; "="]%char%N
  | [a; b] =>
      [sextet_char (a / 4); sextet_char (a mod 4 * 16 + b / 16);
       sextet_char (b mod 16 * 4); "="%char]%N
  | a :: b :: c :: r =>
      (sextet_char (a / 4) :: sextet_char (a mod 4 * 16 + b / 16)
       :: sextet_char (b mod 16 * 4 + c / 64) :: sextet_char (c mod 64)
       :: b64_chars r)%N
  end.

Fixpoint b64_bytes (cs : list ascii) : option (list N) :=
  match cs with
  | [] => Some []
  | c1 :: c2 :: c3 :: c4 :: r =>
      match char_sextet c1, char_sextet c2 with
      | Some n1, Some n2 =>
          let a := (n1 * 4 + n2 / 16)%N in
          match char_sextet c3, char_sextet c4, r with
          | Some n3, Some n4, _ =>
              option_map
                (fun l => a :: (n2 mod 16 * 16 + n3 / 4) :: (n3 mod 4 * 64 + n4) :: l)%N
                (b64_bytes r)
          | Some n3, None, [] =>
              if Ascii.eqb c4 "=" then Some [a; (n2 mod 16 * 16 + n3 / 4)%N]
              else None
          | None, None, [] =>
              if Ascii.eqb c3 "=" && Ascii.eqb c4 "=" then Some [a] else None
          | _, _, _ => None
          end
      | _, _ => None
      end
  | _ => None
  end.

Definition base64_encode (b : list byte) : list byte :=
  map byte_of_ascii (b64_chars (map Byte.to_N b)).

Definition base64_decode (s : string) : result (list byte) :=
  match b64_bytes (list_ascii_of_string s) with
  | Some ns => Ok (map byte_of_N ns)
  | None => Raise LibraryError
  end.

(** The stand-in for AES in CBC mode: it accepts what [Crypto] accepts (a key of
    16, 24 or 32 bytes, an [iv] of one block, whole blocks of data) and writes
    the data back to front. *)
Definition aes_lengths_ok (key iv data : list byte) : bool :=
  let k := List.length key in
  (Nat.eqb k 16 || Nat.eqb k 24 || Nat.eqb k 32)
  && Nat.eqb (List.length iv) 16
  && Nat.eqb (List.length data mod 16) 0.

Definition mirror (key iv data : list byte) : result (list byte) :=
  if aes_lengths_ok key iv data then Ok (rev data) else Raise ValueError.

(** The stand-in for RSA: a key is its PEM text, a message of at most 117
    bytes is sent behind the public key, and the private key that equals it
    takes it off again.  The padding randomness is not used. *)
Definition load_pem (pem : list byte) : result (list byte) :=
  match pem with
  | [] => Raise LibraryError
  | _ => Ok pem
  end.

Definition wrap (m key rnd : list byte) : result (list byte) :=
  if Nat.leb (List.length m) 117 then Ok (key ++ m)%list else Raise LibraryError.

Definition unwrap (c key : list byte) : result (list byte) :=
  if starts_with key c then Ok (skipn (List.length key) c)
  else Raise LibraryError.

(** A reader for JSON text.  [fuel] bounds the number of values and items
    read. *)
Fixpoint skip_ws (s : string) : string :=
  match s with
  | String c s' =>
      if ((code c =? 32) || (code c =? 9) || (code c =? 10) || (code c =? 13))%N
      then skip_ws s' else s
  | EmptyString => s
  end.

Definition hex_value (c : ascii) : option N :=
  let n := code c in
  if ((48 <=? n) && (n <=? 57))%N then Some (n - 48)%N
  else if ((97 <=? n) && (n <=? 102))%N then Some (n - 87)%N
  else if ((65 <=? n) && (n <=? 70))%N then Some (n - 55)%N
  else None.

(** The text of a string literal, after its opening quotation mark. *)
Fixpoint read_string (s : string) : option (string * string) :=
  match s with
  | EmptyString => None
  | String c r =>
      if Ascii.eqb c Json.dquote then Some (EmptyString, r)
      else if Ascii.eqb c "\" then
        match r with
        | String "u" (String h1 (String h2 (String h3 (String h4 r')))) =>
            match hex_value h1, hex_value h2, hex_value h3, hex_value h4 with
            | Some 0%N, Some 0%N, Some a, Some b =>
                match read_string r' with
                | Some (t, rest) => Some (String (ascii_of_N (a * 16 + b)) t, rest)
                | None => None
                end
            | _, _, _, _ => None
            end
        | String e r' =>
            let plain (x : ascii) :=
              match read_string r' with
              | Some (t, rest) => Some (String x t, rest)
              | None => None
              end in
            if Ascii.eqb e "n" then plain (ascii_of_N 10)
            else if Ascii.eqb e "r" then plain (ascii_of_N 13)
            else if Ascii.eqb e "t" then plain (ascii_of_N 9)
            else if Ascii.eqb e "b" then plain (ascii_of_N 8)
            else if Ascii.eqb e "f" then plain (ascii_of_N 12)
            else if Ascii.eqb e "\" || Ascii.eqb e "/" || Ascii.eqb e Json.dquote
            then plain e
            else None
        | EmptyString => None
        end
      else
        match read_string r with
        | Some (t, rest) => Some (String c t, rest)
        | None => None
        end
  end.

Fixpoint read_digits (acc : Z) (s : string) : Z * string :=
  match s with
  | String c r =>
      let n := code c in
      if ((48 <=? n) && (n <=? 57))%N
      then read_digits (10 * acc + Z.of_N (n - 48)) r
      else (acc, s)
  | EmptyString => (acc, s)
  end.

Definition is_digit (c : ascii) : bool :=
  ((48 <=? code c) && (code c <=? 57))%N.

Fixpoint drop (n : nat) (s : string) : string :=
  match n, s with
  | S n', String _ s' => drop n' s'
  | _, _ => s
  end.

Definition read_literal (word : string) (v : value) (s : string)
  : option (value * string) :=
  if has_prefix word s then Some (v, drop (String.length word) s) else None.

Fixpoint read_value (fuel : nat) (s : string) {struct fuel}
  : option (value * string) :=
  match fuel with
  | O => None
  | S fuel =>
      match skip_ws s with
      | EmptyString => None
      | String c r =>
          if Ascii.eqb c Json.dquote then
            match read_string r with
            | Some (t, rest) => Some (VStr t, rest)
            | None => None
            end
          else if Ascii.eqb c "[" then
            match skip_ws r with
            | String "]" rest => Some (VList [], rest)
            | _ => read_items fuel [] r
            end
          else if Ascii.eqb c "{" then
            match skip_ws r with
            | String "}" rest => Some (VDict [], rest)
            | _ => read_members fuel [] r
            end
          else if Ascii.eqb c "-" then
            match r with
            | String d _ =>
                if is_digit d
                then let (n, rest) := read_digits 0 r in Some (VInt (- n), rest)
                else None
            | EmptyString => None
            end
          else if is_digit c then
            let (n, rest) := read_digits 0 (String c r) in Some (VInt n, rest)
          else if Ascii.eqb c "n" then read_literal "null" VNone (String c r)
          else if Ascii.eqb c "t" then read_literal "true" (VBool true) (String c r)
          else if Ascii.eqb c "f" then read_literal "false" (VBool false) (String c r)
          else None
      end
  end
with read_items (fuel : nat) (acc : list value) (s : string) {struct fuel}
  : option (value * string) :=
  match fuel with
  | O => None
  | S fuel =>
      match read_value fuel s with
      | Some (v, rest) =>
          match skip_ws rest with
          | String "," rest' => read_items fuel (v :: acc) rest'
          | String "]" rest' => Some (VList (rev (v :: acc)), rest')
          | _ => None
          end
      | None => None
      end
  end
with read_members (fuel : nat) (acc : dict value) (s : string) {struct fuel}
  : option (value * string) :=
  match fuel with
  | O => None
  | S fuel =>
      match skip_ws s with
      | String c r =>
          if Ascii.eqb c Json.dquote then
            match read_string r with
            | Some (k, rest) =>
                match skip_ws rest with
                | String ":" rest' =>
                    match read_value fuel rest' with
                    | Some (v, rest'') =>
                        match skip_ws rest'' with
                        | String "," more =>
                            read_members fuel (dict_set k v acc) more
                        | String "}" more =>
                            Some (VDict (dict_set k v acc), more)
                        | _ => None
                        end
                    | None => None
                    end
                | _ => None
                end
            | None => None
            end
          else None
      | EmptyString => None
      end
  end.

Definition read_json (s : string) : result value :=
  match read_value (S (String.length s)) s with
  | Some (v, rest) =>
      match skip_ws rest with
      | EmptyString => Ok v
      | _ => Raise LibraryError
      end
  | None => Raise LibraryError
  end.

#[export] Instance library : Library := {|
  bytes_decode := utf8_decode;
  b64encode := base64_encode;
  b64decode := base64_decode;
  aes_cbc_encrypt := mirror;
  aes_cbc_decrypt := mirror;
  public_key := list byte;
  private_key := list byte;
  load_pkcs1_public := load_pem;
  load_pkcs1_openssl_pem := load_pem;
  load_pkcs1_private := load_pem;
  rsa_encrypt := wrap;
  rsa_decrypt := unwrap;
  json_loads := read_json;
  quote_keeps_tilde := true
|}.

End Reference.

(* ================================================================= *)
(** * The vocabulary of the statements *)

(** What makes an association list a [dict]: no key twice. *)
Definition is_mapping {V : Type} (d : dict V) : Prop := NoDup (keys d).

(** Keys in increasing order, as [sorted] compares them. *)
Definition key_le {V : Type} (x y : string * V) : Prop :=
  String.leb (fst x) (fst y) = true.

(** Strictly increasing keys, in the order of [String.compare]. *)
Definition key_lt {V : Type} (x y : string * V) : Prop :=
  String.compare (fst x) (fst y) = Lt.

(** Two dictionaries with the same items, in whatever order. *)
Definition same_items {V : Type} (d d' : dict V) : Prop :=
  forall k, dict_get k d = dict_get k d'.

(** ** Induction on values *)

Section ValueInduction.

Variable P : value -> Prop.
Hypothesis HNone : P VNone.
Hypothesis HBool : forall b, P (VBool b).
Hypothesis HInt : forall n, P (VInt n).
Hypothesis HStr : forall s, P (VStr s).
Hypothesis HList : forall l, Forall P l -> P (VList l).
Hypothesis HDict : forall d, Forall (fun kv => P (snd kv)) d -> P (VDict d).

Fixpoint value_nested_ind (v : value) : P v :=
  match v with
  | VNone => HNone
  | VBool b => HBool b
  | VInt n => HInt n
  | VStr s => HStr s
  | VList l =>
      HList l
        ((fix items (l : list value) : Forall P l :=
            match l with
            | [] => Forall_nil P
            | x :: r => Forall_cons x (value_nested_ind x) (items r)
            end) l)
  | VDict d =>
      HDict d
        ((fix items (d : list (string * value))
            : Forall (fun kv => P (snd kv)) d :=
            match d with
            | [] => Forall_nil _
            | kv :: r => Forall_cons kv (value_nested_ind (snd kv)) (items r)
            end) d)
  end.

End ValueInduction.

(** ** Text made of given characters *)

Fixpoint all_chars (p : ascii -> bool) (s : string) : bool :=
  match s with
  | EmptyString => true
  | String c s' => p c && all_chars p s'
  end.

(** The characters [' '..'~']. *)
Definition printable (c : ascii) : bool :=
  ((32 <=? code c) && (code c <=? 126))%N.

(** The characters below U+0080. *)
Definition is_ascii (c : ascii) : bool := (code c <? 128)%N.

(** What [_percent_encode] does to one character of the JSON text: letters,
    digits and ['-'], ['_'], ['.'], ['~'] stay, anything else becomes [%XX]
    with upper-case digits. *)
Definition percent_char (c : ascii) : string :=
  if Url.always_safe true c then String c "" else Url.percent c.

Fixpoint percent_encode (s : string) : string :=
  match s with
  | EmptyString => EmptyString
  | String c s' => percent_char c ++ percent_encode s'
  end.

(** The encoding in the words of the specification: a percent encoding that
    escapes ['*'], leaves ['~'] alone and maps ['+'] to [%20]. *)
Definition specified_char (c : ascii) : string :=
  if Ascii.eqb c "+" then "%20"
  else if Ascii.eqb c "*" then "%2A"
  else if Ascii.eqb c "~" then "~"
  else if Url.always_safe false c then String c "" else Url.percent c.

Fixpoint specified_encode (s : string) : string :=
  match s with
  | EmptyString => EmptyString
  | String c s' => specified_char c ++ specified_encode s'
  end.

(** The text of one pair of the signing string. *)
Definition field `{Library} (kv : string * value) : string :=
  _percent_encode (VStr (fst kv)) ++ "=" ++ _percent_encode (snd kv) ++ "&".

Definition flatten (l : list string) : string := fold_right append EmptyString l.

(** A value whose dictionaries, at every depth, have no key twice. *)
Fixpoint well_formed (v : value) : Prop :=
  match v with
  | VList l =>
      (fix items (l : list value) : Prop :=
         match l with
         | [] => True
         | x :: r => well_formed x /\ items r
         end) l
  | VDict d =>
      is_mapping d
      /\ (fix items (d : list (string * value)) : Prop :=
            match d with
            | [] => True
            | kv :: r => well_formed (snd kv) /\ items r
            end) d
  | _ => True
  end.

(** What the theorems below ask of a [Library]: UTF-8 decoding undoes
    [str_encode]; base64 text is text (four characters for every three bytes
    begun) and decodes to the bytes it was made from; AES in CBC mode accepts
    a key of 16, 24 or 32 bytes with one block of [iv] and whole blocks of
    data, keeps the length, and decrypts what it encrypted; [json.loads] reads
    what [json.dumps] wrote. *)
Class Lawful (lib : Library) : Prop := {
  utf8_law : forall s, bytes_decode (str_encode s) = Some s;
  base64_law : forall b,
    exists s, bytes_decode (b64encode b) = Some s
              /\ String.length s = 4 * ((List.length b + 2) / 3)
              /\ b64decode s = Ok b;
  aes_law : forall key iv data,
    List.length key = 16 \/ List.length key = 24 \/ List.length key = 32 ->
    List.length iv = 16 ->
    List.length data mod 16 = 0 ->
    exists c, aes_cbc_encrypt key iv data = Ok c
              /\ List.length c = List.length data
              /\ aes_cbc_decrypt key iv c = Ok data;
  json_law : forall v,
    well_formed v -> json_loads (Json.dumps_compact v) = Ok v
}.

(** A positive multiple of 16. *)
Definition positive_multiple_of_16 (n : nat) : Prop := 0 < n /\ n mod 16 = 0.

(** Text without its characters below U+0020. *)
Definition without_controls (text : string) : string :=
  string_of_list_ascii
    (filter (fun c => (32 <=? code c)%N) (list_ascii_of_string text)).

(** The payload keys that take part in a signature, in the words of the
    specification: those a text [SignatureIndex] lists, every key otherwise. *)
Definition selection `{Library} (P M : dict value) : list string :=
  match signature_index M with
  | VStr s => if String.eqb s "" then keys P else conversionComma (VStr s)
  | _ => keys P
  end.

(** A received [body] carries a [Signature] beside what is left of the payload
    and of the metadata once [__meta__] and [Signature] are popped. *)
Definition carries (body Signature payload metaData : value) : Prop :=
  exists meta,
    pop "__meta__" body = Ok (meta, payload)
    /\ pop "Signature" meta = Ok (Signature, metaData).

(** The client decrypts and parses the envelope [env] to [body]. *)
Definition client_opens `{Library} (self : Client) (env body : value) : Prop :=
  exists d ciphertext plain,
    env = VDict d
    /\ dict_get "data" d = Some ciphertext
    /\ AESDecrypt (VStr (client_AESKey self)) ciphertext = Ok plain
    /\ loads plain = Ok body.

(** The server unwraps the key of [env], decrypts and parses it to [body]. *)
Definition server_opens `{Library} (self : Server) (env body : value) : Prop :=
  exists d RSAKey ciphertext AESKey plain,
    env = VDict d
    /\ dict_get "key" d = Some RSAKey
    /\ dict_get "value" d = Some ciphertext
    /\ RSADecrypt (PrivateKey self) RSAKey = Ok AESKey
    /\ AESDecrypt (VStr AESKey) ciphertext = Ok plain
    /\ loads plain = Ok body.

(** A key pair is valid when what [RSAEncrypt] wraps under the public key,
    [RSADecrypt] unwraps under the private key; the protocol wraps the 32
    characters of an MD5 digest. *)
Definition valid_key_pair `{Library} (PublicKey PrivateKey : list byte) : Prop :=
  forall (AESKey : string) (rnd : list byte),
    String.length AESKey = 32 -> all_chars is_ascii AESKey = true ->
    exists RSAKey,
      RSAEncrypt PublicKey AESKey rnd = Ok RSAKey
      /\ RSADecrypt PrivateKey (VStr RSAKey) = Ok AESKey.

(** [json.loads] reads back the body that [with_meta] builds. *)
Definition reads_back `{Library} (data : dict value) (signIndex : value)
  (now : string) : Prop :=
  forall body,
    with_meta data signIndex now = Ok body ->
    json_loads (Json.dumps_compact (VDict body)) = Ok (VDict body).

(** ** For the proof that the reference reader reads [json.dumps] *)

(** The number a digit sequence denotes, after [acc]. *)
Fixpoint uint_acc (d : Decimal.uint) (acc : Z) : Z :=
  match d with
  | Decimal.Nil => acc
  | Decimal.D0 l => uint_acc l (10 * acc)
  | Decimal.D1 l => uint_acc l (10 * acc + 1)
  | Decimal.D2 l => uint_acc l (10 * acc + 2)
  | Decimal.D3 l => uint_acc l (10 * acc + 3)
  | Decimal.D4 l => uint_acc l (10 * acc + 4)
  | Decimal.D5 l => uint_acc l (10 * acc + 5)
  | Decimal.D6 l => uint_acc l (10 * acc + 6)
  | Decimal.D7 l => uint_acc l (10 * acc + 7)
  | Decimal.D8 l => uint_acc l (10 * acc + 8)
  | Decimal.D9 l => uint_acc l (10 * acc + 9)
  end.

(** What may follow a value in JSON text: nothing, or one of [,], []], [}]. *)
Definition delimited (rest : string) : Prop :=
  match rest with
  | EmptyString => True
  | String c _ => c = ","%char \/ c = "]"%char \/ c = "}"%char
  end.

(** The first character of a value. *)
Definition value_head (c : ascii) : bool :=
  Reference.is_digit c || Ascii.eqb c "-" || Ascii.eqb c Json.dquote || Ascii.eqb c "["
  || Ascii.eqb c "{" || Ascii.eqb c "n" || Ascii.eqb c "t" || Ascii.eqb c "f".

(** The text of one member of a dictionary. *)
Definition member_text (kv : string * value) : string :=
  Json.encode_basestring_ascii (fst kv) ++ ":" ++ Json.dumps_compact (snd kv).

(** ** For the further properties of the module *)

(** The characters of [s] from U+0080 on.  A [string] holds code points below
    U+0100 only, and UTF-8 writes those from U+0080 on (as it writes every
    code point below U+0800) on two bytes. *)
Fixpoint two_byte_chars (s : string) : nat :=
  match s with
  | EmptyString => 0
  | String c s' => (if is_ascii c then 0 else 1) + two_byte_chars s'
  end.

(** A broken-down time of the years 1000 to 9999. *)
Definition calendar_time (t : Time.struct_time) : Prop :=
  (1000 <= Time.tm_year t <= 9999
   /\ 1 <= Time.tm_mon t <= 12 /\ 1 <= Time.tm_mday t <= 31
   /\ Time.tm_hour t <= 23 /\ Time.tm_min t <= 59 /\ Time.tm_sec t <= 61)%N.

(** The order of two sequences of numbers: the first difference decides. *)
Fixpoint lexicographic (a b : list N) : comparison :=
  match a, b with
  | [], [] => Eq
  | [], _ :: _ => Lt
  | _ :: _, [] => Gt
  | x :: a', y :: b' =>
      match N.compare x y with
      | Eq => lexicographic a' b'
      | c => c
      end
  end.

(** Which of two times comes first. *)
Definition chronological (t u : Time.struct_time) : comparison :=
  lexicographic
    [Time.tm_year t; Time.tm_mon t; Time.tm_mday t;
     Time.tm_hour t; Time.tm_min t; Time.tm_sec t]
    [Time.tm_year u; Time.tm_mon u; Time.tm_mday u;
     Time.tm_hour u; Time.tm_min u; Time.tm_sec u].

(** The numbers from [start] on, [count] of them. *)
Fixpoint N_range (start : N) (count : nat) : list N :=
  match count with
  | O => []
  | S count' => start :: N_range (N.succ start) count'
  end.

(** The digits of a hexadecimal digest: ['0'..'9'] and ['a'..'f']. *)
Definition lower_hex (c : ascii) : bool :=
  ((48 <=? code c) && (code c <=? 57) || (97 <=? code c) && (code c <=? 102))%N.

(** Keys that a comma-separated list can carry: no comma, and no white space
    at either end (so the key is not empty). *)
Definition no_comma (c : ascii) : bool := negb (Ascii.eqb c ",").

Definition starts_clean (s : string) : bool :=
  match s with
  | EmptyString => false
  | String c _ => negb (is_space c)
  end.

Fixpoint ends_clean (s : string) : bool :=
  match s with
  | EmptyString => true
  | String c EmptyString => negb (is_space c)
  | String _ s' => ends_clean s'
  end.

Definition plain_key (k : string) : bool :=
  starts_clean k && ends_clean k && all_chars no_comma k.

(** A separator that the pattern [\s*,\s*] matches as a whole: one comma, with
    white space before and after it. *)
Definition comma_separator (sep : string) : Prop :=
  exists a b,
    all_chars is_space a = true /\ all_chars is_space b = true
    /\ sep = a ++ "," ++ b.

(** The characters [_percent_encode] writes: the ones [quote] keeps, and the
    percent sign of an escape. *)
Definition url_char (c : ascii) : bool :=
  Url.always_safe true c || Ascii.eqb c "%".

(** The characters of the signing string: those, and its two delimiters. *)
Definition query_char (c : ascii) : bool :=
  url_char c || Ascii.eqb c "=" || Ascii.eqb c "&".

(** Reading a percent encoding back: [%XX] is the character of code [XX]. *)
Fixpoint percent_decode (s : string) : string :=
  match s with
  | EmptyString => EmptyString
  | String c r =>
      if Ascii.eqb c "%" then
        match r with
        | String h (String l r') =>
            match Reference.hex_value h, Reference.hex_value l with
            | Some a, Some b =>
                String (ascii_of_N (a * 16 + b)) (percent_decode r')
            | _, _ => String c (percent_decode r)
            end
        | _ => String c (percent_decode r)
        end
      else String c (percent_decode r)
  end.

(** A signed pair as the signing string shows it: the key, and the JSON text
    of the value. *)
Definition signed_text (kv : string * value) : string * string :=
  (fst kv, Json.dumps_sorted (snd kv)).

(** Two dictionaries with the same keys and, at each key, values with the same
    JSON text. *)
Definition same_text (d d' : dict value) : Prop :=
  forall k,
    option_map Json.dumps_sorted (dict_get k d)
    = option_map Json.dumps_sorted (dict_get k d').

(** Two values that are the same up to the order in which their dictionaries,
    at every depth, hold their items. *)
Fixpoint same_value (v w : value) {struct v} : Prop :=
  match v, w with
  | VList l, VList m =>
      (fix items (l m : list value) {struct l} : Prop :=
         match l, m with
         | [], [] => True
         | a :: l', b :: m' => same_value a b /\ items l' m'
         | _, _ => False
         end) l m
  | VDict d, VDict e =>
      is_mapping d /\ is_mapping e /\ List.length d = List.length e
      /\ (fix items (d : list (string * value)) : Prop :=
            match d with
            | [] => True
            | kv :: r =>
                match dict_get (fst kv) e with
                | Some y => same_value (snd kv) y
                | None => False
                end /\ items r
            end) d
  | VList _, _ => False
  | VDict _, _ => False
  | _, _ => v = w
  end.

(* ================================================================= *)
(** * The end-to-end scenario, run on the reference library *)

Module Scenario.

Import Reference.

Definition pem : list byte := str_encode "-----BEGIN RSA PUBLIC KEY-----MIIB".
Definition random : list byte := str_encode "0123456789abcdef".
Definition now : string := "2019-01-01T00:00:00Z".
Definition later : string := "2019-01-01T00:00:01Z".

Definition client : Client := new_client pem random.
Definition fresh_server : Server := new_server pem.

Definition login : dict value := [("action", VStr "login"); ("user", VStr "alice")].
Definition login' : dict value := [("user", VStr "alice"); ("action", VStr "login")].
Definition status : dict value := [("status", VStr "ok")].

(** A payload that uses the key reserved for the metadata. *)
Definition reserved : dict value := [("__meta__", VInt 1)].

Definition user_only : dict value := new_metaData now (VStr "user").

Definition or_none (r : result value) : value :=
  match r with
  | Ok v => v
  | Raise _ => VNone
  end.

Definition request : value :=
  Eval vm_compute in or_none (clientEncrypt client (VDict login) VNone now []).

Definition reserved_request : value :=
  Eval vm_compute in or_none (clientEncrypt client (VDict reserved) VNone now []).

Definition server : Server :=
  Eval vm_compute in snd (serverDecrypt fresh_server request).

(** The body of [request], and the same body under another signature. *)
Definition body : value :=
  Eval vm_compute in
    match with_meta login VNone now with
    | Ok d => VDict d
    | Raise _ => VNone
    end.

Definition forged_meta : dict value :=
  (new_metaData now VNone
   ++ [("Signature", VStr "29310cfbbfa3fe8d53e312a34ceffa6e")])%list.

Definition forged_body : value :=
  VDict (login ++ [("__meta__", VDict forged_meta)])%list.

Definition envelope_of (body : value) : value :=
  match AESEncrypt (VStr (client_AESKey client)) (VStr (Json.dumps_compact body)) with
  | Ok c => VDict [("data", VStr c)]
  | Raise _ => VNone
  end.

Definition forged_ciphertext : string :=
  Eval vm_compute in
    match envelope_of forged_body with
    | VDict [(_, VStr c)] => c
    | _ => EmptyString
    end.

(** Sixteen bytes [FF]: whole blocks, and not UTF-8. *)
Definition not_text : string := "/////////////////////w==".

(** Two lines of text, a text of one character above U+007F, and a key of 16
    characters. *)
Definition two_lines : string := "line one" ++ String (ascii_of_N 10) "line two".
Definition e_acute : string := String (ascii_of_N 233) "".
Definition short_key : string := "0123456789abcdef".

(** [login] with another action. *)
Definition logout : dict value :=
  [("action", VStr "logout"); ("user", VStr "alice")].

(** A payload that AES alone would not take as it is: a line break, a
    character above U+007F, and the reserved key. *)
Definition awkward : dict value :=
  [("note", VStr two_lines); ("name", VStr e_acute); ("__meta__", VInt 1)].

(** A list where [SignatureIndex] expects text. *)
Definition list_index : dict value := new_metaData now (VList [VStr "user"]).

(** A payload with an entry named like a field of the metadata. *)
Definition stamped : dict value :=
  [("Timestamp", VStr "never"); ("user", VStr "alice")].

(** The body of an unsigned request. *)
Definition unsigned_body : value :=
  VDict (login ++ [("__meta__",
                    VDict (new_metaData now (VBool false)
                           ++ [("Signature", VNone)]))])%list.

(** The items of [body], and what [with_meta] makes of [reserved]. *)
Definition body_items : dict value :=
  Eval vm_compute in
    match with_meta login VNone now with
    | Ok d => d
    | Raise _ => []
    end.

Definition reserved_body : dict value :=
  Eval vm_compute in
    match with_meta reserved VNone now with
    | Ok d => d
    | Raise _ => []
    end.

(** The request of the scenario with the forged body in place of its own. *)
Definition forged_request : value :=
  Eval vm_compute in
    match request with
    | VDict ((_, RSAKey) :: _) =>
        VDict [("key", RSAKey); ("value", VStr forged_ciphertext)]
    | _ => VNone
    end.

Definition wrapped_hello : string :=
  Eval vm_compute in
    match RSAEncrypt pem "hello" [] with
    | Ok c => c
    | Raise _ => EmptyString
    end.

(** One pair, with the keys of its nested dictionary in two orders. *)
Definition nested : list (string * value) :=
  [("a", VDict [("x", VInt 1); ("y", VInt 2)])].
Definition nested' : list (string * value) :=
  [("a", VDict [("y", VInt 2); ("x", VInt 1)])].

(** The times of [now] and [later]. *)
Definition new_year : Time.struct_time :=
  {| Time.tm_year := 2019; Time.tm_mon := 1; Time.tm_mday := 1;
     Time.tm_hour := 0; Time.tm_min := 0; Time.tm_sec := 0 |}.
Definition a_second_later : Time.struct_time :=
  {| Time.tm_year := 2019; Time.tm_mon := 1; Time.tm_mday := 1;
     Time.tm_hour := 0; Time.tm_min := 0; Time.tm_sec := 1 |}.

End Scenario.

(* ================================================================= *)
(** * Facts about the Python fragment *)

(** ** The order on text *)

Section TextOrder.

Lemma leb_not_Gt (a b : string) :
  String.leb a b = true <-> String.compare a b <> Gt.
Proof.
  unfold String.leb. destruct (String.compare a b); split; congruence.
Qed.

Lemma ascii_compare_Lt (x y : ascii) :
  Ascii.compare x y = Lt <-> (code x < code y)%N.
Proof. unfold Ascii.compare, code. apply N.compare_lt_iff. Qed.

Lemma ascii_compare_Eq (x y : ascii) : Ascii.compare x y = Eq <-> x = y.
Proof.
  split.
  - apply Ascii.compare_eq_iff.
  - intros ->. apply N.compare_refl.
Qed.

Lemma compare_refl (a : string) : String.compare a a = Eq.
Proof.
  induction a as [|x a IH]; simpl; auto.
  rewrite (proj2 (ascii_compare_Eq x x) eq_refl). exact IH.
Qed.

Lemma compare_not_Gt_trans (a : string) :
  forall b c,
    String.compare a b <> Gt -> String.compare b c <> Gt ->
    String.compare a c <> Gt.
Proof.
  induction a as [|x a IH]; intros [|y b] [|z c]; simpl; try congruence.
  destruct (Ascii.compare x y) eqn:Exy; try congruence;
    destruct (Ascii.compare y z) eqn:Eyz; try congruence; intros Hab Hbc.
  - apply ascii_compare_Eq in Exy, Eyz. subst.
    rewrite (proj2 (ascii_compare_Eq z z) eq_refl). eauto.
  - apply ascii_compare_Eq in Exy. subst. rewrite Eyz. congruence.
  - apply ascii_compare_Eq in Eyz. subst. rewrite Exy. congruence.
  - assert (H : Ascii.compare x z = Lt).
    { apply ascii_compare_Lt.
      apply N.lt_trans with (code y); now apply ascii_compare_Lt. }
    rewrite H. congruence.
Qed.

Lemma leb_trans (a b c : string) :
  String.leb a b = true -> String.leb b c = true -> String.leb a c = true.
Proof. rewrite !leb_not_Gt. apply compare_not_Gt_trans. Qed.

Lemma leb_refl (a : string) : String.leb a a = true.
Proof. apply leb_not_Gt. rewrite compare_refl. congruence. Qed.

Lemma leb_false_flip (a b : string) :
  String.leb a b = false -> String.leb b a = true.
Proof.
  intros H. destruct (String.leb_total a b) as [E|E]; congruence.
Qed.

End TextOrder.

(** ** Dictionaries *)

Section DictFacts.

Context {V : Type}.
Implicit Types (d m : dict V) (k : string) (v : V).

Lemma dict_get_None k d : dict_get k d = None <-> ~ In k (keys d).
Proof.
  induction d as [|[k' v'] d IH]; simpl.
  - tauto.
  - destruct (String.eqb_spec k k') as [->|Hne].
    + split; [discriminate | intros H; exfalso; apply H; auto].
    + rewrite IH. split; intros H; [intros [E|E]; [congruence|tauto] | tauto].
Qed.

Lemma dict_get_In k v d : dict_get k d = Some v -> In (k, v) d.
Proof.
  induction d as [|[k' v'] d IH]; simpl; [discriminate|].
  destruct (String.eqb_spec k k') as [->|Hne]; intros H.
  - left. congruence.
  - right. auto.
Qed.

Lemma In_dict_get k v d : is_mapping d -> In (k, v) d -> dict_get k d = Some v.
Proof.
  unfold is_mapping. induction d as [|[k' v'] d IH]; simpl; [tauto|].
  intros Hnd [E|Hin]; inversion Hnd as [|? ? Hk Hd]; subst.
  - inversion E; subst. now rewrite String.eqb_refl.
  - destruct (String.eqb_spec k k') as [->|Hne]; auto.
    exfalso. apply Hk. change k' with (fst (k', v)). now apply in_map.
Qed.

Lemma dict_get_set k k' v d :
  dict_get k' (dict_set k v d) = if String.eqb k' k then Some v else dict_get k' d.
Proof.
  induction d as [|[k0 v0] d IH]; simpl.
  - reflexivity.
  - destruct (String.eqb_spec k k0) as [->|Hne]; simpl.
    + destruct (String.eqb_spec k' k0); reflexivity.
    + rewrite IH. destruct (String.eqb_spec k' k0) as [->|];
        destruct (String.eqb_spec k0 k); subst; congruence.
Qed.

Lemma keys_dict_set k v d :
  keys (dict_set k v d) = if dict_mem k d then keys d else (keys d ++ [k])%list.
Proof.
  unfold dict_mem. induction d as [|[k0 v0] d IH]; simpl.
  - reflexivity.
  - destruct (String.eqb_spec k k0) as [->|Hne]; simpl.
    + reflexivity.
    + rewrite IH. now destruct (dict_get k d).
Qed.

Lemma dict_set_fresh k v d :
  dict_get k d = None -> dict_set k v d = (d ++ [(k, v)])%list.
Proof.
  induction d as [|[k0 v0] d IH]; simpl; [reflexivity|].
  destruct (String.eqb_spec k k0); [discriminate|].
  intros H. now rewrite IH.
Qed.

Lemma is_mapping_set k v d : is_mapping d -> is_mapping (dict_set k v d).
Proof.
  unfold is_mapping. rewrite keys_dict_set. unfold dict_mem.
  destruct (dict_get k d) eqn:E; [tauto|].
  intros H. apply dict_get_None in E.
  apply NoDup_app; [assumption | repeat constructor; simpl; tauto |].
  intros x Hx [<-|[]]. contradiction.
Qed.

Lemma is_mapping_update d m : is_mapping d -> is_mapping (dict_update d m).
Proof.
  unfold dict_update. revert d.
  induction m as [|[k v] m IH]; simpl; intros d H; [assumption|].
  apply IH. now apply is_mapping_set.
Qed.

(** After [d.update(m)] a key reads as in [m] if [m] has it, as in [d]
    otherwise. *)
Lemma dict_get_update k d m :
  is_mapping m ->
  dict_get k (dict_update d m)
  = match dict_get k m with Some v => Some v | None => dict_get k d end.
Proof.
  unfold dict_update, is_mapping. revert d.
  induction m as [|[k0 v0] m IH]; simpl; intros d Hm; [reflexivity|].
  inversion Hm as [|? ? Hk Hnd]; subst. rewrite IH by assumption.
  destruct (String.eqb_spec k k0) as [->|Hne].
  - apply dict_get_None in Hk. rewrite Hk, dict_get_set.
    now rewrite String.eqb_refl.
  - rewrite dict_get_set. destruct (String.eqb_spec k k0); congruence.
Qed.

Lemma dict_pop_fresh k v d :
  dict_get k d = None -> dict_pop k (d ++ [(k, v)])%list = Some (v, d).
Proof.
  induction d as [|[k0 v0] d IH]; simpl.
  - now rewrite String.eqb_refl.
  - destruct (String.eqb_spec k k0); [discriminate|].
    intros H. now rewrite IH.
Qed.

Lemma dict_get_fresh k v d :
  dict_get k (d ++ [(k, v)])%list
  = match dict_get k d with Some w => Some w | None => Some v end.
Proof.
  induction d as [|[k0 v0] d IH]; simpl.
  - now rewrite String.eqb_refl.
  - destruct (String.eqb_spec k k0); auto.
Qed.

End DictFacts.

(** ** [sorted] *)

Section SortFacts.

Context {V : Type}.
Implicit Types (x y : string * V) (l : list (string * V)).

Lemma insert_item_perm x l : Permutation (insert_item x l) (x :: l).
Proof.
  induction l as [|y l IH]; simpl.
  - apply Permutation_refl.
  - destruct (String.leb (fst x) (fst y)).
    + apply Permutation_refl.
    + eapply Permutation_trans; [apply perm_skip, IH | apply perm_swap].
Qed.

Lemma sorted_items_perm l : Permutation (sorted_items l) l.
Proof.
  induction l as [|x l IH]; simpl.
  - constructor.
  - eapply Permutation_trans; [apply insert_item_perm | now apply perm_skip].
Qed.

Lemma insert_item_sorted x l :
  StronglySorted key_le l -> StronglySorted key_le (insert_item x l).
Proof.
  induction l as [|y l IH]; simpl; intros Hs.
  - repeat constructor.
  - inversion Hs as [|? ? Hl Hy]; subst.
    destruct (String.leb (fst x) (fst y)) eqn:E.
    + constructor; [assumption|]. constructor; [exact E|].
      eapply Forall_impl; [|exact Hy]. intros z Hz. unfold key_le in *.
      eapply leb_trans; eassumption.
    + constructor; [auto|].
      eapply Permutation_Forall;
        [apply Permutation_sym, insert_item_perm|].
      constructor; [|assumption]. now apply leb_false_flip.
Qed.

Lemma sorted_items_sorted l : StronglySorted key_le (sorted_items l).
Proof.
  induction l as [|x l IH]; simpl.
  - constructor.
  - now apply insert_item_sorted.
Qed.

Lemma is_mapping_perm l l' : Permutation l l' -> is_mapping l -> is_mapping l'.
Proof.
  unfold is_mapping, keys. intros Hp.
  apply Permutation_NoDup. now apply Permutation_map.
Qed.

Lemma is_mapping_sorted l : is_mapping l -> is_mapping (sorted_items l).
Proof. apply is_mapping_perm, Permutation_sym, sorted_items_perm. Qed.

(** With no key twice, the order is strict. *)
Lemma sorted_strict l :
  is_mapping l -> StronglySorted key_le l -> StronglySorted key_lt l.
Proof.
  unfold is_mapping.
  induction l as [|x l IH]; simpl; intros Hnd Hs; [constructor|].
  inversion Hnd as [|? ? Hx Hl]; inversion Hs as [|? ? Hsl Hall]; subst.
  constructor; [auto|].
  rewrite Forall_forall in *. intros y Hy. specialize (Hall y Hy).
  unfold key_le, key_lt in *. apply leb_not_Gt in Hall.
  destruct (String.compare (fst x) (fst y)) eqn:E; [|reflexivity|congruence].
  apply String.compare_eq_iff in E. exfalso. apply Hx. rewrite E.
  now apply in_map.
Qed.

(** Two sorted dictionaries with the same items are the same list. *)
Lemma sorted_unique l1 :
  forall l2,
    StronglySorted key_le l1 -> StronglySorted key_le l2 ->
    is_mapping l1 -> is_mapping l2 ->
    (forall x, In x l1 <-> In x l2) ->
    l1 = l2.
Proof.
  unfold is_mapping.
  induction l1 as [|a l1 IH]; intros [|b l2] Hs1 Hs2 Hn1 Hn2 Hin.
  - reflexivity.
  - exfalso. apply (proj2 (Hin b)). now left.
  - exfalso. apply (proj1 (Hin a)). now left.
  - inversion Hs1 as [|? ? Hs1' Ha]; inversion Hs2 as [|? ? Hs2' Hb]; subst.
    inversion Hn1 as [|? ? Hka Hn1']; inversion Hn2 as [|? ? Hkb Hn2']; subst.
    rewrite Forall_forall in Ha, Hb.
    assert (Hab : a = b).
    { destruct (proj1 (Hin a) (or_introl eq_refl)) as [E|Ha2]; [now symmetry|].
      destruct (proj2 (Hin b) (or_introl eq_refl)) as [E|Hb1]; [assumption|].
      exfalso. apply Hkb.
      assert (E : fst b = fst a).
      { apply String.leb_antisym; [apply Hb | apply Ha]; assumption. }
      rewrite E. now apply in_map. }
    subst b. f_equal. apply IH; try assumption.
    intros x. split; intros Hx.
    + destruct (proj1 (Hin x) (or_intror Hx)) as [E|H]; [|assumption].
      subst x. exfalso. apply Hka. now apply in_map.
    + destruct (proj2 (Hin x) (or_intror Hx)) as [E|H]; [|assumption].
      subst x. exfalso. apply Hkb. now apply in_map.
Qed.

(** [sorted] only sees which value each key has. *)
Lemma sorted_items_ext l l' :
  is_mapping l -> is_mapping l' ->
  (forall k, dict_get k l = dict_get k l') ->
  sorted_items l = sorted_items l'.
Proof.
  intros Hl Hl' Hget.
  apply sorted_unique; auto using sorted_items_sorted, is_mapping_sorted.
  intros [k v].
  assert (Hiff : forall m, is_mapping m ->
            (In (k, v) (sorted_items m) <-> dict_get k m = Some v)).
  { intros m Hm. split.
    - intros H. apply In_dict_get; [assumption|].
      eapply Permutation_in; [apply sorted_items_perm | exact H].
    - intros H. eapply Permutation_in;
        [apply Permutation_sym, sorted_items_perm | now apply dict_get_In]. }
  rewrite !Hiff by assumption. now rewrite Hget.
Qed.

End SortFacts.

(** ** What [json.dumps] writes *)

Section TextFacts.

Lemma all_chars_app p (a b : string) :
  all_chars p (a ++ b) = all_chars p a && all_chars p b.
Proof.
  induction a as [|c a IH]; simpl; [reflexivity|].
  now rewrite IH, andb_assoc.
Qed.

Lemma all_chars_impl (p q : ascii -> bool) s :
  (forall c, p c = true -> q c = true) ->
  all_chars p s = true -> all_chars q s = true.
Proof.
  intros Hpq. induction s as [|c s IH]; simpl; [reflexivity|].
  rewrite !andb_true_iff. intros [Hc Hs]. auto.
Qed.

Lemma all_chars_concat p sep (l : list string) :
  all_chars p sep = true -> Forall (fun s => all_chars p s = true) l ->
  all_chars p (String.concat sep l) = true.
Proof.
  intros Hsep. induction 1 as [|s l Hs Hl IH]; simpl; [reflexivity|].
  destruct l as [|t l]; [assumption|].
  rewrite !all_chars_app, Hs, Hsep. exact IH.
Qed.

Lemma escape_char_printable c : all_chars printable (Json.escape_char c) = true.
Proof.
  destruct c as [[] [] [] [] [] [] [] []]; reflexivity.
Qed.

Lemma escape_printable s : all_chars printable (Json.escape s) = true.
Proof.
  induction s as [|c s IH]; simpl; [reflexivity|].
  now rewrite all_chars_app, escape_char_printable.
Qed.

Lemma encode_basestring_printable s :
  all_chars printable (Json.encode_basestring_ascii s) = true.
Proof.
  unfold Json.encode_basestring_ascii. simpl.
  now rewrite all_chars_app, escape_printable.
Qed.

Lemma string_of_uint_printable d :
  all_chars printable (NilEmpty.string_of_uint d) = true.
Proof. induction d; simpl; auto. Qed.

Lemma repr_int_printable n : all_chars printable (Json.repr_int n) = true.
Proof.
  unfold Json.repr_int, NilZero.string_of_int, NilZero.string_of_uint.
  destruct (Z.to_int n) as [d|d]; destruct d; simpl;
    auto using string_of_uint_printable.
Qed.

(** With [ensure_ascii], [json.dumps] writes printable ASCII only. *)
Lemma dumps_printable sort_keys item_sep key_sep v :
  all_chars printable item_sep = true -> all_chars printable key_sep = true ->
  all_chars printable (Json.dumps sort_keys item_sep key_sep v) = true.
Proof.
  intros Hi Hk. induction v as [|[]|n|s|l IH|d IH] using value_nested_ind;
    try reflexivity.
  - apply repr_int_printable.
  - apply encode_basestring_printable.
  - simpl. rewrite all_chars_app, andb_true_r.
    apply all_chars_concat; [assumption|].
    rewrite Forall_map. exact IH.
  - simpl. rewrite all_chars_app, andb_true_r.
    apply all_chars_concat; [assumption|].
    rewrite Forall_map.
    assert (H : Forall (fun kt : string * string =>
                          all_chars printable (snd kt) = true)
                  (map (fun kv => (fst kv, Json.dumps sort_keys item_sep key_sep (snd kv))) d)).
    { rewrite Forall_map. exact IH. }
    assert (H' : forall items : list (string * string),
               Forall (fun kt => all_chars printable (snd kt) = true) items ->
               Forall (fun kt => all_chars printable
                           (Json.encode_basestring_ascii (fst kt) ++ key_sep ++ snd kt) = true)
                      items).
    { intros items. apply Forall_impl. intros kt Hkt.
      now rewrite !all_chars_app, encode_basestring_printable, Hk, Hkt. }
    apply H'. destruct sort_keys; [|exact H].
    eapply Permutation_Forall; [apply Permutation_sym, sorted_items_perm | exact H].
Qed.

Lemma dumps_nonempty sort_keys item_sep key_sep v :
  Json.dumps sort_keys item_sep key_sep v <> EmptyString.
Proof.
  destruct v as [|[]|n|s|l|d]; try discriminate.
  unfold Json.dumps, Json.repr_int, NilZero.string_of_int, NilZero.string_of_uint.
  destruct (Z.to_int n) as [u|u]; [|discriminate].
  destruct u; discriminate.
Qed.

End TextFacts.

(* ================================================================= *)
(** * The percent encoding of the signing string *)

Section PercentEncoding.

Context {lib : Library}.

Lemma append_assoc (a b c : string) : (a ++ b) ++ c = a ++ (b ++ c).
Proof. induction a as [|x a IH]; simpl; [reflexivity | now rewrite IH]. Qed.

Lemma append_nil_r (a : string) : a ++ "" = a.
Proof. induction a as [|x a IH]; simpl; [reflexivity | now rewrite IH]. Qed.

Lemma str_encode_ascii s :
  all_chars is_ascii s = true ->
  str_encode s = map byte_of_ascii (list_ascii_of_string s).
Proof.
  unfold str_encode. induction s as [|c s IH]; simpl; [reflexivity|].
  rewrite andb_true_iff. intros [Hc Hs]. rewrite IH by assumption.
  unfold utf8_char. unfold is_ascii in Hc. now rewrite Hc.
Qed.

Lemma printable_is_ascii s :
  all_chars printable s = true ->
  all_chars is_ascii s = true.
Proof.
  apply all_chars_impl. intros c. unfold printable, is_ascii.
  rewrite andb_true_iff, !N.leb_le, N.ltb_lt. lia.
Qed.

(** [quote] goes through its output once more for each [replace]; an escape
    always starts at a [%] that [quote] wrote, so each [replace] can be
    followed byte by byte. *)
Lemma replace_plus_step tilde b r :
  replace_from 0 "+" "%20" (Url.quote_byte tilde b ++ r)
  = Url.quote_byte tilde b ++ replace_from 0 "+" "%20" r.
Proof. destruct tilde, b; reflexivity. Qed.

Lemma replace_star_step tilde b r :
  replace_from 0 "*" "%2A" (Url.quote_byte tilde b ++ r)
  = Url.quote_byte tilde b ++ replace_from 0 "*" "%2A" r.
Proof. destruct tilde, b; reflexivity. Qed.

Lemma replace_tilde_step tilde b r :
  replace_from 0 "%7E" "~" (Url.quote_byte tilde b ++ r)
  = Url.quote_byte true b ++ replace_from 0 "%7E" "~" r.
Proof. destruct tilde, b; reflexivity. Qed.

Lemma replace_plus_quote tilde bs :
  replace "+" "%20" (Url.quote tilde bs) = Url.quote tilde bs.
Proof.
  unfold replace. induction bs as [|b bs IH]; simpl; [reflexivity|].
  now rewrite replace_plus_step, IH.
Qed.

Lemma replace_star_quote tilde bs :
  replace "*" "%2A" (Url.quote tilde bs) = Url.quote tilde bs.
Proof.
  unfold replace. induction bs as [|b bs IH]; simpl; [reflexivity|].
  now rewrite replace_star_step, IH.
Qed.

Lemma replace_tilde_quote tilde bs :
  replace "%7E" "~" (Url.quote tilde bs) = Url.quote true bs.
Proof.
  unfold replace. induction bs as [|b bs IH]; simpl; [reflexivity|].
  now rewrite replace_tilde_step, IH.
Qed.

Lemma quote_chars (cs : list ascii) :
  Url.quote true (map byte_of_ascii cs)
  = percent_encode (string_of_list_ascii cs).
Proof.
  induction cs as [|c cs IH]; simpl; [reflexivity|].
  rewrite IH. unfold Url.quote_byte, percent_char.
  now rewrite ascii_of_byte_of_ascii.
Qed.

(** [_percent_encode] on text that is already ASCII. *)
Lemma percent_encode_text v :
  _percent_encode v = percent_encode (Json.dumps_sorted v).
Proof.
  unfold _percent_encode.
  rewrite replace_plus_quote, replace_star_quote, replace_tilde_quote.
  rewrite str_encode_ascii.
  - now rewrite quote_chars, string_of_list_ascii_of_string.
  - apply printable_is_ascii. now apply dumps_printable.
Qed.

Lemma fold_left_append (f : string * value -> string) l acc :
  fold_left (fun a kv => a ++ f kv) l acc = acc ++ flatten (map f l).
Proof.
  revert acc. induction l as [|x l IH]; intros acc; simpl.
  - now rewrite append_nil_r.
  - now rewrite IH, append_assoc.
Qed.

Lemma canonicalize_fields items : canonicalize items = flatten (map field items).
Proof. exact (fold_left_append field items EmptyString). Qed.

(** C3, as the code has it.  Every key and every value of the signing string
    is written as JSON with sorted keys and then percent-encoded character by
    character: letters, digits, ['-'], ['_'], ['.'] and ['~'] are kept, every
    other character becomes [%XX], so ['*'] becomes [%2A], a space [%20] and
    ['+'] becomes [%2B]; this holds for either [urllib].  The key goes through
    the same function as the value. *)
Theorem percent_encode_scheme :
  (forall v, _percent_encode v = percent_encode (Json.dumps_sorted v))
  /\ percent_char "*" = "%2A"
  /\ percent_char "~" = "~"
  /\ percent_char " " = "%20"
  /\ percent_char "+" = "%2B"
  /\ (forall items,
        canonicalize items
        = flatten
            (map (fun kv =>
                    percent_encode (Json.dumps_sorted (VStr (fst kv))) ++ "="
                    ++ percent_encode (Json.dumps_sorted (snd kv)) ++ "&")
                 items)).
Proof.
  split; [exact percent_encode_text|].
  do 4 (split; [reflexivity|]).
  intros items. rewrite canonicalize_fields. f_equal.
  apply map_ext. intros kv. unfold field. now rewrite !percent_encode_text.
Qed.

End PercentEncoding.

(* ================================================================= *)
(** * [AESEncrypt] and [AESDecrypt] *)

Section AES.

Context {lib : Library}.

Lemma illegal_char_below_32 c : illegal_char c = (code c <? 32)%N.
Proof. destruct c as [[] [] [] [] [] [] [] []]; reflexivity. Qed.

Lemma strip_illegal_filter text : strip_illegal text = without_controls text.
Proof.
  unfold without_controls. induction text as [|c s IH]; simpl; [reflexivity|].
  rewrite illegal_char_below_32, N.leb_antisym.
  destruct (code c <? 32)%N; simpl; now rewrite IH.
Qed.

Lemma aes_arguments_ok_text key text :
  aes_arguments_ok key text = true ->
  exists k t, key = VStr k /\ text = VStr t
              /\ positive_multiple_of_16 (String.length k) /\ t <> EmptyString.
Proof.
  unfold aes_arguments_ok. rewrite !andb_true_iff.
  intros [[[[Hk _] Hlen] Ht] Htext].
  destruct key as [| | |k| |]; try discriminate.
  destruct text as [| | |t| |]; try discriminate.
  exists k, t. repeat split.
  - simpl in Hk. destruct k; [discriminate | simpl; lia].
  - now apply Nat.eqb_eq.
  - simpl in Ht. intros ->. discriminate.
Qed.

(** C7.  A key whose length is not a positive multiple of 16, a key that is
    not text, or a plaintext or ciphertext that is not text: [AESEncrypt] and
    [AESDecrypt] both raise [AESError], whatever the library is, so no cipher
    is run. *)
Theorem AES_rejects_bad_arguments (key text : value) :
  (forall k, key = VStr k -> ~ positive_multiple_of_16 (String.length k))
  \/ is_text text = false ->
  AESEncrypt key text = Raise AESError /\ AESDecrypt key text = Raise AESError.
Proof.
  intros Hbad.
  assert (Hguard : aes_arguments_ok key text = false).
  { destruct (aes_arguments_ok key text) eqn:E; [|reflexivity].
    apply aes_arguments_ok_text in E.
    destruct E as (k & t & -> & -> & Hk & _).
    destruct Hbad as [Hkey|Htext]; [|discriminate].
    exfalso. exact (Hkey k eq_refl Hk). }
  unfold AESEncrypt, AESDecrypt. now rewrite Hguard.
Qed.

(** C6.  Arguments that pass the test and a ciphertext that the libraries take
    (base64 decodes it, the cipher decrypts it to [msg]): when [msg] is not
    text, [AESDecrypt] returns [False] and raises nothing; when it is, the
    text comes back without its characters below U+0020. *)
Theorem AESDecrypt_not_text (k c : string) (raw msg : list byte) :
  aes_arguments_ok (VStr k) (VStr c) = true ->
  b64decode (c ++ repeat_char "=" (String.length c mod 4)) = Ok raw ->
  aes_cbc_decrypt (str_encode k) (firstn block_size (str_encode k)) raw = Ok msg ->
  (bytes_decode msg = None ->
   AESDecrypt (VStr k) (VStr c) = Ok (VBool false)
   /\ truthy (VBool false) = false)
  /\ (forall text, bytes_decode msg = Some text ->
      AESDecrypt (VStr k) (VStr c) = Ok (VStr (without_controls text))).
Proof.
  intros Hok Hb64 Haes. unfold AESDecrypt. rewrite Hok, Hb64. cbn [bind].
  rewrite Haes. cbn [bind]. split.
  - intros ->. split; reflexivity.
  - intros text ->. now rewrite strip_illegal_filter.
Qed.

End AES.

(** ** What [AESEncrypt] wrote, [AESDecrypt] reads *)

Section AESRoundTrip.

Context {lib : Library} {laws : Lawful lib}.

Lemma length_app (a b : string) :
  String.length (a ++ b) = String.length a + String.length b.
Proof. induction a as [|c a IH]; simpl; [reflexivity | now rewrite IH]. Qed.

Lemma length_repeat_char c n : String.length (repeat_char c n) = n.
Proof. induction n as [|n IH]; simpl; [reflexivity | now rewrite IH]. Qed.

Lemma all_chars_repeat p c n : p c = true -> all_chars p (repeat_char c n) = true.
Proof. intros H. induction n as [|n IH]; simpl; [reflexivity | now rewrite H]. Qed.

Lemma pad_count (n : nat) : 1 <= 16 - n mod 16 <= 16.
Proof. pose proof (Nat.mod_upper_bound n 16). lia. Qed.

Lemma padding_length s : String.length (PADDING s) mod 16 = 0.
Proof.
  unfold PADDING, block_size. rewrite length_app, length_repeat_char.
  set (n := String.length s).
  pose proof (Nat.mod_upper_bound n 16 ltac:(lia)) as Hlt.
  rewrite (Nat.div_mod_eq n 16) at 1.
  replace (16 * (n / 16) + n mod 16 + (16 - n mod 16)) with ((n / 16 + 1) * 16)
    by lia.
  apply Nat.Div0.mod_mul.
Qed.

Lemma pad_char_illegal n : 1 <= n <= 16 -> illegal_char (ascii_of_nat n) = true.
Proof.
  intros H.
  assert (E : forallb (fun i => illegal_char (ascii_of_nat i)) (seq 1 16) = true)
    by reflexivity.
  rewrite forallb_forall in E. apply E, in_seq. lia.
Qed.

Lemma pad_char_ascii n : 1 <= n <= 16 -> is_ascii (ascii_of_nat n) = true.
Proof.
  intros H.
  assert (E : forallb (fun i => is_ascii (ascii_of_nat i)) (seq 1 16) = true)
    by reflexivity.
  rewrite forallb_forall in E. apply E, in_seq. lia.
Qed.

Lemma strip_illegal_app a b :
  strip_illegal (a ++ b) = strip_illegal a ++ strip_illegal b.
Proof.
  induction a as [|c a IH]; simpl; [reflexivity|].
  destruct (illegal_char c); simpl; now rewrite IH.
Qed.

Lemma strip_illegal_printable t :
  all_chars printable t = true -> strip_illegal t = t.
Proof.
  induction t as [|c t IH]; simpl; [reflexivity|].
  rewrite andb_true_iff. intros [Hc Ht]. rewrite IH by assumption.
  rewrite illegal_char_below_32. unfold printable in Hc.
  apply andb_true_iff in Hc. destruct Hc as [Hc _]. apply N.leb_le in Hc.
  destruct (N.ltb_spec (code c) 32); [lia | reflexivity].
Qed.

Lemma strip_illegal_repeat c n :
  illegal_char c = true -> strip_illegal (repeat_char c n) = EmptyString.
Proof. intros H. induction n as [|n IH]; simpl; [reflexivity | now rewrite H]. Qed.

(** The padding is made of the characters the pattern of [AESDecrypt] removes,
    and JSON text has none of them. *)
Lemma strip_padding t : all_chars printable t = true -> strip_illegal (PADDING t) = t.
Proof.
  intros Ht. unfold PADDING, block_size.
  rewrite strip_illegal_app, strip_illegal_printable by assumption.
  rewrite strip_illegal_repeat; [apply append_nil_r|].
  apply pad_char_illegal, pad_count.
Qed.

Lemma str_encode_length s :
  all_chars is_ascii s = true ->
  List.length (str_encode s) = String.length s.
Proof.
  intros H. rewrite str_encode_ascii by assumption. rewrite length_map.
  clear H. induction s as [|c s IH]; simpl; [reflexivity | now rewrite IH].
Qed.

Lemma padding_ascii t :
  all_chars printable t = true ->
  all_chars is_ascii (PADDING t) = true.
Proof.
  intros Ht. unfold PADDING, block_size. rewrite all_chars_app.
  rewrite (printable_is_ascii _ Ht). simpl.
  apply all_chars_repeat, pad_char_ascii, pad_count.
Qed.

(** A key of 16 or 32 ASCII characters and a non-empty printable text:
    [AESEncrypt] returns a ciphertext and [AESDecrypt] turns it back into the
    text. *)
Lemma AES_round_trip (k t : string) :
  all_chars is_ascii k = true ->
  String.length k = 16 \/ String.length k = 32 ->
  t <> EmptyString ->
  all_chars printable t = true ->
  exists c, AESEncrypt (VStr k) (VStr t) = Ok c
            /\ AESDecrypt (VStr k) (VStr c) = Ok (VStr t).
Proof.
  intros Hk Hlen Ht Hp.
  assert (Hkb : List.length (str_encode k) = String.length k)
    by now apply str_encode_length.
  assert (Hknz : String.eqb k "" = false).
  { apply String.eqb_neq. intros ->. simpl in Hlen. lia. }
  assert (Hmod : Nat.eqb (String.length k mod 16) 0 = true).
  { destruct Hlen as [->| ->]; reflexivity. }
  assert (Htnz : String.eqb t "" = false) by now apply String.eqb_neq.
  set (key := str_encode k) in *.
  set (data := str_encode (PADDING t)).
  assert (Hdata : List.length data = String.length (PADDING t)).
  { apply str_encode_length. now apply padding_ascii. }
  destruct (aes_law key (firstn block_size key) data) as (c & Henc & Hclen & Hdec).
  { lia. }
  { rewrite length_firstn. unfold block_size. lia. }
  { rewrite Hdata. apply padding_length. }
  destruct (base64_law c) as (s & Hs & Hslen & Hback).
  assert (Hcpos : 16 <= List.length c).
  { rewrite Hclen, Hdata. unfold PADDING, block_size.
    rewrite length_app, length_repeat_char.
    pose proof (pad_count (String.length t)).
    pose proof (Nat.Div0.mod_le (String.length t) 16). lia. }
  assert (Hsnz : String.eqb s "" = false).
  { apply String.eqb_neq. intros ->. cbn [String.length] in Hslen.
    assert (1 <= (List.length c + 2) / 3).
    { apply Nat.div_le_lower_bound; lia. }
    lia. }
  assert (Hs4 : String.length s mod 4 = 0).
  { rewrite Hslen, Nat.mul_comm. apply Nat.Div0.mod_mul. }
  exists s. split.
  - unfold AESEncrypt, aes_arguments_ok. simpl truthy. simpl is_text.
    rewrite Hknz, Htnz, Hmod. cbn [negb andb].
    fold key. fold data. rewrite Henc. cbn [bind].
    unfold decode_utf8. now rewrite Hs.
  - unfold AESDecrypt, aes_arguments_ok. simpl truthy. simpl is_text.
    rewrite Hknz, Hsnz, Hmod. cbn [negb andb].
    rewrite Hs4. simpl repeat_char. rewrite append_nil_r, Hback. cbn [bind].
    fold key. rewrite Hdec. cbn [bind].
    unfold data. rewrite utf8_law. now rewrite strip_padding.
Qed.

End AESRoundTrip.

(* ================================================================= *)
(** * The signer *)

Section Signer.

Context {lib : Library}.

Lemma In_keys_get {V : Type} k (d : dict V) :
  In k (keys d) <-> exists v, dict_get k d = Some v.
Proof.
  destruct (dict_get k d) eqn:E.
  - split; [eauto|]. intros _. apply dict_get_In in E.
    change k with (fst (k, v)). now apply in_map.
  - apply dict_get_None in E. split; [tauto|]. intros [v Hv]. discriminate.
Qed.

Lemma keys_update {V : Type} k (d m : dict V) :
  In k (keys (dict_update d m)) <-> In k (keys d) \/ In k (keys m).
Proof.
  unfold dict_update. revert d.
  induction m as [|[k0 v0] m IH]; simpl; intros d; [tauto|].
  rewrite IH, !In_keys_get. setoid_rewrite dict_get_set.
  destruct (String.eqb_spec k k0) as [->|Hne].
  - split; [auto|]. intros _. left. eauto.
  - split; intros [H|H]; auto. destruct H as [H|H]; [congruence | auto].
Qed.

Lemma dict_get_update_None {V : Type} k (d m : dict V) :
  dict_get k m = None -> dict_get k (dict_update d m) = dict_get k d.
Proof.
  unfold dict_update. revert d.
  induction m as [|[k0 v0] m IH]; simpl; intros d; [reflexivity|].
  destruct (String.eqb_spec k k0) as [->|Hne]; [discriminate|].
  intros H. rewrite IH by assumption. rewrite dict_get_set.
  destruct (String.eqb_spec k k0); congruence.
Qed.

(** [select_keys] succeeds when every listed key is in the payload; it then
    holds the listed keys on top of [data], with the payload's values. *)
Lemma select_keys_ok ks :
  forall (P data : dict value),
    (forall k, In k ks -> In k (keys P)) ->
    exists sel,
      select_keys ks P data = Ok sel
      /\ (is_mapping data -> is_mapping sel)
      /\ (forall k, dict_get k sel
                    = if in_dec string_dec k ks then dict_get k P
                      else dict_get k data).
Proof.
  induction ks as [|k0 ks IH]; intros P data Hin; simpl.
  - exists data. auto.
  - destruct (proj1 (In_keys_get k0 P) (Hin k0 (or_introl eq_refl))) as [v Hv].
    rewrite Hv.
    destruct (IH P (dict_set k0 v data)) as (sel & Hsel & Hmap & Hget).
    { intros k Hk. apply Hin. now right. }
    exists sel. split; [assumption|]. split.
    + intros Hd. apply Hmap. now apply is_mapping_set.
    + intros k. rewrite Hget.
      destruct (in_dec string_dec k ks) as [Hk|Hk];
        destruct (string_dec k0 k) as [->|Hne]; try reflexivity.
      * rewrite dict_get_set, String.eqb_refl. now symmetry.
      * rewrite dict_get_set. destruct (String.eqb_spec k k0); congruence.
Qed.

(** [select_keys] reads the payload at the listed keys only. *)
Lemma select_keys_ext ks :
  forall (P P' data : dict value),
    (forall k, In k ks -> dict_get k P = dict_get k P') ->
    select_keys ks P data = select_keys ks P' data.
Proof.
  induction ks as [|k0 ks IH]; intros P P' data H; simpl; [reflexivity|].
  rewrite <- (H k0 (or_introl eq_refl)).
  destruct (dict_get k0 P); [|reflexivity].
  apply IH. intros k Hk. apply H. now right.
Qed.

Lemma select_keys_missing ks :
  forall (P data : dict value) k,
    In k ks -> dict_get k P = None -> select_keys ks P data = Raise KeyError.
Proof.
  induction ks as [|k0 ks IH]; intros P data k Hin Hk; simpl.
  - destruct Hin.
  - destruct Hin as [->|Hin].
    + now rewrite Hk.
    + destruct (dict_get k0 P); [eauto | reflexivity].
Qed.

Lemma select_keys_mapping ks :
  forall (P data sel : dict value),
    select_keys ks P data = Ok sel -> is_mapping data -> is_mapping sel.
Proof.
  induction ks as [|k0 ks IH]; intros P data sel; simpl.
  - intros H. inversion H. auto.
  - destruct (dict_get k0 P) as [v|]; [|discriminate].
    intros H Hd. apply (IH _ _ _ H). now apply is_mapping_set.
Qed.

Lemma sign_unfold (P M : dict value) :
  sign (VDict P) (VDict M)
  = match sign_data P M with
    | Ok None => Ok VNone
    | Ok (Some data) => Ok (VStr (md5 (Text (canonicalize (sorted_items data)))))
    | Raise e => Raise e
    end.
Proof. unfold sign. destruct (sign_data P M) as [[data|]|e]; reflexivity. Qed.

(** The result of [sign] is [None] or text, so [==] against it is equality. *)
Lemma sign_result (P M x : value) :
  sign P M = Ok x -> x = VNone \/ exists s, x = VStr s.
Proof.
  destruct P as [| | | | |P]; try discriminate.
  destruct M as [| | | | |M]; try discriminate.
  rewrite sign_unfold. destruct (sign_data P M) as [[data|]|e];
    intros H; inversion H; eauto.
Qed.

Lemma py_eq_None x : py_eq x VNone = true <-> x = VNone.
Proof. destruct x; simpl; split; congruence. Qed.

Lemma py_eq_text x s : py_eq x (VStr s) = true <-> x = VStr s.
Proof.
  destruct x; simpl; split; try congruence.
  - intros H. apply String.eqb_eq in H. congruence.
  - intros H. inversion H. apply String.eqb_refl.
Qed.

(** Which branch of [sign_data] runs. *)
Lemma sign_data_branches (P M : dict value) :
  sign_data P M
  = match signature_index M with
    | VBool false => Ok None
    | VStr s =>
        if String.eqb s "" then Ok (Some (dict_update P M))
        else data <- select_keys (conversionComma (VStr s)) P [] ;;
             Ok (Some (dict_update data M))
    | _ => Ok (Some (dict_update P M))
    end.
Proof.
  unfold sign_data. destruct (signature_index M) as [|[]|n|s|l|d]; simpl;
    try reflexivity.
  - now rewrite andb_false_r.
  - destruct (String.eqb s ""); reflexivity.
  - now rewrite andb_false_r.
  - now rewrite andb_false_r.
Qed.

End Signer.

Section SignerTheorems.

Context {lib : Library}.

(** What [sorted(data.items())] holds once [meta] is merged into [data]. *)
Lemma signed_items (data M : dict value) :
  is_mapping data -> is_mapping M ->
  StronglySorted key_lt (sorted_items (dict_update data M))
  /\ (forall k v,
        In (k, v) (sorted_items (dict_update data M)) <->
        dict_get k M = Some v \/ (dict_get k M = None /\ dict_get k data = Some v)).
Proof.
  intros Hd HM.
  assert (Hm : is_mapping (dict_update data M)) by now apply is_mapping_update.
  split.
  - apply sorted_strict; [now apply is_mapping_sorted | apply sorted_items_sorted].
  - intros k v.
    assert (Hiff : In (k, v) (sorted_items (dict_update data M))
                   <-> dict_get k (dict_update data M) = Some v).
    { split; intros H.
      - apply In_dict_get; [assumption|].
        eapply Permutation_in; [apply sorted_items_perm | exact H].
      - eapply Permutation_in;
          [apply Permutation_sym, sorted_items_perm | now apply dict_get_In]. }
    rewrite Hiff, dict_get_update by assumption.
    destruct (dict_get k M) as [w|]; split.
    + auto.
    + intros [H|[H _]]; [assumption | discriminate].
    + auto.
    + intros [H|[_ H]]; [discriminate | assumption].
Qed.

(** C2.  When signing is not skipped and the listed keys are in the payload,
    [sign] returns the digest of one [key=value&] field per pair, where the
    pairs are those of the metadata and, for the keys the metadata does not
    have, those of the selected payload keys, in strictly increasing order of
    their keys. *)
Theorem sign_is_digest_of_canonical_string (P M : dict value) :
  is_mapping P -> is_mapping M ->
  signature_index M <> VBool false ->
  (forall k, In k (selection P M) -> In k (keys P)) ->
  exists items,
    sign (VDict P) (VDict M) = Ok (VStr (md5 (Text (flatten (map field items)))))
    /\ StronglySorted key_lt items
    /\ (forall k v,
          In (k, v) items <->
          dict_get k M = Some v
          \/ (dict_get k M = None /\ In k (selection P M) /\ dict_get k P = Some v)).
Proof.
  intros HP HM Hskip Hsel.
  assert (Hwhole : selection P M = keys P ->
            sign_data P M = Ok (Some (dict_update P M)) ->
            exists items,
              sign (VDict P) (VDict M)
              = Ok (VStr (md5 (Text (flatten (map field items)))))
              /\ StronglySorted key_lt items
              /\ (forall k v,
                    In (k, v) items <->
                    dict_get k M = Some v
                    \/ (dict_get k M = None /\ In k (selection P M)
                        /\ dict_get k P = Some v))).
  { intros Esel Edata. exists (sorted_items (dict_update P M)).
    rewrite sign_unfold, Edata, canonicalize_fields.
    destruct (signed_items P M HP HM) as [Hs Hin].
    split; [reflexivity|]. split; [assumption|].
    intros k v. rewrite Hin, Esel. split; intros [H|H]; auto.
    - destruct H as [H1 H2]. right. repeat split; auto.
      apply In_keys_get. eauto.
    - right. tauto. }
  pose proof (sign_data_branches P M) as Hb.
  unfold selection in *.
  destruct (signature_index M) as [|[]|n|s|l|d] eqn:Esi; auto; try congruence.
  destruct (String.eqb s "") eqn:Es; auto.
  destruct (select_keys_ok (conversionComma (VStr s)) P [] Hsel)
    as (sel & Hok & Hmap & Hget).
  rewrite Hok in Hb. cbn [bind] in Hb.
  exists (sorted_items (dict_update sel M)).
  rewrite sign_unfold, Hb, canonicalize_fields.
  assert (Hselmap : is_mapping sel) by (apply Hmap; constructor).
  destruct (signed_items sel M Hselmap HM) as [Hs Hin].
  split; [reflexivity|]. split; [assumption|].
  intros k v. rewrite Hin, Hget.
  destruct (in_dec string_dec k (conversionComma (VStr s))) as [Hk|Hk]; simpl.
  - tauto.
  - split; intros [H|H]; auto.
    + destruct H as [_ H]. discriminate.
    + tauto.
Qed.

Lemma same_items_update (d d' m m' : dict value) :
  is_mapping m -> is_mapping m' ->
  same_items d d' -> same_items m m' ->
  same_items (dict_update d m) (dict_update d' m').
Proof.
  intros Hm Hm' Hd Hmm k. rewrite !dict_get_update by assumption.
  now rewrite Hd, Hmm.
Qed.

(** C8.  [sign] sees which value each key has and nothing else: two payloads
    with the same items, and two metadata dictionaries with the same items,
    in whatever order they were built, get the same signature (or the same
    exception). *)
Theorem sign_ignores_order (P P' M M' : dict value) :
  is_mapping P -> is_mapping P' -> is_mapping M -> is_mapping M' ->
  same_items P P' -> same_items M M' ->
  sign (VDict P) (VDict M) = sign (VDict P') (VDict M').
Proof.
  intros HP HP' HM HM' HPP HMM.
  assert (Hsorted : forall d d', is_mapping d -> is_mapping d' -> same_items d d' ->
            sorted_items (dict_update d M) = sorted_items (dict_update d' M')).
  { intros d d' Hd Hd' Hdd. apply sorted_items_ext.
    - now apply is_mapping_update.
    - now apply is_mapping_update.
    - now apply same_items_update. }
  rewrite !sign_unfold, !sign_data_branches.
  assert (Esi : signature_index M' = signature_index M).
  { unfold signature_index. now rewrite (HMM "SignatureIndex"). }
  rewrite Esi.
  destruct (signature_index M) as [|[]|n|s|l|d]; try reflexivity;
    try (now rewrite (Hsorted P P')).
  destruct (String.eqb s ""); [now rewrite (Hsorted P P')|].
  rewrite (select_keys_ext _ P' P []) by (intros k _; symmetry; apply HPP).
  destruct (select_keys (conversionComma (VStr s)) P []) as [sel|e] eqn:Esel;
    [|reflexivity].
  cbn [bind].
  assert (Hsel : is_mapping sel).
  { apply (select_keys_mapping _ _ _ _ Esel). constructor. }
  rewrite (Hsorted sel sel); auto. intros k. reflexivity.
Qed.

End SignerTheorems.

(* ================================================================= *)
(** * Verification of a received envelope *)

Section Verification.

Context {lib : Library}.

Lemma clientDecrypt_verify self env body :
  client_opens self env body -> clientDecrypt self env = verify body.
Proof.
  intros (d & ct & plain & -> & Hd & Hdec & Hload).
  unfold clientDecrypt. rewrite Hd, Hdec. cbn [bind]. now rewrite Hload.
Qed.

Lemma serverDecrypt_verify self env body :
  server_opens self env body -> fst (serverDecrypt self env) = verify body.
Proof.
  intros (d & rk & ct & k & plain & -> & Hk & Hv & Hrsa & Hdec & Hload).
  unfold serverDecrypt. rewrite Hk, Hv, Hrsa. cbn [fst server_AESKey].
  rewrite Hdec. cbn [bind]. now rewrite Hload.
Qed.

Lemma verify_outcome body Signature payload metaData SignData :
  carries body Signature payload metaData ->
  sign payload metaData = Ok SignData ->
  verify body = if py_eq Signature SignData then Ok payload else Raise SignError.
Proof.
  intros (meta & Hm & Hs) Hsign. unfold verify.
  rewrite Hm. cbn [bind]. rewrite Hs. cbn [bind]. now rewrite Hsign.
Qed.

Lemma py_eq_sign payload metaData SignData Signature :
  sign payload metaData = Ok SignData ->
  py_eq Signature SignData = true <-> Signature = SignData.
Proof.
  intros H. destruct (sign_result _ _ _ H) as [->|[s ->]].
  - apply py_eq_None.
  - apply py_eq_text.
Qed.

Lemma verify_SignError body Signature payload metaData SignData :
  carries body Signature payload metaData ->
  sign payload metaData = Ok SignData ->
  (verify body = Raise SignError <-> Signature <> SignData)
  /\ (verify body = Ok payload <-> Signature = SignData).
Proof.
  intros Hc Hsign. rewrite (verify_outcome _ _ _ _ _ Hc Hsign).
  pose proof (py_eq_sign _ _ _ Signature Hsign) as Heq.
  destruct (py_eq Signature SignData).
  - assert (E : Signature = SignData) by now apply Heq.
    split; split; intros H; congruence.
  - assert (E : Signature <> SignData).
    { intros E. apply Heq in E. discriminate. }
    split; split; intros H; congruence.
Qed.

(** C5.  An envelope that decrypts and parses to a body carrying [Signature],
    where signing the remaining payload and metadata gives [SignData]: the
    client and the server raise [SignError] exactly when [Signature] differs
    from [SignData], and return the payload exactly when they are equal.  So
    when an envelope is accepted, the one that differs from it in the
    transmitted signature only is refused with [SignError]. *)
Theorem SignError_exactly_on_mismatch
  (body Signature payload metaData SignData : value) :
  carries body Signature payload metaData ->
  sign payload metaData = Ok SignData ->
  (forall self env,
      client_opens self env body ->
      (clientDecrypt self env = Raise SignError <-> Signature <> SignData)
      /\ (clientDecrypt self env = Ok payload <-> Signature = SignData))
  /\ (forall self env,
        server_opens self env body ->
        (fst (serverDecrypt self env) = Raise SignError <-> Signature <> SignData)
        /\ (fst (serverDecrypt self env) = Ok payload <-> Signature = SignData))
  /\ (forall body' Signature',
        carries body' Signature' payload metaData ->
        Signature = SignData -> Signature' <> Signature ->
        (forall self env, client_opens self env body' ->
                          clientDecrypt self env = Raise SignError)
        /\ (forall self env, server_opens self env body' ->
                             fst (serverDecrypt self env) = Raise SignError)).
Proof.
  intros Hc Hsign. split; [|split].
  - intros self env Ho. rewrite (clientDecrypt_verify _ _ _ Ho).
    exact (verify_SignError _ _ _ _ _ Hc Hsign).
  - intros self env Ho. rewrite (serverDecrypt_verify _ _ _ Ho).
    exact (verify_SignError _ _ _ _ _ Hc Hsign).
  - intros body' Signature' Hc' Hacc Hne.
    assert (Hv : verify body' = Raise SignError).
    { apply (verify_SignError _ _ _ _ _ Hc' Hsign). congruence. }
    split; intros self env Ho.
    + now rewrite (clientDecrypt_verify _ _ _ Ho).
    + now rewrite (serverDecrypt_verify _ _ _ Ho).
Qed.

End Verification.

(* ================================================================= *)
(** * The key slot of the server, and empty payloads *)

Section ServerState.

Context {lib : Library}.

Lemma serverDecrypt_stores self env payload self' :
  serverDecrypt self env = (Ok payload, self') ->
  exists d RSAKey k,
    env = VDict d /\ dict_get "key" d = Some RSAKey
    /\ RSADecrypt (PrivateKey self) RSAKey = Ok k
    /\ self' = {| PrivateKey := PrivateKey self; server_AESKey := VStr k |}
    /\ k <> EmptyString.
Proof.
  unfold serverDecrypt. intros H.
  destruct env as [| | | | |d]; try discriminate.
  destruct (dict_get "key" d) as [rk|] eqn:Ekey; [|discriminate].
  destruct (dict_get "value" d) as [ct|]; [|discriminate].
  destruct (RSADecrypt (PrivateKey self) rk) as [k|e] eqn:Ersa; [|discriminate].
  cbn [server_AESKey] in H. inversion H as [[Hres Hself]].
  exists d, rk, k. do 4 (split; [auto|]).
  destruct (AESDecrypt (VStr k) ct) as [plain|e] eqn:Edec; [|discriminate].
  unfold AESDecrypt in Edec.
  destruct (aes_arguments_ok (VStr k) ct) eqn:Eok; [|discriminate].
  apply aes_arguments_ok_text in Eok.
  destruct Eok as (k' & t & Ek & _ & [Hpos _] & _). inversion Ek; subst k'.
  intros ->. simpl in Hpos. lia.
Qed.

(** C9.  With the key slot still [None], as [new_server] leaves it,
    [serverEncrypt] raises [ValueError] for every payload.  A [serverDecrypt]
    that returned a payload has stored the key that [RSADecrypt] recovered
    from the envelope; from then on [serverEncrypt] never raises [ValueError]:
    a non-empty dictionary is sealed under exactly that key, with no call to
    [RSAEncrypt], and comes back as a dictionary whose only entry is [data]. *)
Theorem serverEncrypt_requires_stored_key :
  (forall PrivateKey resp signIndex now,
      server_AESKey (new_server PrivateKey) = VNone
      /\ serverEncrypt (new_server PrivateKey) resp signIndex now = Raise ValueError)
  /\ (forall self resp signIndex now,
        server_AESKey self = VNone ->
        serverEncrypt self resp signIndex now = Raise ValueError)
  /\ (forall self env payload self',
        serverDecrypt self env = (Ok payload, self') ->
        exists d RSAKey k,
          env = VDict d /\ dict_get "key" d = Some RSAKey
          /\ RSADecrypt (PrivateKey self) RSAKey = Ok k
          /\ server_AESKey self' = VStr k
          /\ forall resp signIndex now,
              serverEncrypt self' resp signIndex now
              = match resp with
                | VDict (item :: respData) =>
                    data <- with_meta (item :: respData) signIndex now ;;
                    ciphertext <-
                      AESEncrypt (VStr k) (VStr (Json.dumps_compact (VDict data))) ;;
                    Ok (VDict [("data", VStr ciphertext)])
                | _ => Raise TypeError
                end).
Proof.
  split; [|split].
  - intros. split; reflexivity.
  - intros self resp si now H. unfold serverEncrypt. now rewrite H.
  - intros self env payload self' H.
    destruct (serverDecrypt_stores _ _ _ _ H) as (d & rk & k & -> & Hk & Hrsa & -> & Hnz).
    exists d, rk, k. repeat split; try assumption.
    intros resp si now. unfold serverEncrypt. cbn [server_AESKey truthy].
    apply String.eqb_neq in Hnz. rewrite Hnz. cbn [negb].
    destruct resp as [| | | | |[|item respData]]; try reflexivity.
    cbn [truthy]. unfold seal.
    destruct (with_meta (item :: respData) si now); reflexivity.
Qed.

(** C10, as the code has it.  [clientEncrypt] raises [TypeError] for the empty
    dictionary, as it does for anything that is not a dictionary.
    [serverEncrypt] treats the empty dictionary as it treats anything that is
    not a dictionary, whatever its key slot holds: [TypeError] once a key is
    stored, [ValueError] before. *)
Theorem empty_payload_rejected :
  (forall self signIndex now rnd,
      clientEncrypt self (VDict []) signIndex now rnd = Raise TypeError)
  /\ (forall self x signIndex now rnd,
        is_dict x = false -> clientEncrypt self x signIndex now rnd = Raise TypeError)
  /\ (forall self x signIndex now,
        is_dict x = false ->
        serverEncrypt self (VDict []) signIndex now
        = serverEncrypt self x signIndex now)
  /\ (forall self signIndex now,
        serverEncrypt self (VDict []) signIndex now
        = if truthy (server_AESKey self) then Raise TypeError else Raise ValueError).
Proof.
  repeat split.
  - intros self x si now rnd Hx. destruct x; try reflexivity. discriminate.
  - intros self x si now Hx. unfold serverEncrypt.
    destruct (truthy (server_AESKey self)); [|reflexivity].
    destruct x; try reflexivity. discriminate.
Qed.

End ServerState.

(* ================================================================= *)
(** * The exchange *)

Section Exchange.

Context {lib : Library}.

Lemma well_formed_list l : well_formed (VList l) <-> Forall well_formed l.
Proof.
  induction l as [|x l IH].
  - split; constructor.
  - split.
    + intros [Hx Hl]. constructor; [assumption | now apply IH].
    + intros H. inversion H; subst. split; [assumption | now apply IH].
Qed.

Lemma well_formed_dict d :
  well_formed (VDict d)
  <-> is_mapping d /\ Forall (fun kv => well_formed (snd kv)) d.
Proof.
  cbn [well_formed]. apply and_iff_compat_l.
  induction d as [|x d IH].
  - split; constructor.
  - split.
    + intros [Hx Hd]. constructor; [assumption | now apply IH].
    + intros H. inversion H; subst. split; [assumption | now apply IH].
Qed.

Lemma Forall_and_impl {A : Type} (P Q : A -> Prop) l :
  Forall (fun x => P x -> Q x) l -> Forall P l -> Forall Q l.
Proof.
  induction 1 as [|x l Hx Hl IH]; intros HP; inversion HP; subst;
    constructor; auto.
Qed.

Lemma hex_digit_ascii n : is_ascii (MD5.hex_digit (n mod 16)) = true.
Proof.
  assert (H : forall m, (m < 16)%N -> is_ascii (MD5.hex_digit m) = true).
  { intros m Hm. destruct m as [|p]; [reflexivity|].
    do 4 (destruct p as [p|p|]; try reflexivity); lia. }
  apply H, N.mod_upper_bound. discriminate.
Qed.

(** An MD5 digest is 32 ASCII characters. *)
Lemma hexdigest_shape bs :
  String.length (MD5.hexdigest bs) = 32
  /\ all_chars is_ascii (MD5.hexdigest bs) = true.
Proof.
  unfold MD5.hexdigest.
  destruct (fold_left MD5.compress _ MD5.init) as [[[a b] c] d].
  split; [reflexivity|].
  unfold MD5.hex_word, MD5.hex_byte. cbn [append all_chars].
  rewrite !hex_digit_ascii. reflexivity.
Qed.

Lemma genAesKey_shape random :
  String.length (genAesKey random) = 32
  /\ all_chars is_ascii (genAesKey random) = true.
Proof. apply hexdigest_shape. Qed.

Lemma with_meta_body data signIndex now body :
  dict_get "__meta__" data = None ->
  with_meta data signIndex now = Ok body ->
  exists Signature,
    sign (VDict data) (VDict (new_metaData now signIndex)) = Ok Signature
    /\ body = (data ++ [("__meta__",
                         VDict (new_metaData now signIndex
                                ++ [("Signature", Signature)]))])%list.
Proof.
  intros Hfresh. unfold with_meta.
  destruct (sign (VDict data) (VDict (new_metaData now signIndex)))
    as [Signature|e]; [|discriminate].
  cbn [bind]. intros H. inversion H. exists Signature. split; [reflexivity|].
  now rewrite dict_set_fresh by assumption.
Qed.

(** A body built by [with_meta] passes [verify], which gives the data back. *)
Lemma verify_with_meta data signIndex now body :
  dict_get "__meta__" data = None ->
  with_meta data signIndex now = Ok body ->
  verify (VDict body) = Ok (VDict data).
Proof.
  intros Hfresh Hbody.
  destruct (with_meta_body _ _ _ _ Hfresh Hbody) as (Signature & Hsign & ->).
  assert (Hc : carries
            (VDict (data ++ [("__meta__",
                              VDict (new_metaData now signIndex
                                     ++ [("Signature", Signature)]))])%list)
            Signature (VDict data) (VDict (new_metaData now signIndex))).
  { eexists. split.
    - unfold pop. rewrite dict_pop_fresh by assumption. reflexivity.
    - unfold pop. rewrite dict_pop_fresh by reflexivity. reflexivity. }
  now apply (verify_SignError _ _ _ _ _ Hc Hsign).
Qed.

(** What [seal] wrote under a key of 32 ASCII characters, [AESDecrypt],
    [json.loads] and [verify] turn back into the data. *)
Lemma seal_opens (k : string) data signIndex now body :
  Lawful lib ->
  String.length k = 32 -> all_chars is_ascii k = true ->
  dict_get "__meta__" data = None ->
  with_meta data signIndex now = Ok body ->
  reads_back data signIndex now ->
  exists ciphertext,
    seal (VStr k) data signIndex now = Ok ciphertext
    /\ (plain <- AESDecrypt (VStr k) (VStr ciphertext) ;;
        received <- loads plain ;;
        verify received) = Ok (VDict data).
Proof.
  intros laws Hlen Hascii Hfresh Hbody Hjson.
  destruct (AES_round_trip k (Json.dumps_compact (VDict body)))
    as (ct & Henc & Hdec); auto.
  - apply dumps_nonempty.
  - now apply dumps_printable.
  - exists ct. unfold seal. rewrite Hbody. cbn [bind]. split; [assumption|].
    rewrite Hdec. cbn [bind loads]. rewrite (Hjson body Hbody). cbn [bind].
    now apply verify_with_meta with signIndex now.
Qed.

Lemma sign_well_formed P M x : sign P M = Ok x -> well_formed x.
Proof.
  intros H. destruct (sign_result _ _ _ H) as [->|[s ->]]; exact I.
Qed.

(** The body that [with_meta] builds is well formed when the data is. *)
Lemma with_meta_well_formed data signIndex now body :
  well_formed (VDict data) -> well_formed signIndex ->
  dict_get "__meta__" data = None ->
  with_meta data signIndex now = Ok body ->
  well_formed (VDict body).
Proof.
  intros Hdata Hsi Hfresh Hbody.
  destruct (with_meta_body _ _ _ _ Hfresh Hbody) as (Signature & Hsign & ->).
  apply well_formed_dict in Hdata. destruct Hdata as [Hmap Hvalues].
  apply well_formed_dict. split.
  - unfold is_mapping, keys in *. rewrite map_app. cbn [map fst].
    apply NoDup_app; [assumption | repeat constructor; simpl; tauto |].
    intros k Hk [<-|[]]. apply dict_get_None in Hfresh. contradiction.
  - apply Forall_app. split; [assumption|]. constructor; [|constructor].
    cbn [snd]. apply well_formed_dict. split.
    + unfold is_mapping. cbn. repeat constructor; simpl; intuition discriminate.
    + cbn [new_metaData app]. repeat constructor; cbn [snd]; auto.
      exact (sign_well_formed _ _ _ Hsign).
Qed.

Lemma lawful_reads_back data signIndex now :
  Lawful lib ->
  well_formed (VDict data) -> well_formed signIndex ->
  dict_get "__meta__" data = None ->
  reads_back data signIndex now.
Proof.
  intros laws Hdata Hsi Hfresh body Hbody. apply json_law.
  now apply with_meta_well_formed with data signIndex now.
Qed.

(** With the default [signIndex], [with_meta] always builds a body. *)
Lemma with_meta_default data now :
  exists body, with_meta data VNone now = Ok body.
Proof.
  unfold with_meta. rewrite sign_unfold, sign_data_branches.
  cbn [signature_index new_metaData dict_get String.eqb Ascii.eqb Bool.eqb bind].
  eexists. reflexivity.
Qed.

(** C1, as the code has it.  With lawful libraries, a valid key pair, and a
    payload [P] and a response [R] that are well-formed dictionaries, not
    empty and without the key [__meta__], the four steps succeed:
    [serverDecrypt] returns [P] and [clientDecrypt] returns [R]. *)
Theorem exchange_round_trip
  (pub priv random rnd : list byte) (P R : dict value)
  (now now' : string) :
  Lawful lib ->
  valid_key_pair pub priv ->
  P <> [] -> well_formed (VDict P) -> dict_get "__meta__" P = None ->
  R <> [] -> well_formed (VDict R) -> dict_get "__meta__" R = None ->
  exists request server response,
    clientEncrypt (new_client pub random) (VDict P) VNone now rnd
    = Ok request
    /\ serverDecrypt (new_server priv) request = (Ok (VDict P), server)
    /\ serverEncrypt server (VDict R) VNone now' = Ok response
    /\ clientDecrypt (new_client pub random) response = Ok (VDict R).
Proof.
  intros laws Hkeys HP HPw HPm HR HRw HRm.
  pose proof (lawful_reads_back P VNone now laws HPw I HPm) as HPj.
  pose proof (lawful_reads_back R VNone now' laws HRw I HRm) as HRj.
  destruct (genAesKey_shape random) as [Hlen Hascii].
  set (k := genAesKey random) in *.
  destruct (Hkeys k rnd Hlen Hascii) as (RSAKey & Hwrap & Hunwrap).
  destruct (with_meta_default P now) as [bodyP HbP].
  destruct (with_meta_default R now') as [bodyR HbR].
  destruct (seal_opens k P VNone now bodyP) as (ctP & HsealP & HopenP); auto.
  destruct (seal_opens k R VNone now' bodyR) as (ctR & HsealR & HopenR); auto.
  assert (Hknz : String.eqb k "" = false).
  { apply String.eqb_neq. intros E. rewrite E in Hlen. discriminate. }
  exists (VDict [("key", VStr RSAKey); ("value", VStr ctP)]).
  exists {| PrivateKey := priv; server_AESKey := VStr k |}.
  exists (VDict [("data", VStr ctR)]).
  split; [|split; [|split]].
  - unfold clientEncrypt. destruct P as [|item P']; [congruence|].
    cbn [truthy new_client client_AESKey PublicKey]. fold k.
    rewrite Hwrap. cbn [bind]. rewrite HsealP. reflexivity.
  - unfold serverDecrypt.
    cbn [dict_get String.eqb Ascii.eqb Bool.eqb new_server PrivateKey
           server_AESKey].
    rewrite Hunwrap. cbn [server_AESKey]. now rewrite HopenP.
  - unfold serverEncrypt. cbn [server_AESKey truthy]. rewrite Hknz. cbn [negb].
    destruct R as [|item R']; [congruence|]. cbn [truthy].
    rewrite HsealR. reflexivity.
  - unfold clientDecrypt.
    cbn [dict_get String.eqb Ascii.eqb Bool.eqb new_client client_AESKey].
    fold k. exact HopenR.
Qed.

End Exchange.

(* ================================================================= *)
(** * The reference library keeps the contracts *)

Section ReferenceLaws.

Import Reference.

Ltac div_lia := zify; Z.to_euclidean_division_equations; lia.

Lemma below (f : N -> bool) (k : nat) :
  forallb (fun i => f (N.of_nat i)) (seq 0 k) = true ->
  forall n, (n < N.of_nat k)%N -> f n = true.
Proof.
  intros H n Hn. rewrite forallb_forall in H.
  specialize (H (N.to_nat n)). rewrite N2Nat.id in H.
  apply H, in_seq. lia.
Qed.

Lemma list_ind3 {A : Type} (P : list A -> Prop) :
  P [] -> (forall a, P [a]) -> (forall a b, P [a; b]) ->
  (forall a b c r, P r -> P (a :: b :: c :: r)) ->
  forall l, P l.
Proof.
  intros H0 H1 H2 H3.
  assert (H : forall l, P l /\ (forall a, P (a :: l)) /\ (forall a b, P (a :: b :: l))).
  { induction l as [|x l (Hl & Hl1 & Hl2)]; auto. }
  intros l. apply H.
Qed.

Lemma utf8_step c rest :
  utf8_decode (utf8_char c ++ rest)%list
  = option_map (String c) (utf8_decode rest).
Proof. destruct c as [[] [] [] [] [] [] [] []]; reflexivity. Qed.

Lemma reference_utf8 s : utf8_decode (str_encode s) = Some s.
Proof.
  unfold str_encode. induction s as [|c s IH]; [reflexivity|].
  cbn [list_ascii_of_string flat_map]. now rewrite utf8_step, IH.
Qed.

Lemma utf8_decode_ascii (cs : list ascii) :
  forallb is_ascii cs = true ->
  utf8_decode (map byte_of_ascii cs) = Some (string_of_list_ascii cs).
Proof.
  induction cs as [|c cs IH]; [reflexivity|].
  cbn [forallb]. rewrite andb_true_iff. intros [Hc Hcs].
  pose proof (utf8_step c (map byte_of_ascii cs)) as Hstep.
  unfold utf8_char in Hstep. unfold is_ascii in Hc. rewrite Hc in Hstep.
  cbn [map]. cbn [app] in Hstep. rewrite Hstep, IH by assumption. reflexivity.
Qed.

Lemma sextet_facts n :
  (n < 64)%N ->
  is_ascii (sextet_char n) = true
  /\ char_sextet (sextet_char n) = Some n.
Proof.
  intros Hn.
  pose proof (below (fun n => is_ascii (sextet_char n)
                              && match char_sextet (sextet_char n) with
                                 | Some m => N.eqb m n
                                 | None => false
                                 end) 64 eq_refl n Hn) as H.
  cbv beta in H. apply andb_true_iff in H. destruct H as [Ha Hs].
  split; [assumption|].
  destruct (char_sextet (sextet_char n)); [|discriminate].
  apply N.eqb_eq in Hs. now subst.
Qed.

Lemma sextet_ascii n : (n < 64)%N -> is_ascii (sextet_char n) = true.
Proof. apply sextet_facts. Qed.

Lemma sextet_inverse n : (n < 64)%N -> char_sextet (sextet_char n) = Some n.
Proof. apply sextet_facts. Qed.

Lemma b64_chars_ascii ns :
  Forall (fun n => (n < 256)%N) ns -> forallb is_ascii (b64_chars ns) = true.
Proof.
  induction ns as [| a | a b | a b c r IH] using list_ind3; intros H.
  - reflexivity.
  - inversion H; subst. cbn [b64_chars forallb].
    rewrite !sextet_ascii by div_lia. reflexivity.
  - inversion H as [|? ? Ha H']; inversion H'; subst. cbn [b64_chars forallb].
    rewrite !sextet_ascii by div_lia. reflexivity.
  - inversion H as [|? ? Ha H']; inversion H' as [|? ? Hb H''];
      inversion H'' as [|? ? Hc Hr]; subst.
    cbn [b64_chars forallb]. rewrite IH by assumption.
    rewrite !sextet_ascii by div_lia. reflexivity.
Qed.

Lemma b64_chars_length (ns : list N) :
  List.length (b64_chars ns) = 4 * ((List.length ns + 2) / 3).
Proof.
  induction ns as [| a | a b | a b c r IH] using list_ind3; try reflexivity.
  cbn [b64_chars List.length]. rewrite IH.
  replace (S (S (S (List.length r))) + 2) with ((List.length r + 2) + 1 * 3) by lia.
  rewrite Nat.div_add by lia. lia.
Qed.

Lemma b64_round_trip ns :
  Forall (fun n => (n < 256)%N) ns -> b64_bytes (b64_chars ns) = Some ns.
Proof.
  induction ns as [| a | a b | a b c r IH] using list_ind3; intros H.
  - reflexivity.
  - inversion H; subst. cbn [b64_chars b64_bytes].
    rewrite !sextet_inverse by div_lia.
    change (char_sextet "=") with (@None N). cbn [Ascii.eqb Bool.eqb andb].
    do 2 f_equal. div_lia.
  - inversion H as [|? ? Ha H']; inversion H'; subst. cbn [b64_chars b64_bytes].
    rewrite !sextet_inverse by div_lia.
    change (char_sextet "=") with (@None N). cbn [Ascii.eqb Bool.eqb andb].
    f_equal. f_equal; [|f_equal]; div_lia.
  - inversion H as [|? ? Ha H']; inversion H' as [|? ? Hb H''];
      inversion H'' as [|? ? Hc Hr]; subst.
    cbn [b64_chars b64_bytes].
    rewrite !sextet_inverse by div_lia.
    rewrite IH by assumption. cbn [option_map].
    f_equal. f_equal; [|f_equal; [|f_equal]]; div_lia.
Qed.

Lemma byte_of_N_to_N b : byte_of_N (Byte.to_N b) = b.
Proof.
  unfold byte_of_N. rewrite <- ascii_of_byte_via_N.
  apply byte_of_ascii_of_byte.
Qed.

Lemma length_string_of_list (cs : list ascii) :
  String.length (string_of_list_ascii cs) = List.length cs.
Proof. induction cs as [|c cs IH]; simpl; [reflexivity | now rewrite IH]. Qed.

Lemma reference_base64 b :
  exists s, utf8_decode (base64_encode b) = Some s
            /\ String.length s = 4 * ((List.length b + 2) / 3)
            /\ base64_decode s = Ok b.
Proof.
  assert (Hb : Forall (fun n => (n < 256)%N) (map Byte.to_N b)).
  { rewrite Forall_map. apply Forall_forall. intros x _.
    pose proof (Byte.to_N_bounded x). lia. }
  exists (string_of_list_ascii (b64_chars (map Byte.to_N b))). split; [|split].
  - unfold base64_encode. apply utf8_decode_ascii. now apply b64_chars_ascii.
  - now rewrite length_string_of_list, b64_chars_length, length_map.
  - unfold base64_decode.
    rewrite list_ascii_of_string_of_list_ascii, b64_round_trip by assumption.
    f_equal. rewrite map_map. rewrite <- (map_id b) at 2.
    apply map_ext, byte_of_N_to_N.
Qed.

Lemma reference_aes key iv data :
  List.length key = 16 \/ List.length key = 24 \/ List.length key = 32 ->
  List.length iv = 16 ->
  List.length data mod 16 = 0 ->
  exists c, mirror key iv data = Ok c
            /\ List.length c = List.length data
            /\ mirror key iv c = Ok data.
Proof.
  intros Hk Hiv Hd. exists (rev data).
  assert (Hok : forall d, List.length d mod 16 = 0 -> aes_lengths_ok key iv d = true).
  { intros d Hdlen. unfold aes_lengths_ok. rewrite Hiv, Hdlen.
    destruct Hk as [->|[->| ->]]; reflexivity. }
  unfold mirror. rewrite (Hok data Hd), (Hok (rev data)).
  - rewrite length_rev, rev_involutive. auto.
  - now rewrite length_rev.
Qed.

(** ** The reader *)

Lemma delimited_not_digit rest :
  delimited rest ->
  match rest with String c _ => is_digit c | EmptyString => false end = false.
Proof.
  destruct rest as [|c r]; [reflexivity|]. simpl.
  intros [->|[->| ->]]; reflexivity.
Qed.

Lemma delimited_skip_ws rest : delimited rest -> skip_ws rest = rest.
Proof.
  destruct rest as [|c r]; [reflexivity|]. simpl.
  intros [->|[->| ->]]; reflexivity.
Qed.

Lemma read_digits_uint d :
  forall acc rest,
    delimited rest ->
    read_digits acc (NilEmpty.string_of_uint d ++ rest) = (uint_acc d acc, rest).
Proof.
  induction d; intros acc rest Hrest;
    try (cbn [NilEmpty.string_of_uint append read_digits];
         rewrite IHd by assumption; cbn; do 2 f_equal; lia).
  cbn [NilEmpty.string_of_uint append uint_acc].
  pose proof (delimited_not_digit rest Hrest) as H.
  destruct rest as [|c r]; [reflexivity|].
  cbn [read_digits]. unfold is_digit in H. now rewrite H.
Qed.

Lemma uint_acc_pos d :
  forall acc, uint_acc d (Z.pos acc) = Z.pos (Pos.of_uint_acc d acc).
Proof.
  induction d; intros acc; cbn [uint_acc Pos.of_uint_acc]; try reflexivity;
    rewrite <- IHd; f_equal; lia.
Qed.

Lemma uint_acc_0 d : uint_acc d 0 = Z.of_N (Pos.of_uint d).
Proof.
  induction d; cbn [uint_acc Pos.of_uint]; try reflexivity; try assumption;
    cbn [Z.mul Z.add Z.of_N]; apply uint_acc_pos.
Qed.

Lemma to_uint_value p rest :
  delimited rest ->
  exists c t,
    NilEmpty.string_of_uint (Pos.to_uint p) = String c t
    /\ NilZero.string_of_uint (Pos.to_uint p) = String c t
    /\ is_digit c = true
    /\ read_digits 0 (String c t ++ rest) = (Z.pos p, rest).
Proof.
  intros Hrest.
  pose proof (DecimalPos.Unsigned.of_to p) as Hp.
  pose proof (read_digits_uint (Pos.to_uint p) 0 rest Hrest) as Hd.
  rewrite uint_acc_0, Hp in Hd. cbn [Z.of_N] in Hd.
  destruct (Pos.to_uint p) eqn:E; try discriminate;
    cbn [NilEmpty.string_of_uint NilZero.string_of_uint] in *;
    eexists _, _; (split; [reflexivity|]); (split; [reflexivity|]);
    (split; [reflexivity | exact Hd]).
Qed.

Lemma read_value_digit fuel c t :
  is_digit c = true ->
  read_value (S fuel) (String c t)
  = let (n, rest) := read_digits 0 (String c t) in Some (VInt n, rest).
Proof.
  destruct c as [[] [] [] [] [] [] [] []]; try discriminate; reflexivity.
Qed.

Lemma read_value_minus fuel c t :
  is_digit c = true ->
  read_value (S fuel) (String "-" (String c t))
  = let (n, rest) := read_digits 0 (String c t) in Some (VInt (- n), rest).
Proof.
  destruct c as [[] [] [] [] [] [] [] []]; try discriminate; reflexivity.
Qed.

Lemma read_value_int fuel n rest :
  delimited rest ->
  read_value (S fuel) (Json.repr_int n ++ rest) = Some (VInt n, rest).
Proof.
  intros Hrest. unfold Json.repr_int, NilZero.string_of_int.
  destruct n as [|p|p]; cbn [Z.to_int].
  - cbn [NilZero.string_of_uint NilEmpty.string_of_uint append].
    rewrite read_value_digit by reflexivity.
    pose proof (read_digits_uint (Decimal.D0 Decimal.Nil) 0 rest Hrest) as H.
    cbn [NilEmpty.string_of_uint append uint_acc Z.mul] in H. now rewrite H.
  - destruct (to_uint_value p rest Hrest) as (c & t & _ & -> & Hc & Hd).
    cbn [append] in *. rewrite read_value_digit by assumption. now rewrite Hd.
  - destruct (to_uint_value p rest Hrest) as (c & t & _ & -> & Hc & Hd).
    cbn [append] in *. rewrite read_value_minus by assumption. now rewrite Hd.
Qed.

(** Strings. *)
Lemma read_string_step c t :
  read_string (Json.escape_char c ++ t)
  = match read_string t with
    | Some (u, r) => Some (String c u, r)
    | None => None
    end.
Proof. destruct c as [[] [] [] [] [] [] [] []]; reflexivity. Qed.

Lemma read_string_escape s rest :
  read_string (Json.escape s ++ String Json.dquote rest) = Some (s, rest).
Proof.
  induction s as [|c s IH]; [reflexivity|].
  cbn [Json.escape]. now rewrite append_assoc, read_string_step, IH.
Qed.

Lemma read_value_quote fuel t :
  read_value (S fuel) (String Json.dquote t)
  = match read_string t with
    | Some (u, r) => Some (VStr u, r)
    | None => None
    end.
Proof. reflexivity. Qed.

Lemma encode_basestring_app s rest :
  Json.encode_basestring_ascii s ++ rest
  = String Json.dquote (Json.escape s ++ String Json.dquote rest).
Proof.
  unfold Json.encode_basestring_ascii. cbn [append]. now rewrite append_assoc.
Qed.

Lemma read_value_string fuel s rest :
  read_value (S fuel) (Json.encode_basestring_ascii s ++ rest) = Some (VStr s, rest).
Proof.
  now rewrite encode_basestring_app, read_value_quote, read_string_escape.
Qed.

Lemma dumps_head v :
  exists h t, Json.dumps_compact v = String h t /\ value_head h = true.
Proof.
  destruct v as [|[]|n|s|l|d]; try (eexists _, _; split; reflexivity).
  unfold Json.dumps_compact, Json.dumps, Json.repr_int, NilZero.string_of_int.
  destruct n as [|p|p]; cbn [Z.to_int];
    try (eexists _, _; split; reflexivity).
  destruct (to_uint_value p EmptyString I) as (c & t & _ & -> & Hc & _).
  exists c, t. split; [reflexivity|]. unfold value_head. now rewrite Hc.
Qed.

Lemma read_value_bracket fuel h t :
  value_head h = true ->
  read_value (S fuel) (String "[" (String h t)) = read_items fuel [] (String h t).
Proof.
  destruct h as [[] [] [] [] [] [] [] []]; try discriminate; reflexivity.
Qed.

Lemma read_items_step fuel acc s :
  read_items (S fuel) acc s
  = match read_value fuel s with
    | Some (v, rest) =>
        match skip_ws rest with
        | String "," rest' => read_items fuel (v :: acc) rest'
        | String "]" rest' => Some (VList (rev (v :: acc)), rest')
        | _ => None
        end
    | None => None
    end.
Proof. reflexivity. Qed.

Lemma read_members_step fuel acc t :
  read_members (S fuel) acc (String Json.dquote t)
  = match read_string t with
    | Some (k, rest) =>
        match skip_ws rest with
        | String ":" rest' =>
            match read_value fuel rest' with
            | Some (v, rest'') =>
                match skip_ws rest'' with
                | String "," more => read_members fuel (dict_set k v acc) more
                | String "}" more => Some (VDict (dict_set k v acc), more)
                | _ => None
                end
            | None => None
            end
        | _ => None
        end
    | None => None
    end.
Proof. reflexivity. Qed.

Lemma read_value_brace fuel t :
  read_value (S fuel) (String "{" (String Json.dquote t))
  = read_members fuel [] (String Json.dquote t).
Proof. reflexivity. Qed.

Lemma concat_cons sep (a b : string) l :
  String.concat sep (a :: b :: l) = a ++ sep ++ String.concat sep (b :: l).
Proof. reflexivity. Qed.

(** The items of a list, up to the closing bracket. *)
Lemma read_items_dumps (l : list value) :
  Forall (fun v => forall fuel rest,
            String.length (Json.dumps_compact v) <= fuel -> delimited rest ->
            read_value fuel (Json.dumps_compact v ++ rest) = Some (v, rest)) l ->
  l <> [] ->
  forall fuel acc rest,
    String.length (String.concat "," (map Json.dumps_compact l)) < fuel ->
    read_items fuel acc
      (String.concat "," (map Json.dumps_compact l) ++ String "]" rest)
    = Some (VList (rev acc ++ l), rest).
Proof.
  induction 1 as [|x l Hx Hl IH]; [congruence|]. intros _ fuel acc rest Hfuel.
  destruct fuel as [|fuel]; [lia|]. rewrite read_items_step.
  destruct l as [|y l].
  - cbn [map String.concat] in *.
    rewrite Hx by (cbn; auto; lia). reflexivity.
  - cbn [map] in *. rewrite concat_cons in *. rewrite !length_app in Hfuel.
    rewrite append_assoc. cbn [append].
    rewrite Hx by (cbn; auto; lia). cbn.
    rewrite IH; [|discriminate|].
    + cbn [rev]. now rewrite <- app_assoc.
    + pose proof (dumps_nonempty false "," ":" x) as Hne.
      fold (Json.dumps_compact x) in Hne.
      destruct (Json.dumps_compact x); [congruence|]. cbn in Hfuel |- *. lia.
Qed.

Lemma dumps_dict d :
  Json.dumps_compact (VDict d)
  = String "{" (String.concat "," (map member_text d) ++ "}").
Proof.
  unfold Json.dumps_compact. cbn [Json.dumps Json.join append].
  now rewrite map_map.
Qed.

Lemma dumps_list l :
  Json.dumps_compact (VList l)
  = String "[" (String.concat "," (map Json.dumps_compact l) ++ "]").
Proof. reflexivity. Qed.

Lemma member_text_app kv rest :
  member_text kv ++ rest
  = String Json.dquote
      (Json.escape (fst kv)
       ++ String Json.dquote (String ":" (Json.dumps_compact (snd kv) ++ rest))).
Proof.
  unfold member_text. rewrite append_assoc, encode_basestring_app.
  reflexivity.
Qed.

Lemma member_text_length kv :
  String.length (Json.dumps_compact (snd kv)) < String.length (member_text kv).
Proof.
  unfold member_text. rewrite !length_app. cbn [String.length]. lia.
Qed.

Lemma read_members_member fuel acc k t :
  read_members (S fuel) acc
    (String Json.dquote (Json.escape k ++ String Json.dquote (String ":" t)))
  = match read_value fuel t with
    | Some (v, rest) =>
        match skip_ws rest with
        | String "," more => read_members fuel (dict_set k v acc) more
        | String "}" more => Some (VDict (dict_set k v acc), more)
        | _ => None
        end
    | None => None
    end.
Proof. rewrite read_members_step, read_string_escape. reflexivity. Qed.

Lemma after_comma fuel acc more :
  match skip_ws (String "," more) with
  | String "," more => read_members fuel acc more
  | String "}" more => Some (VDict acc, more)
  | _ => None
  end = read_members fuel acc more.
Proof. reflexivity. Qed.

(** The members of a dictionary, up to the closing brace. *)
Lemma read_members_dumps (d : dict value) :
  Forall (fun kv => forall fuel rest,
            String.length (Json.dumps_compact (snd kv)) <= fuel -> delimited rest ->
            read_value fuel (Json.dumps_compact (snd kv) ++ rest)
            = Some (snd kv, rest)) d ->
  d <> [] ->
  forall fuel acc rest,
    String.length (String.concat "," (map member_text d)) < fuel ->
    is_mapping (acc ++ d)%list ->
    read_members fuel acc
      (String.concat "," (map member_text d) ++ String "}" rest)
    = Some (VDict (acc ++ d)%list, rest).
Proof.
  induction 1 as [|x d Hx Hd IH]; [congruence|].
  intros _ fuel acc rest Hfuel Hmap.
  destruct fuel as [|fuel]; [lia|].
  assert (Hfresh : dict_get (fst x) acc = None).
  { apply dict_get_None. unfold is_mapping, keys in Hmap.
    rewrite map_app in Hmap. cbn [map] in Hmap.
    apply NoDup_remove_2 in Hmap. intros H. apply Hmap, in_or_app. now left. }
  pose proof (member_text_length x) as Hlen.
  destruct x as [k v]. cbn [fst snd] in *.
  destruct d as [|y d].
  - cbn [map String.concat] in *.
    rewrite member_text_app, read_members_member.
    rewrite Hx by (cbn; auto; lia).
    cbn. now rewrite dict_set_fresh.
  - cbn [map] in *. rewrite concat_cons in *. rewrite !length_app in Hfuel.
    rewrite append_assoc, member_text_app, read_members_member.
    cbn [append]. rewrite Hx by (cbn; auto; lia).
    rewrite after_comma, dict_set_fresh by assumption.
    rewrite IH; [|discriminate| |].
    + now rewrite <- app_assoc.
    + cbn [String.length] in Hfuel. lia.
    + now rewrite <- app_assoc.
Qed.

(** The reader reads what [json.dumps] wrote with the compact separators. *)
Lemma read_value_dumps v :
  well_formed v ->
  forall fuel rest,
    String.length (Json.dumps_compact v) <= fuel -> delimited rest ->
    read_value fuel (Json.dumps_compact v ++ rest) = Some (v, rest).
Proof.
  induction v as [|b|n|s|l IH|d IH] using value_nested_ind;
    intros Hwf fuel rest Hfuel Hrest.
  - destruct fuel as [|fuel]; [cbn in Hfuel; lia | reflexivity].
  - destruct fuel as [|fuel]; [destruct b; cbn in Hfuel; lia|].
    destruct b; reflexivity.
  - destruct fuel as [|fuel].
    + pose proof (dumps_nonempty false "," ":" (VInt n)) as Hne.
      fold (Json.dumps_compact (VInt n)) in Hne.
      destruct (Json.dumps_compact (VInt n)); [congruence | cbn in Hfuel; lia].
    + now apply read_value_int.
  - destruct fuel as [|fuel]; [cbn in Hfuel; lia|].
    apply read_value_string.
  - apply well_formed_list in Hwf.
    pose proof (Forall_and_impl _ _ _ IH Hwf) as Hitems.
    rewrite dumps_list in *. cbn [String.length append] in *.
    destruct fuel as [|fuel]; [lia|].
    destruct l as [|x l]; [reflexivity|].
    rewrite append_assoc. cbn [append].
    rewrite length_app in Hfuel.
    destruct (dumps_head x) as (h & t & Hh & Hhead).
    assert (Hstart : exists t',
               String.concat "," (map Json.dumps_compact (x :: l)) ++ String "]" rest
               = String h t').
    { destruct l; cbn [map String.concat]; [|rewrite append_assoc];
        rewrite Hh; cbn [append]; eauto. }
    destruct Hstart as [t' Ht'].
    pose proof (read_items_dumps (x :: l) Hitems ltac:(discriminate) fuel [] rest)
      as Hread.
    rewrite Ht' in *. rewrite read_value_bracket by assumption.
    apply Hread. cbn [String.length] in Hfuel. lia.
  - apply well_formed_dict in Hwf. destruct Hwf as [Hmap Hwf].
    pose proof (Forall_and_impl _ _ _ IH Hwf) as Hitems.
    rewrite dumps_dict in *. cbn [String.length append] in *.
    destruct fuel as [|fuel]; [lia|].
    destruct d as [|x d]; [reflexivity|].
    rewrite append_assoc. cbn [append].
    rewrite length_app in Hfuel.
    assert (Hstart : exists t',
               String.concat "," (map member_text (x :: d)) ++ String "}" rest
               = String Json.dquote t').
    { destruct d; cbn [map String.concat]; [|rewrite append_assoc];
        rewrite member_text_app; eauto. }
    destruct Hstart as [t' Ht'].
    pose proof (read_members_dumps (x :: d) Hitems ltac:(discriminate) fuel [] rest)
      as Hread.
    rewrite Ht' in *. rewrite read_value_brace.
    apply Hread; [cbn [String.length] in Hfuel; lia | exact Hmap].
Qed.

Lemma reference_json v :
  well_formed v -> read_json (Json.dumps_compact v) = Ok v.
Proof.
  intros Hwf. unfold read_json.
  pose proof (read_value_dumps v Hwf (S (String.length (Json.dumps_compact v)))
                EmptyString ltac:(lia) I) as H.
  rewrite append_nil_r in H. now rewrite H.
Qed.

Lemma reference_lawful : Lawful library.
Proof.
  constructor.
  - exact reference_utf8.
  - exact reference_base64.
  - exact reference_aes.
  - exact reference_json.
Qed.

Lemma starts_with_app (p r : list byte) : starts_with p (p ++ r)%list = true.
Proof.
  induction p as [|x p IH]; [reflexivity|].
  cbn [app starts_with]. now rewrite (Byte.byte_dec_lb (eq_refl x)).
Qed.

(** In the reference library a PEM text is paired with itself. *)
Lemma reference_key_pair (pem : list byte) : pem <> [] -> valid_key_pair pem pem.
Proof.
  intros Hpem k rnd Hlen Hascii.
  assert (Hload : load_pem pem = Ok pem) by (destruct pem; [congruence | reflexivity]).
  destruct (reference_base64 (pem ++ str_encode k)%list) as (s & Hs & _ & Hback).
  exists s. split.
  - unfold RSAEncrypt. cbn [load_pkcs1_public load_pkcs1_openssl_pem library].
    match goal with
    | |- context [if ?c then _ else _] => destruct c
    end; rewrite Hload; cbn [bind rsa_encrypt library]; unfold wrap;
      rewrite (str_encode_length k Hascii), Hlen; cbn [Nat.leb bind];
      unfold decode_utf8; cbn [bytes_decode b64encode library]; now rewrite Hs.
  - unfold RSADecrypt. cbn [load_pkcs1_private b64decode rsa_decrypt library].
    rewrite Hload. cbn [bind]. rewrite Hback. cbn [bind]. unfold unwrap.
    rewrite starts_with_app. cbn [bind]. rewrite skipn_app, Nat.sub_diag.
    rewrite skipn_all. cbn [skipn app]. unfold decode_utf8.
    cbn [bytes_decode library]. now rewrite reference_utf8.
Qed.

End ReferenceLaws.

(* ================================================================= *)
(** * Further properties of the module *)

(** ** [RSAEncrypt] and [RSADecrypt] *)

Section RSARoundTrip.

Context {lib : Library}.

(** X1.  What [RSAEncrypt] returns, [RSADecrypt] turns back into the
    plaintext: with a private key that loads and that decrypts what the
    public key encrypts (whichever of the two loaders [RSAEncrypt] picks for
    it), the base64 text and the UTF-8 encoding on the way lose nothing. *)
Theorem RSADecrypt_inverts_RSAEncrypt
  (pubkey privkey : list byte) (key : private_key)
  (plaintext : string) (rnd : list byte) (ciphertext : string) :
  Lawful lib ->
  load_pkcs1_private privkey = Ok key ->
  (forall K m r c,
      load_pkcs1_public pubkey = Ok K \/ load_pkcs1_openssl_pem pubkey = Ok K ->
      rsa_encrypt m K r = Ok c -> rsa_decrypt c key = Ok m) ->
  RSAEncrypt pubkey plaintext rnd = Ok ciphertext ->
  RSADecrypt privkey (VStr ciphertext) = Ok plaintext.
Proof.
  intros laws Hpriv Hpair. unfold RSAEncrypt.
  set (pkcs1 := match pubkey with [] => false | _ => true end
                && starts_with public_key_prefix pubkey).
  destruct (if pkcs1 then load_pkcs1_public pubkey
            else load_pkcs1_openssl_pem pubkey) as [K|e] eqn:Eload; [|discriminate].
  assert (HK : load_pkcs1_public pubkey = Ok K
               \/ load_pkcs1_openssl_pem pubkey = Ok K).
  { destruct pkcs1; auto. }
  cbn [bind].
  destruct (rsa_encrypt (str_encode plaintext) K rnd) as [c|e] eqn:Eenc;
    [|discriminate].
  cbn [bind]. unfold decode_utf8.
  destruct (base64_law c) as (s & Hs & _ & Hback). rewrite Hs.
  intros [= <-]. unfold RSADecrypt. rewrite Hpriv. cbn [bind].
  rewrite Hback. cbn [bind]. rewrite (Hpair K _ _ _ HK Eenc). cbn [bind].
  unfold decode_utf8. now rewrite utf8_law.
Qed.

End RSARoundTrip.

(** ** [AESEncrypt] and [AESDecrypt] on any text *)

Section AESText.

Context {lib : Library}.

Lemma padding_grows s :
  String.length (PADDING s) = 16 * (String.length s / 16 + 1).
Proof.
  unfold PADDING, block_size. rewrite length_app, length_repeat_char.
  pose proof (Nat.mod_upper_bound (String.length s) 16 ltac:(lia)).
  pose proof (Nat.div_mod_eq (String.length s) 16). lia.
Qed.

(** X2.  [PADDING] brings the length to the next multiple of 16 above it: it
    always adds, between 1 and 16 characters (a whole block when the length
    is a multiple of 16 already), each of them the character whose code is
    their number, which is one of those [AESDecrypt] removes. *)
Theorem PADDING_fills_the_block (s : string) :
  String.length (PADDING s) = 16 * (String.length s / 16 + 1)
  /\ String.length s < String.length (PADDING s) <= String.length s + 16
  /\ exists n, 1 <= n <= 16
               /\ PADDING s = s ++ repeat_char (ascii_of_nat n) n
               /\ illegal_char (ascii_of_nat n) = true.
Proof.
  split; [apply padding_grows|]. split.
  - unfold PADDING, block_size. rewrite length_app, length_repeat_char.
    pose proof (pad_count (String.length s)). lia.
  - exists (16 - String.length s mod 16).
    pose proof (pad_count (String.length s)) as H.
    split; [exact H|]. split; [reflexivity|]. now apply pad_char_illegal.
Qed.

Lemma utf8_char_length c :
  List.length (utf8_char c) = 1 + (if is_ascii c then 0 else 1).
Proof. unfold utf8_char, is_ascii. destruct (code c <? 128)%N; reflexivity. Qed.

Lemma str_encode_cons c s :
  str_encode (String c s) = (utf8_char c ++ str_encode s)%list.
Proof. reflexivity. Qed.

Lemma str_encode_bytes s :
  List.length (str_encode s) = String.length s + two_byte_chars s.
Proof.
  induction s as [|c s IH]; [reflexivity|].
  rewrite str_encode_cons, List.length_app, utf8_char_length, IH.
  cbn [String.length two_byte_chars]. lia.
Qed.

Lemma two_byte_chars_app a b : two_byte_chars (a ++ b) = two_byte_chars a + two_byte_chars b.
Proof. induction a as [|c a IH]; simpl; [reflexivity | rewrite IH; lia]. Qed.

Lemma two_byte_chars_ascii s : all_chars is_ascii s = true -> two_byte_chars s = 0.
Proof.
  induction s as [|c s IH]; simpl; [reflexivity|].
  rewrite andb_true_iff. intros [-> Hs]. now rewrite IH.
Qed.

Lemma two_byte_chars_padding t : two_byte_chars (PADDING t) = two_byte_chars t.
Proof.
  unfold PADDING, block_size. rewrite two_byte_chars_app.
  rewrite (two_byte_chars_ascii (repeat_char _ _)); [lia|].
  apply all_chars_repeat, pad_char_ascii, pad_count.
Qed.

(** X3.  [PADDING] counts characters, the cipher counts bytes.  For text of
    code points below U+0100, which is the text a [string] holds, the padded
    plaintext has one byte more than a whole number of blocks for every
    character from U+0080 on, each of which takes two bytes; so with a cipher
    that refuses partial blocks, as CBC does, [AESEncrypt] raises that
    cipher's [ValueError] for every such text in which the number of those
    characters is not a multiple of 16. *)
Theorem AESEncrypt_pads_characters_not_bytes (k t : string) :
  (forall key iv data,
      List.length data mod 16 <> 0 ->
      aes_cbc_encrypt key iv data = Raise ValueError) ->
  aes_arguments_ok (VStr k) (VStr t) = true ->
  List.length (str_encode (PADDING t))
  = 16 * (String.length t / 16 + 1) + two_byte_chars t
  /\ (two_byte_chars t mod 16 <> 0 -> AESEncrypt (VStr k) (VStr t) = Raise ValueError).
Proof.
  intros Hcbc Hok.
  assert (Hlen : List.length (str_encode (PADDING t))
                 = 16 * (String.length t / 16 + 1) + two_byte_chars t).
  { now rewrite str_encode_bytes, padding_grows, two_byte_chars_padding. }
  split; [exact Hlen|].
  intros Hwide. unfold AESEncrypt. rewrite Hok.
  rewrite Hcbc; [reflexivity|].
  rewrite Hlen, Nat.add_comm, Nat.mul_comm, Nat.Div0.mod_add. exact Hwide.
Qed.

Lemma strip_illegal_padding t : strip_illegal (PADDING t) = strip_illegal t.
Proof.
  unfold PADDING, block_size. rewrite strip_illegal_app.
  rewrite strip_illegal_repeat; [apply append_nil_r|].
  apply pad_char_illegal, pad_count.
Qed.

Lemma without_controls_fixed t :
  without_controls t = t <-> all_chars (fun c => (32 <=? code c)%N) t = true.
Proof.
  rewrite <- strip_illegal_filter.
  assert (Hlen : forall s, String.length (strip_illegal s) <= String.length s).
  { induction s as [|c s IH]; simpl; [lia|].
    destruct (illegal_char c); simpl; lia. }
  induction t as [|c t IH]; simpl; [tauto|].
  rewrite illegal_char_below_32, N.leb_antisym.
  destruct (code c <? 32)%N; simpl.
  - split; [|discriminate]. intros E. pose proof (Hlen t) as H.
    rewrite E in H. simpl in H. lia.
  - rewrite <- IH. split; [now intros [= ->] | now intros ->].
Qed.

(** X4.  With lawful libraries and a key of 16 or 32 ASCII characters,
    [AESDecrypt] gives back what [AESEncrypt] was given, for every non-empty
    ASCII text, without the characters below U+0020: line breaks and tabs of
    the plaintext are lost with the padding, and the text comes back as it
    was exactly when it has no such character. *)
Theorem AESDecrypt_inverts_AESEncrypt_up_to_controls (k t : string) :
  Lawful lib ->
  all_chars is_ascii k = true ->
  String.length k = 16 \/ String.length k = 32 ->
  t <> EmptyString ->
  all_chars is_ascii t = true ->
  exists c,
    AESEncrypt (VStr k) (VStr t) = Ok c
    /\ AESDecrypt (VStr k) (VStr c) = Ok (VStr (without_controls t))
    /\ (without_controls t = t
        <-> all_chars (fun c => (32 <=? code c)%N) t = true).
Proof.
  intros laws Hk Hlen Ht Ha.
  assert (Hkb : List.length (str_encode k) = String.length k)
    by now apply str_encode_length.
  assert (Hknz : String.eqb k "" = false).
  { apply String.eqb_neq. intros ->. simpl in Hlen. lia. }
  assert (Hmod : Nat.eqb (String.length k mod 16) 0 = true).
  { destruct Hlen as [->| ->]; reflexivity. }
  assert (Htnz : String.eqb t "" = false) by now apply String.eqb_neq.
  set (key := str_encode k) in *.
  set (data := str_encode (PADDING t)).
  assert (Hdata : List.length data = 16 * (String.length t / 16 + 1)).
  { unfold data. rewrite str_encode_bytes, two_byte_chars_padding, padding_grows.
    rewrite (two_byte_chars_ascii t Ha). lia. }
  destruct (aes_law key (firstn block_size key) data) as (c & Henc & Hclen & Hdec).
  { lia. }
  { rewrite length_firstn. unfold block_size. lia. }
  { rewrite Hdata, Nat.mul_comm. apply Nat.Div0.mod_mul. }
  destruct (base64_law c) as (s & Hs & Hslen & Hback).
  assert (Hsnz : String.eqb s "" = false).
  { apply String.eqb_neq. intros ->. cbn [String.length] in Hslen.
    assert (1 <= (List.length c + 2) / 3).
    { apply Nat.div_le_lower_bound; lia. }
    lia. }
  assert (Hs4 : String.length s mod 4 = 0).
  { rewrite Hslen, Nat.mul_comm. apply Nat.Div0.mod_mul. }
  exists s. split; [|split].
  - unfold AESEncrypt, aes_arguments_ok. simpl truthy. simpl is_text.
    rewrite Hknz, Htnz, Hmod. cbn [negb andb].
    fold key. fold data. rewrite Henc. cbn [bind].
    unfold decode_utf8. now rewrite Hs.
  - unfold AESDecrypt, aes_arguments_ok. simpl truthy. simpl is_text.
    rewrite Hknz, Hsnz, Hmod. cbn [negb andb].
    rewrite Hs4. simpl repeat_char. rewrite append_nil_r, Hback. cbn [bind].
    fold key. rewrite Hdec. cbn [bind].
    unfold data. rewrite utf8_law.
    now rewrite strip_illegal_padding, strip_illegal_filter.
  - apply without_controls_fixed.
Qed.

Lemma strip_illegal_clean s :
  all_chars (fun c => (32 <=? code c)%N) (strip_illegal s) = true.
Proof.
  induction s as [|c s IH]; simpl; [reflexivity|].
  rewrite illegal_char_below_32.
  destruct (code c <? 32)%N eqn:E; cbn [all_chars]; [assumption|].
  now rewrite N.leb_antisym, E, IH.
Qed.

(** X5.  Whatever the libraries do, [AESDecrypt] returns nothing but [False]
    or a text, and that text has no character below U+0020. *)
Theorem AESDecrypt_returns_text_without_controls_or_False
  (key ciphertext x : value) :
  AESDecrypt key ciphertext = Ok x ->
  x = VBool false
  \/ exists text, x = VStr text
                  /\ all_chars (fun c => (32 <=? code c)%N) text = true.
Proof.
  unfold AESDecrypt.
  destruct (aes_arguments_ok key ciphertext); [|discriminate].
  destruct key as [| | |k| |]; try discriminate.
  destruct ciphertext as [| | |c| |]; try discriminate.
  destruct (b64decode _) as [raw|e]; [|discriminate]. cbn [bind].
  destruct (aes_cbc_decrypt _ _ raw) as [msg|e]; [|discriminate]. cbn [bind].
  destruct (bytes_decode msg) as [text|]; intros [= <-]; [right | now left].
  eexists. split; [reflexivity | apply strip_illegal_clean].
Qed.

End AESText.

(** ** [get_current_timestamp] *)

Section Timestamps.

Local Open Scope N_scope.

Ltac euclid := zify; Z.to_euclidean_division_equations; lia.

Lemma N_range_In count :
  forall start y,
    start <= y < start + N.of_nat count -> In y (N_range start count).
Proof.
  induction count as [|count IH]; intros start y H.
  - simpl in H. lia.
  - cbn [N_range]. destruct (N.eq_dec start y) as [->|Hne]; [now left|].
    right. apply IH. lia.
Qed.

(** A year of four digits is written as two pairs of digits. *)
Lemma year_digits_four y :
  1000 <= y <= 9999 ->
  Time.year_digits y
  = (Time.two_digits (y / 100) ++ Time.two_digits (y mod 100))%string.
Proof.
  intros H.
  assert (E : forallb (fun y => String.eqb (Time.year_digits y)
                                  (Time.two_digits (y / 100)
                                   ++ Time.two_digits (y mod 100)))
                (N_range 1000 (N.to_nat 9000)) = true) by (vm_compute; reflexivity).
  rewrite forallb_forall in E. apply String.eqb_eq, E, N_range_In.
  rewrite N2Nat.id. lia.
Qed.

Lemma digit_compare a b :
  a < 10 -> b < 10 ->
  Ascii.compare (Time.digit a) (Time.digit b) = N.compare a b.
Proof.
  intros Ha Hb.
  assert (E : forall n, n < 10 -> In n (N_range 0 10)).
  { intros n Hn. apply N_range_In. simpl. lia. }
  apply E in Ha, Hb. cbn [N_range N.succ Pos.succ] in Ha, Hb.
  repeat (destruct Ha as [<-|Ha];
          [repeat (destruct Hb as [<-|Hb]; [reflexivity|]); destruct Hb|]).
  destruct Ha.
Qed.

Lemma compare_div_mod d a b :
  0 < d ->
  N.compare a b
  = match N.compare (a / d) (b / d) with
    | Eq => N.compare (a mod d) (b mod d)
    | c => c
    end.
Proof.
  intros Hd.
  pose proof (N.div_mod a d ltac:(lia)) as Ea.
  pose proof (N.div_mod b d ltac:(lia)) as Eb.
  pose proof (N.mod_upper_bound a d ltac:(lia)) as Ha.
  pose proof (N.mod_upper_bound b d ltac:(lia)) as Hb.
  set (qa := a / d) in *. set (qb := b / d) in *.
  set (ra := a mod d) in *. set (rb := b mod d) in *.
  destruct (N.compare_spec qa qb) as [E|L|L].
  - destruct (N.compare_spec ra rb) as [E'|L'|L'].
    + apply N.compare_eq_iff. congruence.
    + apply N.compare_lt_iff. rewrite E in Ea. lia.
    + apply N.compare_gt_iff. rewrite E in Ea. lia.
  - apply N.compare_lt_iff. nia.
  - apply N.compare_gt_iff. nia.
Qed.

Lemma two_digits_compare a b s s' :
  a < 100 -> b < 100 ->
  String.compare (Time.two_digits a ++ s) (Time.two_digits b ++ s')
  = match N.compare a b with
    | Eq => String.compare s s'
    | c => c
    end.
Proof.
  intros Ha Hb. unfold Time.two_digits. cbn [append String.compare].
  assert (Ha10 : a / 10 < 10) by euclid.
  assert (Hb10 : b / 10 < 10) by euclid.
  replace (Time.digit a) with (Time.digit (a mod 10))
    by (unfold Time.digit; now rewrite N.Div0.mod_mod).
  replace (Time.digit b) with (Time.digit (b mod 10))
    by (unfold Time.digit; now rewrite N.Div0.mod_mod).
  rewrite !digit_compare by (assumption || (apply N.mod_upper_bound; lia)).
  rewrite (compare_div_mod 10 a b) by lia.
  destruct (N.compare (a / 10) (b / 10)); reflexivity.
Qed.

Lemma timestamp_text t :
  1000 <= Time.tm_year t <= 9999 ->
  get_current_timestamp t
  = (Time.two_digits (Time.tm_year t / 100)
     ++ Time.two_digits (Time.tm_year t mod 100)
     ++ String "-" (Time.two_digits (Time.tm_mon t)
     ++ String "-" (Time.two_digits (Time.tm_mday t)
     ++ String "T" (Time.two_digits (Time.tm_hour t)
     ++ String ":" (Time.two_digits (Time.tm_min t)
     ++ String ":" (Time.two_digits (Time.tm_sec t) ++ "Z"))))))%string.
Proof.
  intros Hy. unfold get_current_timestamp.
  cbn [Time.strftime Ascii.eqb Bool.eqb Time.directive].
  rewrite (year_digits_four _ Hy). now rewrite append_assoc.
Qed.

Lemma compare_same_head c s s' :
  String.compare (String c s) (String c s') = String.compare s s'.
Proof.
  cbn [String.compare].
  replace (Ascii.compare c c) with Eq; [reflexivity|].
  symmetry. apply N.compare_eq_iff. reflexivity.
Qed.

(** X6.  For the times of the years 1000 to 9999, [get_current_timestamp]
    writes 20 characters, and the order of two timestamps as text is the
    order of the two times: timestamps sort chronologically, and two times
    that differ have different timestamps. *)
Theorem timestamps_sort_chronologically (t u : Time.struct_time) :
  calendar_time t -> calendar_time u ->
  String.length (get_current_timestamp t) = 20%nat
  /\ String.compare (get_current_timestamp t) (get_current_timestamp u)
     = chronological t u
  /\ (get_current_timestamp t = get_current_timestamp u -> t = u).
Proof.
  intros (Hy & Hm & Hd & HH & HM & HS) (Hy' & Hm' & Hd' & HH' & HM' & HS').
  assert (Hcmp : String.compare (get_current_timestamp t) (get_current_timestamp u)
                 = chronological t u).
  { rewrite !timestamp_text by assumption.
    assert (Hq : Time.tm_year t / 100 < 100) by euclid.
    assert (Hq' : Time.tm_year u / 100 < 100) by euclid.
    pose proof (N.mod_upper_bound (Time.tm_year t) 100 ltac:(lia)) as Hr.
    pose proof (N.mod_upper_bound (Time.tm_year u) 100 ltac:(lia)) as Hr'.
    unfold chronological. cbn [lexicographic].
    rewrite (compare_div_mod 100 (Time.tm_year t) (Time.tm_year u)) by lia.
    rewrite two_digits_compare by assumption.
    destruct (N.compare (Time.tm_year t / 100) (Time.tm_year u / 100));
      try reflexivity.
    rewrite two_digits_compare by assumption.
    destruct (N.compare (Time.tm_year t mod 100) (Time.tm_year u mod 100));
      try reflexivity.
    rewrite compare_same_head, two_digits_compare by lia.
    destruct (N.compare (Time.tm_mon t) (Time.tm_mon u)); try reflexivity.
    rewrite compare_same_head, two_digits_compare by lia.
    destruct (N.compare (Time.tm_mday t) (Time.tm_mday u)); try reflexivity.
    rewrite compare_same_head, two_digits_compare by lia.
    destruct (N.compare (Time.tm_hour t) (Time.tm_hour u)); try reflexivity.
    rewrite compare_same_head, two_digits_compare by lia.
    destruct (N.compare (Time.tm_min t) (Time.tm_min u)); try reflexivity.
    rewrite compare_same_head, two_digits_compare by lia.
    destruct (N.compare (Time.tm_sec t) (Time.tm_sec u)); reflexivity. }
  split; [|split].
  - rewrite timestamp_text by assumption. reflexivity.
  - exact Hcmp.
  - intros E. rewrite E in Hcmp. rewrite compare_refl in Hcmp.
    unfold chronological in Hcmp. cbn [lexicographic] in Hcmp.
    destruct t as [y m d H M S], u as [y' m' d' H' M' S'].
    cbn [Time.tm_year Time.tm_mon Time.tm_mday Time.tm_hour Time.tm_min
         Time.tm_sec] in *.
    destruct (N.compare_spec y y'); try discriminate.
    destruct (N.compare_spec m m'); try discriminate.
    destruct (N.compare_spec d d'); try discriminate.
    destruct (N.compare_spec H H'); try discriminate.
    destruct (N.compare_spec M M'); try discriminate.
    destruct (N.compare_spec S S'); try discriminate.
    congruence.
Qed.

End Timestamps.

(** ** [md5] and [genAesKey] *)

Section Digest.

Context {lib : Library}.

Lemma hex_digit_lower n : lower_hex (MD5.hex_digit (n mod 16)) = true.
Proof.
  assert (H : forall m, (m < 16)%N -> lower_hex (MD5.hex_digit m) = true).
  { intros m Hm. destruct m as [|p]; [reflexivity|].
    do 4 (destruct p as [p|p|]; try reflexivity); lia. }
  apply H, N.mod_upper_bound. discriminate.
Qed.

Lemma hexdigest_lower bs : all_chars lower_hex (MD5.hexdigest bs) = true.
Proof.
  unfold MD5.hexdigest.
  destruct (fold_left MD5.compress _ MD5.init) as [[[a b] c] d].
  unfold MD5.hex_word, MD5.hex_byte. cbn [append all_chars].
  rewrite !hex_digit_lower. reflexivity.
Qed.

Lemma lower_hex_ascii s :
  all_chars lower_hex s = true -> all_chars is_ascii s = true.
Proof.
  apply all_chars_impl. intros c. unfold lower_hex, is_ascii.
  rewrite orb_true_iff, !andb_true_iff, !N.leb_le, N.ltb_lt. lia.
Qed.

(** X7.  [md5] returns 32 hexadecimal digits in lower case, for text and for
    bytes.  So the key that [genAesKey] makes, whatever the random bytes are,
    has 32 characters and 32 bytes once encoded, and [AESEncrypt] and
    [AESDecrypt] refuse no argument on its account: under it their test fails
    for the empty text only. *)
Theorem md5_is_32_hex_digits :
  (forall m, String.length (md5 m) = 32 /\ all_chars lower_hex (md5 m) = true)
  /\ (forall random,
        String.length (genAesKey random) = 32
        /\ List.length (str_encode (genAesKey random)) = 32
        /\ forall text,
            aes_arguments_ok (VStr (genAesKey random)) (VStr text)
            = negb (String.eqb text "")).
Proof.
  assert (Hmd5 : forall m,
            String.length (md5 m) = 32 /\ all_chars lower_hex (md5 m) = true).
  { intros [s|b]; (split; [apply hexdigest_shape | apply hexdigest_lower]). }
  split; [exact Hmd5|].
  intros random. destruct (Hmd5 (Bytes random)) as [Hlen Hhex].
  fold (genAesKey random) in Hlen, Hhex.
  split; [exact Hlen|]. split.
  - rewrite str_encode_length; [exact Hlen | now apply lower_hex_ascii].
  - intros text. unfold aes_arguments_ok. cbn [truthy is_text].
    rewrite Hlen. cbn [Nat.modulo Nat.eqb].
    destruct (genAesKey random) as [|c k]; [discriminate|].
    cbn [String.eqb negb andb]. now rewrite andb_true_r.
Qed.

End Digest.

(** ** [conversionComma] *)

Section CommaLists.

Lemma space_no_comma c : is_space c = true -> Ascii.eqb c "," = false.
Proof.
  intros H. destruct (Ascii.eqb_spec c ","%char) as [->|];
    [discriminate | reflexivity].
Qed.

(** White space right after a comma belongs to the separator. *)
Lemma comma_split_skip b rest :
  all_chars is_space b = true ->
  comma_split true "" "" (b ++ rest) = comma_split true "" "" rest.
Proof.
  induction b as [|c b IH]; simpl; [reflexivity|].
  rewrite andb_true_iff. intros [Hc Hb].
  now rewrite (space_no_comma c Hc), Hc, IH.
Qed.

(** So does white space before a comma. *)
Lemma comma_split_separator a b cur ws rest :
  all_chars is_space a = true -> all_chars is_space b = true ->
  comma_split false cur ws (a ++ "," ++ b ++ rest)
  = cur :: comma_split true "" "" rest.
Proof.
  intros Ha Hb. revert ws. induction a as [|c a IH]; intros ws.
  - simpl. now rewrite comma_split_skip.
  - simpl in Ha. apply andb_true_iff in Ha. destruct Ha as [Hc Ha].
    cbn [append comma_split]. rewrite (space_no_comma c Hc), Hc. now apply IH.
Qed.

(** A key is read up to its last character, inner white space included. *)
Lemma comma_split_key k :
  forall cur ws rest,
    k <> EmptyString -> ends_clean k = true -> all_chars no_comma k = true ->
    comma_split false cur ws (k ++ rest)
    = comma_split false (cur ++ ws ++ k) "" rest.
Proof.
  induction k as [|c k IH]; intros cur ws rest Hne Hend Hnc; [congruence|].
  cbn [all_chars] in Hnc. apply andb_true_iff in Hnc. destruct Hnc as [Hc Hk].
  unfold no_comma in Hc. apply negb_true_iff in Hc.
  cbn [append comma_split]. rewrite Hc.
  destruct k as [|c' k'].
  - cbn [ends_clean] in Hend. apply negb_true_iff in Hend. rewrite Hend.
    reflexivity.
  - assert (Hend' : ends_clean (String c' k') = true) by exact Hend.
    destruct (is_space c).
    + rewrite IH by (congruence || assumption).
      now rewrite !append_assoc.
    + rewrite IH by (congruence || assumption).
      now rewrite !append_assoc.
Qed.

Lemma comma_split_first k rest :
  starts_clean k = true -> ends_clean k = true -> all_chars no_comma k = true ->
  comma_split true "" "" (k ++ rest) = comma_split false k "" rest.
Proof.
  intros Hs He Hn. destruct k as [|c k]; [discriminate|].
  cbn [starts_clean] in Hs. apply negb_true_iff in Hs.
  cbn [all_chars] in Hn. apply andb_true_iff in Hn. destruct Hn as [Hc Hk].
  unfold no_comma in Hc. apply negb_true_iff in Hc.
  cbn [append comma_split]. rewrite Hc, Hs.
  destruct k as [|c' k']; [reflexivity|].
  rewrite comma_split_key by (congruence || assumption). reflexivity.
Qed.

Lemma plain_key_parts k :
  plain_key k = true ->
  starts_clean k = true /\ ends_clean k = true /\ all_chars no_comma k = true.
Proof. unfold plain_key. rewrite !andb_true_iff. tauto. Qed.

Lemma comma_split_concat sep l :
  comma_separator sep -> l <> [] ->
  Forall (fun k => plain_key k = true) l ->
  comma_split true "" "" (String.concat sep l) = l.
Proof.
  intros (a & b & Ha & Hb & ->) Hne Hl.
  induction Hl as [|k l Hk Hl IH]; [congruence|].
  apply plain_key_parts in Hk. destruct Hk as (Hs & He & Hn).
  destruct l as [|k' l'].
  - cbn [String.concat]. rewrite <- (append_nil_r k) at 1.
    rewrite comma_split_first by assumption. cbn [comma_split].
    now rewrite append_nil_r.
  - change (String.concat (a ++ "," ++ b) (k :: k' :: l'))
      with (k ++ (a ++ "," ++ b) ++ String.concat (a ++ "," ++ b) (k' :: l')).
    rewrite comma_split_first by assumption.
    rewrite !append_assoc.
    change (("," ++ b) ++ ?x) with ("," ++ b ++ x).
    rewrite comma_split_separator by assumption.
    rewrite IH by congruence. reflexivity.
Qed.

Lemma comma_split_start s :
  starts_clean s = true ->
  comma_split false "" "" s = comma_split true "" "" s.
Proof.
  destruct s as [|c s]; [discriminate|]. cbn [starts_clean comma_split].
  intros H. apply negb_true_iff in H. now rewrite H.
Qed.

Lemma plain_key_nonempty k : plain_key k = true -> nonempty k = true.
Proof. destruct k; [discriminate | reflexivity]. Qed.

Lemma filter_all {A : Type} (p : A -> bool) l :
  Forall (fun x => p x = true) l -> filter p l = l.
Proof.
  induction 1 as [|x l Hx Hl IH]; simpl; [reflexivity|]. now rewrite Hx, IH.
Qed.

(** X8.  [conversionComma] reads back a list of keys that was written with a
    comma between them, with or without white space around the comma: for
    keys without a comma and without white space at either end (white space
    inside a key is kept), joining and splitting gives the same list. *)
Theorem conversionComma_reads_what_join_writes (sep : string) (l : list string) :
  comma_separator sep ->
  Forall (fun k => plain_key k = true) l ->
  conversionComma (VStr (String.concat sep l)) = l.
Proof.
  intros Hsep Hl. destruct l as [|k l]; [reflexivity|].
  assert (Hstart : starts_clean (String.concat sep (k :: l)) = true).
  { inversion Hl as [|? ? Hk _]; subst. apply plain_key_parts in Hk.
    destruct Hk as (Hs & _ & _). destruct k as [|c k]; [discriminate|].
    destruct l; exact Hs. }
  unfold conversionComma. cbn [truthy].
  destruct (String.concat sep (k :: l)) as [|c s] eqn:E; [discriminate|].
  cbn [String.eqb negb]. rewrite <- E in *.
  rewrite comma_split_start by assumption.
  rewrite comma_split_concat by (assumption || congruence).
  apply filter_all. revert Hl. apply Forall_impl. exact plain_key_nonempty.
Qed.

(** Nothing that [comma_split] returns holds a comma. *)
Lemma comma_split_no_comma s :
  forall skip cur ws,
    all_chars no_comma cur = true -> all_chars no_comma ws = true ->
    Forall (fun k => all_chars no_comma k = true) (comma_split skip cur ws s).
Proof.
  induction s as [|c s IH]; intros skip cur ws Hcur Hws; cbn [comma_split].
  - constructor; [|constructor]. now rewrite all_chars_app, Hcur, Hws.
  - destruct (Ascii.eqb c ",") eqn:Ec.
    + constructor; [assumption|]. now apply IH.
    + assert (Hc : all_chars no_comma (String c "") = true).
      { simpl. unfold no_comma. now rewrite Ec. }
      destruct (is_space c).
      * destruct skip; apply IH; auto.
        now rewrite all_chars_app, Hws, Hc.
      * apply IH; [|reflexivity].
        now rewrite !all_chars_app, Hcur, Hws, Hc.
Qed.

(** X9.  No key that [conversionComma] returns is empty or holds a comma, so a
    payload key with a comma in it can never be listed; and for what is not
    text (a list of keys, [None], a number), as for the empty text, it
    returns no key at all. *)
Theorem conversionComma_keys (comma_str : value) :
  (forall k, In k (conversionComma comma_str) ->
             k <> EmptyString /\ all_chars no_comma k = true)
  /\ (is_text comma_str = false -> conversionComma comma_str = [])
  /\ conversionComma (VStr "") = [].
Proof.
  split; [|split].
  - intros k Hk. unfold conversionComma in Hk.
    destruct comma_str as [| | |s| |]; try contradiction.
    destruct (truthy (VStr s)); [|contradiction].
    apply filter_In in Hk. destruct Hk as [Hin Hne]. split.
    + intros ->. discriminate.
    + pose proof (comma_split_no_comma s false "" "" eq_refl eq_refl) as H.
      rewrite Forall_forall in H. now apply H.
  - destruct comma_str; try reflexivity. discriminate.
  - reflexivity.
Qed.

End CommaLists.

(** ** The signing string *)

Section CanonicalString.

Context {lib : Library}.

Lemma percent_char_url c : all_chars url_char (percent_char c) = true.
Proof. destruct c as [[] [] [] [] [] [] [] []]; reflexivity. Qed.

Lemma percent_encode_url s : all_chars url_char (percent_encode s) = true.
Proof.
  induction s as [|c s IH]; simpl; [reflexivity|].
  now rewrite all_chars_app, percent_char_url.
Qed.

Lemma percent_decode_char c r :
  percent_decode (percent_char c ++ r) = String c (percent_decode r).
Proof. destruct c as [[] [] [] [] [] [] [] []]; reflexivity. Qed.

Lemma percent_decode_encode s : percent_decode (percent_encode s) = s.
Proof.
  induction s as [|c s IH]; simpl; [reflexivity|].
  now rewrite percent_decode_char, IH.
Qed.

Lemma percent_encode_inj s s' : percent_encode s = percent_encode s' -> s = s'.
Proof.
  intros H. rewrite <- (percent_decode_encode s), <- (percent_decode_encode s').
  now rewrite H.
Qed.

Lemma encode_basestring_inj s s' :
  Json.encode_basestring_ascii s = Json.encode_basestring_ascii s' -> s = s'.
Proof.
  unfold Json.encode_basestring_ascii. intros [= H].
  pose proof (read_string_escape s EmptyString) as E.
  rewrite H, read_string_escape in E. congruence.
Qed.

(** Text without the character [x] ends where the first [x] stands. *)
Lemma split_at (x : ascii) a :
  forall a' r r',
    all_chars (fun c => negb (Ascii.eqb c x)) a = true ->
    all_chars (fun c => negb (Ascii.eqb c x)) a' = true ->
    a ++ String x r = a' ++ String x r' -> a = a' /\ r = r'.
Proof.
  induction a as [|c a IH]; intros [|c' a'] r r' Ha Ha';
    cbn [append all_chars] in *.
  - intros [= ->]. auto.
  - intros [= <- _]. rewrite Ascii.eqb_refl in Ha'. discriminate.
  - intros [= -> _]. rewrite Ascii.eqb_refl in Ha. discriminate.
  - apply andb_true_iff in Ha, Ha'. destruct Ha as [_ Ha]. destruct Ha' as [_ Ha'].
    intros [= -> H]. destruct (IH _ _ _ Ha Ha' H) as [-> ->]. auto.
Qed.

Lemma url_text_has_no (x : ascii) s :
  url_char x = false -> all_chars url_char s = true ->
  all_chars (fun c => negb (Ascii.eqb c x)) s = true.
Proof.
  intros Hx. apply all_chars_impl. intros c Hc.
  destruct (Ascii.eqb_spec c x) as [->|]; [congruence | reflexivity].
Qed.

Lemma percent_encode_has_no (x : ascii) v :
  url_char x = false ->
  all_chars (fun c => negb (Ascii.eqb c x)) (_percent_encode v) = true.
Proof.
  intros Hx. apply url_text_has_no; [assumption|].
  rewrite percent_encode_text. apply percent_encode_url.
Qed.

Lemma flatten_cons_field kv l :
  flatten (map field (kv :: l))
  = _percent_encode (VStr (fst kv))
    ++ String "=" (_percent_encode (snd kv) ++ String "&" (flatten (map field l))).
Proof.
  cbn [map flatten fold_right]. unfold field.
  rewrite !append_assoc. cbn [append]. rewrite ?append_assoc. reflexivity.
Qed.

(** X10.  What [_percent_encode] returns is never empty and is made of
    letters, digits, ['-'], ['_'], ['.'], ['~'] and ['%'] only; so the signing
    string has no other character than those and its delimiters ['='] and
    ['&'], whatever the payload holds. *)
Theorem signing_string_alphabet :
  (forall v, all_chars url_char (_percent_encode v) = true
             /\ _percent_encode v <> EmptyString)
  /\ (forall items, all_chars query_char (canonicalize items) = true).
Proof.
  assert (Henc : forall v, all_chars url_char (_percent_encode v) = true).
  { intros v. rewrite percent_encode_text. apply percent_encode_url. }
  split.
  - intros v. split; [apply Henc|].
    rewrite percent_encode_text.
    destruct (Json.dumps_sorted v) as [|c s] eqn:E.
    + now apply dumps_nonempty in E.
    + cbn [percent_encode]. unfold percent_char.
      destruct (Url.always_safe true c); discriminate.
  - intros items. rewrite canonicalize_fields.
    assert (Hq : forall s, all_chars url_char s = true ->
                           all_chars query_char s = true).
    { intros s. apply all_chars_impl. intros c Hc. unfold query_char.
      now rewrite Hc. }
    induction items as [|kv items IH]; [reflexivity|].
    rewrite flatten_cons_field, all_chars_app. cbn [all_chars].
    rewrite all_chars_app. cbn [all_chars].
    rewrite !Hq by apply Henc. now rewrite IH.
Qed.

(** The signing string can be taken apart again: the delimiters are not among
    the characters of an encoded key or value, and the encoding of a key and
    of a value can be read back. *)
Lemma canonicalize_inj (items items' : list (string * value)) :
  canonicalize items = canonicalize items' ->
  map signed_text items = map signed_text items'.
Proof.
  rewrite !canonicalize_fields. revert items'.
  induction items as [|kv items IH]; intros [|kv' items'].
  - reflexivity.
  - rewrite flatten_cons_field. cbn [map flatten fold_right].
    destruct (_percent_encode (VStr (fst kv'))); discriminate.
  - rewrite flatten_cons_field. cbn [map flatten fold_right].
    destruct (_percent_encode (VStr (fst kv))); discriminate.
  - rewrite !flatten_cons_field. intros H.
    apply split_at in H; try (now apply percent_encode_has_no).
    destruct H as [Hk H].
    apply split_at in H; try (now apply percent_encode_has_no).
    destruct H as [Hv H].
    cbn [map]. f_equal; [|now apply IH].
    rewrite !percent_encode_text in Hk, Hv.
    apply percent_encode_inj in Hk, Hv.
    apply encode_basestring_inj in Hk.
    unfold signed_text. now rewrite Hk, Hv.
Qed.

Lemma dict_get_sorted (d : dict value) k :
  is_mapping d -> dict_get k (sorted_items d) = dict_get k d.
Proof.
  intros Hd.
  assert (Hs : is_mapping (sorted_items d)) by now apply is_mapping_sorted.
  destruct (dict_get k d) as [v|] eqn:E.
  - apply In_dict_get; [assumption|].
    eapply Permutation_in; [apply Permutation_sym, sorted_items_perm|].
    now apply dict_get_In.
  - destruct (dict_get k (sorted_items d)) as [v|] eqn:E'; [|reflexivity].
    apply dict_get_In in E'.
    assert (Hin : In (k, v) d)
      by (eapply Permutation_in; [apply sorted_items_perm | exact E']).
    apply (In_dict_get _ _ _ Hd) in Hin. congruence.
Qed.

Lemma dict_get_map_values {A B : Type} (g : A -> B) (l : dict A) k :
  dict_get k (map (fun kv => (fst kv, g (snd kv))) l)
  = option_map g (dict_get k l).
Proof.
  induction l as [|[k0 v0] l IH]; simpl; [reflexivity|].
  destruct (String.eqb k k0); [reflexivity | exact IH].
Qed.

Lemma keys_map_values {A B : Type} (g : A -> B) (l : dict A) :
  keys (map (fun kv => (fst kv, g (snd kv))) l) = keys l.
Proof. unfold keys. rewrite map_map. reflexivity. Qed.

(** Sorting by key and rewriting the values can be done in either order. *)
Lemma insert_item_map {A B : Type} (g : A -> B) (x : string * A) l :
  map (fun kv => (fst kv, g (snd kv))) (insert_item x l)
  = insert_item (fst x, g (snd x)) (map (fun kv => (fst kv, g (snd kv))) l).
Proof.
  induction l as [|y l IH]; [reflexivity|]. cbn [insert_item map fst].
  destruct (String.leb (fst x) (fst y)); [reflexivity|].
  cbn [map]. now rewrite IH.
Qed.

Lemma sorted_items_map {A B : Type} (g : A -> B) (l : dict A) :
  map (fun kv => (fst kv, g (snd kv))) (sorted_items l)
  = sorted_items (map (fun kv => (fst kv, g (snd kv))) l).
Proof.
  induction l as [|x l IH]; [reflexivity|].
  cbn [sorted_items fold_right map]. rewrite insert_item_map. f_equal. exact IH.
Qed.

Lemma canonicalize_sorted_inj (data data' : dict value) :
  is_mapping data -> is_mapping data' ->
  canonicalize (sorted_items data) = canonicalize (sorted_items data') ->
  same_text data data'.
Proof.
  intros Hd Hd' H k. apply canonicalize_inj in H.
  rewrite <- (dict_get_sorted data k Hd), <- (dict_get_sorted data' k Hd').
  rewrite <- !(dict_get_map_values Json.dumps_sorted).
  fold signed_text. now rewrite H.
Qed.

(** The signing string is made from the keys and the JSON texts, and from
    nothing else. *)
Lemma canonicalize_text items items' :
  map signed_text items = map signed_text items' ->
  canonicalize items = canonicalize items'.
Proof.
  rewrite !canonicalize_fields. revert items'.
  induction items as [|kv items IH]; intros [|kv' items']; try discriminate.
  - reflexivity.
  - cbn [map]. intros [= Hk Hv H]. cbn [flatten fold_right].
    fold (flatten (map field items)). fold (flatten (map field items')).
    rewrite (IH _ H). f_equal. unfold field.
    rewrite !percent_encode_text. unfold Json.dumps_sorted in *.
    cbn [Json.dumps]. now rewrite Hk, Hv.
Qed.

Lemma canonicalize_same_text (data data' : dict value) :
  is_mapping data -> is_mapping data' -> same_text data data' ->
  canonicalize (sorted_items data) = canonicalize (sorted_items data').
Proof.
  intros Hd Hd' H. apply canonicalize_text. unfold signed_text.
  rewrite !sorted_items_map. apply sorted_items_ext.
  - unfold is_mapping. now rewrite keys_map_values.
  - unfold is_mapping. now rewrite keys_map_values.
  - intros k. rewrite !dict_get_map_values. apply H.
Qed.

(** X11.  The signing string is unambiguous.  Two lists of pairs with the same
    signing string have the same keys, in the same order, and values with the
    same JSON text.  So two dictionaries have the same signing string exactly
    when they have the same keys and, at each key, values with the same JSON
    text: what is hashed determines what was signed, and nothing else goes
    into it. *)
Theorem signing_string_is_unambiguous :
  (forall items items' : list (string * value),
      canonicalize items = canonicalize items' ->
      map signed_text items = map signed_text items')
  /\ (forall data data' : dict value,
        is_mapping data -> is_mapping data' ->
        (canonicalize (sorted_items data) = canonicalize (sorted_items data')
         <-> same_text data data')).
Proof.
  split; [exact canonicalize_inj|].
  intros data data' Hd Hd'. split.
  - now apply canonicalize_sorted_inj.
  - now apply canonicalize_same_text.
Qed.

End CanonicalString.

(** ** The meanings of [SignatureIndex] *)

Section SignatureIndexMeaning.

Context {lib : Library}.

(** What is hashed once the data is chosen: one field per pair, the pairs of
    the metadata and, at the keys the metadata does not have, those of the
    data, in strictly increasing order of their keys. *)
Lemma signing_string_of (data M : dict value) :
  is_mapping data -> is_mapping M ->
  exists items,
    canonicalize (sorted_items (dict_update data M)) = flatten (map field items)
    /\ StronglySorted key_lt items
    /\ (forall k v,
          In (k, v) items <->
          dict_get k M = Some v
          \/ (dict_get k M = None /\ dict_get k data = Some v)).
Proof.
  intros Hd HM. exists (sorted_items (dict_update data M)).
  destruct (signed_items data M Hd HM) as [Hs Hin].
  split; [apply canonicalize_fields|]. split; assumption.
Qed.

(** C4, as the code has it.  [SignatureIndex] is read in three ways.
    [False]: [sign] returns [None].  [None], and the empty text as well: the
    digest is that of the signing string with one [key=value&] field per
    entry of the payload merged with the metadata, the metadata's value at a
    key both have; every key of the payload is among the signed keys.  A
    non-empty text whose listed keys are in the payload: the signing string
    has one field per entry of the metadata and per payload entry at a listed
    key the metadata does not have, and no other; the signed keys are the
    listed ones and the metadata's; a payload with the same values at the
    listed keys gets the same signature.  In each case the signing string
    determines the keys and the JSON text of the values it was made from.
    The text ["a,b"] lists [a] and [b]; the empty text lists nothing. *)
Theorem SignatureIndex_three_valued (P M : dict value) :
  is_mapping P -> is_mapping M ->
  (signature_index M = VBool false -> sign (VDict P) (VDict M) = Ok VNone)
  /\ (signature_index M = VNone \/ signature_index M = VStr "" ->
      exists items,
        sign (VDict P) (VDict M)
        = Ok (VStr (md5 (Text (flatten (map field items)))))
        /\ StronglySorted key_lt items
        /\ (forall k v,
              In (k, v) items <->
              dict_get k M = Some v
              \/ (dict_get k M = None /\ dict_get k P = Some v))
        /\ (forall k, In k (keys P) -> In k (keys items)))
  /\ (forall s,
        signature_index M = VStr s -> s <> EmptyString ->
        (forall k, In k (conversionComma (VStr s)) -> In k (keys P)) ->
        exists items,
          sign (VDict P) (VDict M)
          = Ok (VStr (md5 (Text (flatten (map field items)))))
          /\ StronglySorted key_lt items
          /\ (forall k v,
                In (k, v) items <->
                dict_get k M = Some v
                \/ (dict_get k M = None /\ In k (conversionComma (VStr s))
                    /\ dict_get k P = Some v))
          /\ (forall k, In k (keys items) <->
                        In k (conversionComma (VStr s)) \/ In k (keys M))
          /\ (forall P' : dict value,
                (forall k, In k (conversionComma (VStr s)) ->
                           dict_get k P' = dict_get k P) ->
                sign (VDict P') (VDict M) = sign (VDict P) (VDict M)))
  /\ (forall items items' : list (string * value),
        flatten (map field items) = flatten (map field items') ->
        map signed_text items = map signed_text items')
  /\ conversionComma (VStr "a,b") = ["a"; "b"]
  /\ conversionComma (VStr "") = [].
Proof.
  intros HP HM.
  pose proof (sign_data_branches P M) as Hb.
  assert (Hkeys : forall (items : list (string * value)) k,
            In k (keys items) <-> exists v, In (k, v) items).
  { intros items k. unfold keys. rewrite in_map_iff. split.
    - intros ([k' v] & E & Hin). simpl in E. subst k'. eauto.
    - intros [v Hin]. exists (k, v). auto. }
  split; [|split; [|split; [|split; [|split]]]].
  - intros E. rewrite sign_unfold, Hb, E. reflexivity.
  - intros E.
    assert (Hdata : sign_data P M = Ok (Some (dict_update P M))).
    { rewrite Hb. destruct E as [-> | ->]; reflexivity. }
    destruct (signing_string_of P M HP HM) as (items & Htext & Hs & Hin).
    exists items. rewrite sign_unfold, Hdata, Htext.
    split; [reflexivity|]. split; [assumption|]. split; [assumption|].
    intros k Hk. apply Hkeys. apply In_keys_get in Hk. destruct Hk as [v Hv].
    destruct (dict_get k M) as [w|] eqn:Ew.
    + exists w. apply Hin. now left.
    + exists v. apply Hin. right. auto.
  - intros s E Hs Hlisted.
    apply String.eqb_neq in Hs. rewrite E, Hs in Hb.
    destruct (select_keys_ok (conversionComma (VStr s)) P [] Hlisted)
      as (sel & Hok & Hmap & Hget).
    rewrite Hok in Hb. cbn [bind] in Hb.
    assert (Hsel : is_mapping sel) by (apply Hmap; constructor).
    destruct (signing_string_of sel M Hsel HM) as (items & Htext & Hsorted & Hin).
    assert (Hin' : forall k v,
              In (k, v) items <->
              dict_get k M = Some v
              \/ (dict_get k M = None /\ In k (conversionComma (VStr s))
                  /\ dict_get k P = Some v)).
    { intros k v. rewrite Hin, Hget.
      destruct (in_dec string_dec k (conversionComma (VStr s))) as [Hk|Hk]; simpl.
      - tauto.
      - split; intros [H|H]; auto.
        + destruct H as [_ H]. discriminate.
        + tauto. }
    exists items.
    split; [rewrite sign_unfold, Hb, Htext; reflexivity|].
    split; [assumption|]. split; [exact Hin'|]. split.
    + intros k. rewrite Hkeys. split.
      * intros [v Hv]. apply Hin' in Hv. destruct Hv as [Hv|(_ & Hk & _)].
        -- right. apply In_keys_get. eauto.
        -- now left.
      * intros [Hk|Hk].
        -- destruct (dict_get k M) as [w|] eqn:Ew.
           ++ exists w. apply Hin'. now left.
           ++ destruct (proj1 (In_keys_get k P) (Hlisted k Hk)) as [v Hv].
              exists v. apply Hin'. right. auto.
        -- apply In_keys_get in Hk. destruct Hk as [w Hw].
           exists w. apply Hin'. now left.
    + intros P' Hagree. rewrite !sign_unfold, Hb.
      rewrite (sign_data_branches P' M), E, Hs.
      rewrite (select_keys_ext _ P' P [] Hagree), Hok. reflexivity.
  - intros items items' H. apply canonicalize_inj.
    now rewrite !canonicalize_fields.
  - reflexivity.
  - reflexivity.
Qed.

End SignatureIndexMeaning.

(** ** What [sign] raises, returns and covers *)

Section SignerEdges.

Context {lib : Library}.

Lemma select_keys_raises ks :
  forall (P data : dict value) e,
    select_keys ks P data = Raise e ->
    e = KeyError /\ exists k, In k ks /\ dict_get k P = None.
Proof.
  induction ks as [|k0 ks IH]; intros P data e; simpl; [discriminate|].
  destruct (dict_get k0 P) as [v|] eqn:E.
  - intros H. destruct (IH _ _ _ H) as (He & k & Hin & Hk).
    split; [assumption|]. exists k. auto.
  - intros [= <-]. split; [reflexivity|]. exists k0. auto.
Qed.

(** X12.  [sign] raises in two cases and no other: [TypeError], exactly when
    the parameters or the metadata are not a dictionary; [KeyError], exactly
    when [SignatureIndex] is a text that lists a key the parameters do not
    have. *)
Theorem sign_raises (parameters meta : value) (e : exn) :
  sign parameters meta = Raise e <->
  (e = TypeError /\ (is_dict parameters = false \/ is_dict meta = false))
  \/ (e = KeyError
      /\ exists P M s k,
          parameters = VDict P /\ meta = VDict M
          /\ signature_index M = VStr s
          /\ In k (conversionComma (VStr s)) /\ dict_get k P = None).
Proof.
  split.
  - destruct parameters as [| | | | |P];
      try (intros [= <-]; left; split; [reflexivity | now left]).
    destruct meta as [| | | | |M];
      try (intros [= <-]; left; split; [reflexivity | now right]).
    rewrite sign_unfold, sign_data_branches. intros H. right.
    destruct (signature_index M) as [|[]|n|s|l|d] eqn:Esi; try discriminate.
    destruct (String.eqb s ""); [discriminate|].
    destruct (select_keys (conversionComma (VStr s)) P []) as [sel|e'] eqn:Esel;
      [discriminate|].
    cbn [bind] in H. injection H as <-.
    destruct (select_keys_raises _ _ _ _ Esel) as (-> & k & Hin & Hk).
    split; [reflexivity|]. exists P, M, s, k. auto.
  - intros [[-> Hd]|(-> & P & M & s & k & -> & -> & Esi & Hin & Hk)].
    + destruct parameters; try reflexivity.
      destruct meta; try reflexivity. destruct Hd; discriminate.
    + rewrite sign_unfold, sign_data_branches, Esi.
      destruct (String.eqb_spec s "") as [->|_]; [destruct Hin|].
      now rewrite (select_keys_missing _ _ _ k Hin Hk).
Qed.

(** X13.  When [sign] returns, it returns [None] if [SignatureIndex] is
    [False], and otherwise a text of 32 hexadecimal digits in lower case. *)
Theorem sign_returns (P M : dict value) (x : value) :
  sign (VDict P) (VDict M) = Ok x ->
  (signature_index M = VBool false /\ x = VNone)
  \/ (signature_index M <> VBool false
      /\ exists s, x = VStr s /\ String.length s = 32
                   /\ all_chars lower_hex s = true).
Proof.
  rewrite sign_unfold, sign_data_branches.
  assert (Hd : forall data,
            Ok (VStr (md5 (Text (canonicalize (sorted_items data))))) = Ok x ->
            exists s, x = VStr s /\ String.length s = 32
                      /\ all_chars lower_hex s = true).
  { intros data [= <-]. eexists. split; [reflexivity|].
    split; [apply hexdigest_shape | apply hexdigest_lower]. }
  destruct (signature_index M) as [|[]|n|s|l|d];
    try (intros H; right; split; [discriminate | exact (Hd _ H)]).
  - intros [= <-]. now left.
  - destruct (String.eqb s "");
      [intros H; right; split; [discriminate | exact (Hd _ H)]|].
    destruct (select_keys _ P []) as [sel|e]; [|discriminate].
    intros H; right; split; [discriminate | exact (Hd _ H)].
Qed.

(** X14.  A [SignatureIndex] that is neither [False] nor a non-empty text
    ([None], the empty text, [True], a number, a list of keys) selects
    nothing: the whole payload is signed, under the metadata.  The
    text that is hashed then determines every payload entry that the metadata
    does not shadow: two payloads with the same signing string have the same
    keys outside the metadata, with values of the same JSON text. *)
Theorem sign_covers_whole_payload_by_default (P P' M : dict value) :
  is_mapping P -> is_mapping P' -> is_mapping M ->
  signature_index M <> VBool false ->
  (forall s, signature_index M = VStr s -> s = EmptyString) ->
  sign (VDict P) (VDict M)
  = Ok (VStr (md5 (Text (canonicalize (sorted_items (dict_update P M))))))
  /\ (canonicalize (sorted_items (dict_update P M))
      = canonicalize (sorted_items (dict_update P' M)) ->
      forall k, dict_get k M = None ->
                option_map Json.dumps_sorted (dict_get k P)
                = option_map Json.dumps_sorted (dict_get k P')).
Proof.
  intros HP HP' HM Hf Hs. split.
  - rewrite sign_unfold, sign_data_branches.
    destruct (signature_index M) as [|[]|n|s|l|d]; try reflexivity.
    + congruence.
    + now rewrite (Hs s eq_refl).
  - intros H k Hk.
    pose proof (canonicalize_sorted_inj _ _ (is_mapping_update P M HP)
                  (is_mapping_update P' M HP') H k) as E.
    now rewrite !dict_get_update, Hk in E by assumption.
Qed.

(** [select_keys] on a payload that differs at [k] only. *)
Lemma select_keys_shadow (P : dict value) k v ks :
  In k (keys P) ->
  forall data data',
    (forall k', k' <> k -> dict_get k' data = dict_get k' data') ->
    match select_keys ks (dict_set k v P) data, select_keys ks P data' with
    | Ok sel, Ok sel' => forall k', k' <> k -> dict_get k' sel = dict_get k' sel'
    | Raise e, Raise e' => e = e'
    | _, _ => False
    end.
Proof.
  intros Hk. apply In_keys_get in Hk. destruct Hk as [v0 Hv0].
  induction ks as [|k0 ks IH]; intros data data' Hsame; cbn [select_keys].
  - exact Hsame.
  - rewrite dict_get_set.
    destruct (String.eqb_spec k0 k) as [->|Hne].
    + rewrite Hv0. apply IH. intros k' Hk'. rewrite !dict_get_set.
      destruct (String.eqb_spec k' k); [contradiction | auto].
    + destruct (dict_get k0 P) as [w|]; [|reflexivity].
      apply IH. intros k' Hk'. rewrite !dict_get_set.
      destruct (String.eqb k' k0); auto.
Qed.

(** X15.  The metadata shadows the payload.  A payload entry whose key is
    also a key of the metadata ([Timestamp], [SignatureVersion],
    [SignatureMethod], [SignatureIndex]) does not reach the signature: giving
    it any other value leaves the result of [sign] as it was. *)
Theorem metadata_shadows_payload (P M : dict value) (k : string) (v : value) :
  is_mapping P -> is_mapping M ->
  In k (keys P) -> In k (keys M) ->
  sign (VDict (dict_set k v P)) (VDict M) = sign (VDict P) (VDict M).
Proof.
  intros HP HM HkP HkM.
  apply In_keys_get in HkM. destruct HkM as [w Hw].
  assert (Hmerge : forall d d',
            is_mapping d -> is_mapping d' ->
            (forall k', k' <> k -> dict_get k' d = dict_get k' d') ->
            sorted_items (dict_update d M) = sorted_items (dict_update d' M)).
  { intros d d' Hd Hd' Hsame. apply sorted_items_ext.
    - now apply is_mapping_update.
    - now apply is_mapping_update.
    - intros k'. rewrite !dict_get_update by assumption.
      destruct (String.eqb_spec k' k) as [->|Hne]; [now rewrite Hw|].
      now rewrite (Hsame k' Hne). }
  assert (Hwhole : sorted_items (dict_update (dict_set k v P) M)
                   = sorted_items (dict_update P M)).
  { apply Hmerge; [now apply is_mapping_set | assumption |].
    intros k' Hne. rewrite dict_get_set.
    destruct (String.eqb_spec k' k); [contradiction | reflexivity]. }
  rewrite !sign_unfold, !sign_data_branches.
  destruct (signature_index M) as [|[]|n|s|l|d]; try reflexivity;
    try (now rewrite Hwhole).
  destruct (String.eqb s ""); [now rewrite Hwhole|].
  pose proof (select_keys_shadow P k v (conversionComma (VStr s)) HkP [] []
                (fun _ _ => eq_refl)) as Hsel.
  destruct (select_keys (conversionComma (VStr s)) (dict_set k v P) [])
    as [sel|e] eqn:E1;
    destruct (select_keys (conversionComma (VStr s)) P []) as [sel'|e'] eqn:E2;
    try contradiction.
  - cbn [bind]. rewrite (Hmerge sel sel'); auto.
    + apply (select_keys_mapping _ _ _ _ E1). constructor.
    + apply (select_keys_mapping _ _ _ _ E2). constructor.
  - now subst.
Qed.

End SignerEdges.

(** ** [sign] and the order of nested dictionaries *)

Section NestedOrder.

Context {lib : Library}.

Lemma same_value_list l m :
  same_value (VList l) (VList m) <-> Forall2 same_value l m.
Proof.
  revert m. induction l as [|a l IH]; intros [|b m]; cbn [same_value].
  - split; constructor.
  - split; [tauto | intros H; inversion H].
  - split; [tauto | intros H; inversion H].
  - split.
    + intros [Hab Hlm]. constructor; [assumption | now apply IH].
    + intros H. inversion H; subst. split; [assumption | now apply IH].
Qed.

Lemma same_value_dict d e :
  same_value (VDict d) (VDict e)
  <-> is_mapping d /\ is_mapping e /\ List.length d = List.length e
      /\ Forall (fun kv => exists y, dict_get (fst kv) e = Some y
                                     /\ same_value (snd kv) y) d.
Proof.
  cbn [same_value]. do 3 apply and_iff_compat_l.
  induction d as [|kv d IH].
  - split; constructor.
  - split.
    + intros [Hkv Hd]. constructor; [|now apply IH].
      destruct (dict_get (fst kv) e) as [y|]; [eauto | contradiction].
    + intros H. inversion H as [|? ? (y & Hy & Hs) Hd]; subst.
      split; [now rewrite Hy | now apply IH].
Qed.

(** Two dictionaries that are the same up to order have the same keys. *)
Lemma same_value_get d e :
  same_value (VDict d) (VDict e) ->
  forall k,
    match dict_get k d, dict_get k e with
    | Some x, Some y => same_value x y
    | None, None => True
    | _, _ => False
    end.
Proof.
  intros H k. apply same_value_dict in H.
  destruct H as (Hd & He & Hlen & Hall). rewrite Forall_forall in Hall.
  destruct (dict_get k d) as [x|] eqn:Ex.
  - apply dict_get_In in Ex. destruct (Hall _ Ex) as (y & Hy & Hs).
    cbn [fst snd] in *. now rewrite Hy.
  - destruct (dict_get k e) as [y|] eqn:Ey; [|exact I].
    apply dict_get_None in Ex. apply Ex.
    assert (Hincl : incl (keys d) (keys e)).
    { intros k' Hk'. apply In_keys_get in Hk'. destruct Hk' as [x Hx].
      apply dict_get_In in Hx. destruct (Hall _ Hx) as (y' & Hy' & _).
      apply In_keys_get. eauto. }
    assert (Hback : incl (keys e) (keys d)).
    { apply NoDup_length_incl; [exact Hd | | exact Hincl].
      unfold keys. rewrite !length_map. lia. }
    apply Hback, In_keys_get. eauto.
Qed.

(** [json.dumps] with [sort_keys] writes the same text for them. *)
Lemma dumps_same item_sep key_sep v :
  forall w, same_value v w ->
            Json.dumps true item_sep key_sep v = Json.dumps true item_sep key_sep w.
Proof.
  induction v as [| | | |l IH|d IH] using value_nested_ind; intros w Hs;
    try (destruct w; cbn [same_value] in Hs; now inversion Hs).
  - destruct w as [| | | |m|]; try contradiction.
    apply same_value_list in Hs. cbn [Json.dumps]. do 3 f_equal.
    induction Hs as [|a b l m Hab Hlm IHl]; [reflexivity|].
    inversion IH; subst. cbn [map]. f_equal; auto.
  - destruct w as [| | | | |e]; try contradiction.
    pose proof (same_value_get _ _ Hs) as Hget.
    apply same_value_dict in Hs. destruct Hs as (Hd & He & _ & _).
    cbn [Json.dumps]. do 4 f_equal.
    apply sorted_items_ext.
    + unfold is_mapping. now rewrite keys_map_values.
    + unfold is_mapping. now rewrite keys_map_values.
    + intros k. rewrite !dict_get_map_values. specialize (Hget k).
      destruct (dict_get k d) as [x|] eqn:Ex;
        destruct (dict_get k e) as [y|]; try contradiction; [|reflexivity].
      cbn [option_map]. f_equal. apply dict_get_In in Ex.
      rewrite Forall_forall in IH. exact (IH _ Ex y Hget).
Qed.

Lemma same_value_text d e : same_value (VDict d) (VDict e) -> same_text d e.
Proof.
  intros H k. pose proof (same_value_get _ _ H k) as Hk.
  destruct (dict_get k d) as [x|]; destruct (dict_get k e) as [y|];
    try contradiction; [|reflexivity].
  cbn [option_map]. f_equal. now apply dumps_same.
Qed.

Lemma same_text_update (d d' m : dict value) :
  is_mapping m -> same_text d d' ->
  same_text (dict_update d m) (dict_update d' m).
Proof.
  intros Hm H k. rewrite !dict_get_update by assumption.
  destruct (dict_get k m); [reflexivity | apply H].
Qed.

Lemma same_text_set k v w (d d' : dict value) :
  Json.dumps_sorted v = Json.dumps_sorted w -> same_text d d' ->
  same_text (dict_set k v d) (dict_set k w d').
Proof.
  intros Hvw H k'. rewrite !dict_get_set.
  destruct (String.eqb k' k); [cbn [option_map]; now f_equal | apply H].
Qed.

Lemma select_keys_same_text (P P' : dict value) ks :
  same_text P P' ->
  forall data data',
    same_text data data' ->
    match select_keys ks P data, select_keys ks P' data' with
    | Ok sel, Ok sel' => same_text sel sel'
    | Raise e, Raise e' => e = e'
    | _, _ => False
    end.
Proof.
  intros HP. induction ks as [|k0 ks IH]; intros data data' Hdata;
    cbn [select_keys]; [exact Hdata|].
  pose proof (HP k0) as Hk0.
  destruct (dict_get k0 P) as [x|]; destruct (dict_get k0 P') as [y|];
    try discriminate; [|reflexivity].
  apply IH. apply same_text_set; [|assumption]. now injection Hk0.
Qed.

(** X16.  [sign] does not see the order of the keys of nested dictionaries
    either.  Two values that differ only in the order in which their
    dictionaries, at any depth, hold their items have the same sorted JSON
    text and the same percent encoding; so two payloads that differ only in
    that way get the same signature, or the same exception. *)
Theorem sign_ignores_nested_order :
  (forall v w,
      same_value v w ->
      Json.dumps_sorted v = Json.dumps_sorted w
      /\ _percent_encode v = _percent_encode w)
  /\ (forall P P' M : dict value,
        is_mapping M ->
        same_value (VDict P) (VDict P') ->
        sign (VDict P) (VDict M) = sign (VDict P') (VDict M)).
Proof.
  split.
  { intros v w H. rewrite !percent_encode_text.
    assert (E : Json.dumps_sorted v = Json.dumps_sorted w)
      by now apply dumps_same.
    now rewrite E. }
  intros P P' M HM Hs.
  pose proof (same_value_text _ _ Hs) as Ht.
  apply same_value_dict in Hs. destruct Hs as (HP & HP' & _ & _).
  rewrite !sign_unfold, !sign_data_branches.
  assert (Hwhole : canonicalize (sorted_items (dict_update P M))
                   = canonicalize (sorted_items (dict_update P' M))).
  { apply canonicalize_same_text;
      [now apply is_mapping_update | now apply is_mapping_update |].
    now apply same_text_update. }
  destruct (signature_index M) as [|[]|n|s|l|d]; try reflexivity;
    try (now rewrite Hwhole).
  destruct (String.eqb s ""); [now rewrite Hwhole|].
  pose proof (select_keys_same_text P P' (conversionComma (VStr s)) Ht [] []
                (fun _ => eq_refl)) as Hsel.
  destruct (select_keys (conversionComma (VStr s)) P []) as [sel|e] eqn:E1;
    destruct (select_keys (conversionComma (VStr s)) P' []) as [sel'|e'] eqn:E2;
    try contradiction.
  - cbn [bind]. do 4 f_equal. apply canonicalize_same_text.
    + apply is_mapping_update, (select_keys_mapping _ _ _ _ E1). constructor.
    + apply is_mapping_update, (select_keys_mapping _ _ _ _ E2). constructor.
    + now apply same_text_update.
  - now subst.
Qed.

End NestedOrder.

(** ** Sending: the body and the keys that [signIndex] lists *)

Section Sending.

Context {lib : Library}.

(** X17.  The body that [clientEncrypt] and [serverEncrypt] encrypt: the data
    is signed first, as it was given, and then its entry [__meta__] is set to
    the five fields of the metadata, the signature last.  Every other entry
    stays as it was; an entry [__meta__] of the caller is replaced in its
    place, and a new one is put last. *)
Theorem with_meta_overwrites_the_reserved_key
  (data : dict value) (signIndex : value) (now : string) (body : dict value) :
  with_meta data signIndex now = Ok body ->
  exists Signature,
    sign (VDict data) (VDict (new_metaData now signIndex)) = Ok Signature
    /\ dict_get "__meta__" body
       = Some (VDict [("Timestamp", VStr now); ("SignatureVersion", VStr "v1");
                      ("SignatureMethod", VStr "MD5");
                      ("SignatureIndex", signIndex); ("Signature", Signature)])
    /\ (forall k, k <> "__meta__" -> dict_get k body = dict_get k data)
    /\ keys body = if dict_mem "__meta__" data then keys data
                   else (keys data ++ ["__meta__"])%list.
Proof.
  unfold with_meta.
  destruct (sign (VDict data) (VDict (new_metaData now signIndex)))
    as [Signature|e]; [|discriminate].
  cbn [bind]. intros [= <-]. exists Signature. split; [reflexivity|]. split.
  - now rewrite dict_get_set, String.eqb_refl.
  - split.
    + intros k Hk. rewrite dict_get_set.
      destruct (String.eqb_spec k "__meta__"); [contradiction | reflexivity].
    + apply keys_dict_set.
Qed.

Lemma signature_index_new now signIndex :
  signature_index (new_metaData now signIndex) = signIndex.
Proof. reflexivity. Qed.

(** [with_meta] builds a body when the keys that [signIndex] lists are in the
    data, and raises [KeyError] when one of them is not. *)
Lemma with_meta_listed data signIndex now :
  (forall k, In k (conversionComma signIndex) -> In k (keys data)) ->
  exists body, with_meta data signIndex now = Ok body.
Proof.
  intros Hin. unfold with_meta.
  rewrite sign_unfold, sign_data_branches, signature_index_new.
  destruct signIndex as [|[]|n|s|l|d]; try (eexists; reflexivity).
  destruct (String.eqb s ""); [eexists; reflexivity|].
  destruct (select_keys_ok (conversionComma (VStr s)) data [] Hin)
    as (sel & -> & _).
  eexists. reflexivity.
Qed.

Lemma with_meta_missing data signIndex now k :
  In k (conversionComma signIndex) -> dict_get k data = None ->
  with_meta data signIndex now = Raise KeyError.
Proof.
  intros Hin Hk. unfold with_meta.
  rewrite sign_unfold, sign_data_branches, signature_index_new.
  destruct signIndex as [|[]|n|s|l|d]; try destruct Hin.
  destruct (String.eqb_spec s "") as [->|_]; [destruct Hin|].
  now rewrite (select_keys_missing _ _ _ k Hin Hk).
Qed.

(** X18.  A [signIndex] that lists a key the data does not have: nothing is
    sent.  [clientEncrypt] raises [KeyError] once [RSAEncrypt], which it calls
    first, has returned; [serverEncrypt] raises [KeyError] once a key is
    stored. *)
Theorem listed_key_missing_raises_KeyError
  (data : dict value) (signIndex : value) (k : string) :
  In k (conversionComma signIndex) -> dict_get k data = None ->
  data <> [] ->
  (forall self now rnd RSAKey,
      RSAEncrypt (PublicKey self) (client_AESKey self) rnd = Ok RSAKey ->
      clientEncrypt self (VDict data) signIndex now rnd = Raise KeyError)
  /\ (forall self now,
        truthy (server_AESKey self) = true ->
        serverEncrypt self (VDict data) signIndex now = Raise KeyError).
Proof.
  intros Hin Hk Hne.
  assert (Hseal : forall key now, seal key data signIndex now = Raise KeyError).
  { intros key now. unfold seal. now rewrite (with_meta_missing _ _ _ k Hin Hk). }
  destruct data as [|item data']; [congruence|]. split.
  - intros self now rnd RSAKey Hrsa. unfold clientEncrypt. cbn [truthy].
    rewrite Hrsa. cbn [bind]. now rewrite Hseal.
  - intros self now Hkey. unfold serverEncrypt. rewrite Hkey. cbn [truthy].
    now rewrite Hseal.
Qed.

(** X19.  Sending does not depend on what the data holds.  With lawful
    libraries and a key of 16 or 32 ASCII characters (the key of a client has
    32), for every non-empty dictionary, whatever its texts contain, and every
    [signIndex] that lists no key it lacks: the body is built and sealed, the
    ciphertext decrypts to the compact JSON text of the body, [clientEncrypt]
    returns it under [value] beside what [RSAEncrypt] returned, and
    [serverEncrypt] returns it under [data]. *)
Theorem sending_succeeds_whatever_the_data_holds
  (k : string) (data : dict value) (signIndex : value) (now : string) :
  Lawful lib ->
  all_chars is_ascii k = true ->
  String.length k = 16 \/ String.length k = 32 ->
  data <> [] ->
  (forall key, In key (conversionComma signIndex) -> In key (keys data)) ->
  exists body ciphertext,
    with_meta data signIndex now = Ok body
    /\ seal (VStr k) data signIndex now = Ok ciphertext
    /\ AESDecrypt (VStr k) (VStr ciphertext)
       = Ok (VStr (Json.dumps_compact (VDict body)))
    /\ (forall self rnd RSAKey,
          client_AESKey self = k ->
          RSAEncrypt (PublicKey self) k rnd = Ok RSAKey ->
          clientEncrypt self (VDict data) signIndex now rnd
          = Ok (VDict [("key", VStr RSAKey); ("value", VStr ciphertext)]))
    /\ (forall self,
          server_AESKey self = VStr k ->
          serverEncrypt self (VDict data) signIndex now
          = Ok (VDict [("data", VStr ciphertext)])).
Proof.
  intros laws Hk Hlen Hne Hin.
  destruct (with_meta_listed data signIndex now Hin) as [body Hbody].
  destruct (AES_round_trip k (Json.dumps_compact (VDict body)))
    as (c & Henc & Hdec); auto.
  { apply dumps_nonempty. }
  { now apply dumps_printable. }
  assert (Hseal : seal (VStr k) data signIndex now = Ok c).
  { unfold seal. rewrite Hbody. exact Henc. }
  assert (Hknz : String.eqb k "" = false).
  { apply String.eqb_neq. intros ->. simpl in Hlen. lia. }
  exists body, c. do 3 (split; [assumption|]).
  destruct data as [|item data']; [congruence|]. split.
  - intros self rnd RSAKey Hself Hrsa. unfold clientEncrypt. cbn [truthy].
    rewrite Hself, Hrsa. cbn [bind]. now rewrite Hseal.
  - intros self Hself. unfold serverEncrypt. rewrite Hself. cbn [truthy].
    rewrite Hknz. cbn [negb]. now rewrite Hseal.
Qed.

End Sending.

(** ** Receiving: what comes back, and which exception *)

Section Receiving.

Context {lib : Library}.

(** [d.pop(k)] on a dictionary: the value [k] had, and the other items as
    they were. *)
Lemma dict_pop_spec {V : Type} k (d d' : dict V) v :
  is_mapping d -> dict_pop k d = Some (v, d') ->
  dict_get k d = Some v /\ dict_get k d' = None
  /\ (forall k', k' <> k -> dict_get k' d' = dict_get k' d)
  /\ is_mapping d'.
Proof.
  unfold is_mapping. revert d' v.
  induction d as [|[k0 v0] d IH]; intros d' v Hnd; simpl; [discriminate|].
  inversion Hnd as [|? ? Hk0 Hd]; subst.
  destruct (String.eqb_spec k k0) as [->|Hne].
  - intros [= <- <-]. split; [reflexivity|]. split.
    + now apply dict_get_None.
    + split; [|assumption]. intros k' Hk'.
      destruct (String.eqb_spec k' k0); [contradiction | reflexivity].
  - destruct (dict_pop k d) as [[w r]|] eqn:E; [|discriminate].
    intros [= <- <-]. destruct (IH r w Hd eq_refl) as (Hget & Hnone & Hrest & Hr).
    split; [assumption|]. split.
    + simpl. destruct (String.eqb_spec k k0); [contradiction | assumption].
    + split.
      * intros k' Hk'. simpl. destruct (String.eqb k' k0); auto.
      * simpl. constructor; [|assumption]. intros Hin. apply Hk0.
        apply In_keys_get in Hin. destruct Hin as [x Hx].
        apply In_keys_get. exists x.
        destruct (String.eqb_spec k0 k) as [->|Hne']; [congruence|].
        now rewrite <- (Hrest k0 Hne').
Qed.

Lemma dict_pop_get {V : Type} k (d d' : dict V) v :
  dict_pop k d = Some (v, d') -> dict_get k d = Some v.
Proof.
  revert d' v. induction d as [|[k0 v0] d IH]; intros d' v; simpl;
    [discriminate|].
  destruct (String.eqb k k0); [now intros [= <- _]|].
  destruct (dict_pop k d) as [[w r]|]; [|discriminate].
  intros [= <- _]. now apply (IH r).
Qed.

Lemma dict_pop_None {V : Type} k (d : dict V) :
  dict_pop k d = None <-> dict_get k d = None.
Proof.
  induction d as [|[k0 v0] d IH]; simpl; [tauto|].
  destruct (String.eqb k k0); [split; discriminate|].
  destruct (dict_pop k d) as [[w r]|]; destruct (dict_get k d);
    split; intros H; try discriminate; try reflexivity.
  - now apply IH in H.
  - exfalso. assert (E : @None (V * dict V) = None) by reflexivity.
    apply IH in E. discriminate.
Qed.

(** X20.  What [clientDecrypt] and [serverDecrypt] return once the signature
    is verified: a dictionary that has every entry of the received body but
    [__meta__], which it has no more.  The metadata, the timestamp with it,
    does not reach the caller. *)
Theorem verify_returns_the_payload_without_meta
  (d : dict value) (payload : value) :
  is_mapping d ->
  verify (VDict d) = Ok payload ->
  exists P meta,
    payload = VDict P
    /\ dict_get "__meta__" d = Some meta
    /\ dict_get "__meta__" P = None
    /\ (forall k, k <> "__meta__" -> dict_get k P = dict_get k d)
    /\ is_mapping P.
Proof.
  intros Hd. unfold verify, pop at 1.
  destruct (dict_pop "__meta__" d) as [[meta P]|] eqn:Epop; [|discriminate].
  destruct (dict_pop_spec _ _ _ _ Hd Epop) as (Hget & Hnone & Hrest & HP).
  cbn [bind].
  destruct (pop "Signature" meta) as [[Signature metaData]|e]; [|discriminate].
  cbn [bind].
  destruct (sign (VDict P) metaData) as [SignData|e]; [|discriminate].
  cbn [bind].
  destruct (py_eq Signature SignData); [|discriminate].
  intros [= <-]. exists P, meta. auto.
Qed.

(** X21.  What a decrypted body that is not as [with_meta] builds it raises:
    [TypeError] for a list, [AttributeError] for anything else that is not a
    dictionary, [KeyError] for a dictionary without [__meta__] or with a
    metadata dictionary without [Signature].  Verification raises one of
    [SignError], [KeyError], [TypeError] and [AttributeError] and nothing
    else, whatever the libraries are. *)
Theorem verify_raises :
  (forall l, verify (VList l) = Raise TypeError)
  /\ (forall body, is_dict body = false -> (forall l, body <> VList l) ->
                   verify body = Raise AttributeError)
  /\ (forall d, dict_get "__meta__" d = None -> verify (VDict d) = Raise KeyError)
  /\ (forall d m, dict_get "__meta__" d = Some (VDict m) ->
                  dict_get "Signature" m = None ->
                  verify (VDict d) = Raise KeyError)
  /\ (forall body e,
        verify body = Raise e ->
        e = SignError \/ e = KeyError \/ e = TypeError \/ e = AttributeError).
Proof.
  split; [reflexivity|]. split.
  { intros body Hd Hl. destruct body; try reflexivity; [|discriminate].
    exfalso. now apply (Hl l). }
  split.
  { intros d Hd. unfold verify, pop. apply dict_pop_None in Hd. now rewrite Hd. }
  split.
  { intros d m Hm Hs. unfold verify, pop at 1.
    destruct (dict_pop "__meta__" d) as [[meta P]|] eqn:Epop.
    - pose proof (dict_pop_get _ _ _ _ Epop) as Hget.
      assert (meta = VDict m) by congruence. subst meta. cbn [bind pop].
      apply dict_pop_None in Hs. now rewrite Hs.
    - apply dict_pop_None in Epop. congruence. }
  assert (Hpop : forall k x e, pop k x = Raise e ->
            e = KeyError \/ e = TypeError \/ e = AttributeError).
  { intros k x e. unfold pop.
    destruct x as [| | | | |d]; try (intros [= <-]; auto).
    destruct (dict_pop k d) as [[v d']|]; [discriminate|]. intros [= <-]. auto. }
  assert (Hok : forall k x v r, pop k x = Ok (v, r) ->
            is_dict x = true /\ is_dict r = true).
  { intros k x v r. unfold pop. destruct x as [| | | | |d]; try discriminate.
    destruct (dict_pop k d) as [[w d']|]; [|discriminate].
    intros [= <- <-]. auto. }
  intros body e. unfold verify.
  destruct (pop "__meta__" body) as [[meta data]|e1] eqn:E1.
  - cbn [bind].
    destruct (pop "Signature" meta) as [[Signature metaData]|e2] eqn:E2.
    + cbn [bind].
      destruct (sign data metaData) as [SignData|e3] eqn:E3.
      * cbn [bind]. destruct (py_eq Signature SignData); [discriminate|].
        intros [= <-]. auto.
      * cbn [bind]. intros [= <-].
        apply Hok in E1, E2. destruct E1 as [_ Hdata]. destruct E2 as [_ Hmeta].
        destruct data as [| | | | |P]; try discriminate.
        destruct metaData as [| | | | |M]; try discriminate.
        rewrite sign_unfold, sign_data_branches in E3.
        destruct (signature_index M) as [|[]|n|s|l|d0]; try discriminate.
        destruct (String.eqb s ""); [discriminate|].
        destruct (select_keys (conversionComma (VStr s)) P []) as [sel|e'] eqn:Es;
          [discriminate|].
        cbn [bind] in E3. injection E3 as <-.
        right. left. now destruct (select_keys_raises _ _ _ _ Es).
    + cbn [bind]. intros [= <-]. right. now apply (Hpop _ _ _ E2).
  - cbn [bind]. intros [= <-]. right. now apply (Hpop _ _ _ E1).
Qed.

(** X22.  A body whose metadata says [SignatureIndex = False] is not checked
    against its payload: it is accepted, whatever the payload is, exactly
    when its [Signature] is [None], and refused with [SignError] otherwise. *)
Theorem unsigned_body_is_accepted_as_it_is
  (body Signature : value) (P M : dict value) :
  carries body Signature (VDict P) (VDict M) ->
  signature_index M = VBool false ->
  (Signature = VNone -> verify body = Ok (VDict P))
  /\ (Signature <> VNone -> verify body = Raise SignError).
Proof.
  intros Hc Hsi.
  assert (Hsign : sign (VDict P) (VDict M) = Ok VNone).
  { rewrite sign_unfold, sign_data_branches, Hsi. reflexivity. }
  destruct (verify_SignError _ _ _ _ _ Hc Hsign) as [Herr Hacc].
  split; intros H; [now apply Hacc | now apply Herr].
Qed.

(** X23.  What a malformed envelope raises.  The client: [TypeError] for what
    is not a dictionary with the key [data], [AESError] when [data] is not a
    non-empty text.  The server: [TypeError] for what is not a dictionary
    with the keys [key] and [value], and the exception of [RSADecrypt] when
    that raises, in both cases with the key slot as it was; [AESError] when
    [value] is not a non-empty text or the decrypted key is empty or not a
    multiple of 16 long, and then the decrypted key is in the slot. *)
Theorem envelope_errors :
  (forall self env,
      (forall d, env = VDict d -> dict_get "data" d = None) ->
      clientDecrypt self env = Raise TypeError)
  /\ (forall self d c,
        dict_get "data" d = Some c ->
        is_text c = false \/ c = VStr "" ->
        clientDecrypt self (VDict d) = Raise AESError)
  /\ (forall self env,
        (forall d, env = VDict d ->
                   dict_get "key" d = None \/ dict_get "value" d = None) ->
        serverDecrypt self env = (Raise TypeError, self))
  /\ (forall self d RSAKey c e,
        dict_get "key" d = Some RSAKey -> dict_get "value" d = Some c ->
        RSADecrypt (PrivateKey self) RSAKey = Raise e ->
        serverDecrypt self (VDict d) = (Raise e, self))
  /\ (forall self d RSAKey c k,
        dict_get "key" d = Some RSAKey -> dict_get "value" d = Some c ->
        RSADecrypt (PrivateKey self) RSAKey = Ok k ->
        is_text c = false \/ c = VStr "" \/ String.length k mod 16 <> 0
        \/ k = EmptyString ->
        serverDecrypt self (VDict d)
        = (Raise AESError,
           {| PrivateKey := PrivateKey self; server_AESKey := VStr k |})).
Proof.
  assert (Hguard : forall k c,
            is_text c = false \/ c = VStr "" \/ String.length k mod 16 <> 0
            \/ k = EmptyString ->
            AESDecrypt (VStr k) c = Raise AESError).
  { intros k c H. unfold AESDecrypt.
    destruct (aes_arguments_ok (VStr k) c) eqn:E; [|reflexivity].
    apply aes_arguments_ok_text in E.
    destruct E as (k' & t & [= <-] & -> & [Hpos Hmod] & Ht).
    destruct H as [H|[H|[H|H]]]; try discriminate; try congruence.
    subst k. simpl in Hpos. lia. }
  split; [|split; [|split; [|split]]].
  - intros self env H. unfold clientDecrypt.
    destruct env as [| | | | |d]; try reflexivity. now rewrite (H d eq_refl).
  - intros self d c Hd Hc. unfold clientDecrypt. rewrite Hd.
    rewrite Hguard; [reflexivity | tauto].
  - intros self env H. unfold serverDecrypt.
    destruct env as [| | | | |d]; try reflexivity.
    destruct (H d eq_refl) as [-> | ->]; [reflexivity|].
    now destruct (dict_get "key" d).
  - intros self d rk c e Hk Hv Hrsa. unfold serverDecrypt.
    now rewrite Hk, Hv, Hrsa.
  - intros self d rk c k Hk Hv Hrsa Hbad. unfold serverDecrypt.
    rewrite Hk, Hv, Hrsa. cbn [server_AESKey]. now rewrite Hguard.
Qed.

(** X24.  A ciphertext that decrypts to bytes that are not text: [AESDecrypt]
    returns [False], [json.loads] is given [False], and the client and the
    server raise [TypeError], not [SignError] nor [AESError]; the server has
    stored the key by then. *)
Theorem undecodable_plaintext_raises_TypeError
  (k c : string) (raw msg : list byte) :
  aes_arguments_ok (VStr k) (VStr c) = true ->
  b64decode (c ++ repeat_char "=" (String.length c mod 4)) = Ok raw ->
  aes_cbc_decrypt (str_encode k) (firstn block_size (str_encode k)) raw = Ok msg ->
  bytes_decode msg = None ->
  (forall self d,
      client_AESKey self = k -> dict_get "data" d = Some (VStr c) ->
      clientDecrypt self (VDict d) = Raise TypeError)
  /\ (forall self d RSAKey,
        dict_get "key" d = Some RSAKey -> dict_get "value" d = Some (VStr c) ->
        RSADecrypt (PrivateKey self) RSAKey = Ok k ->
        serverDecrypt self (VDict d)
        = (Raise TypeError,
           {| PrivateKey := PrivateKey self; server_AESKey := VStr k |})).
Proof.
  intros Hok Hb64 Haes Hdec.
  assert (HF : AESDecrypt (VStr k) (VStr c) = Ok (VBool false)).
  { unfold AESDecrypt. rewrite Hok, Hb64. cbn [bind]. rewrite Haes. cbn [bind].
    now rewrite Hdec. }
  split.
  - intros self d Hk Hd. unfold clientDecrypt. rewrite Hd, Hk, HF. reflexivity.
  - intros self d rk Hkey Hval Hrsa. unfold serverDecrypt.
    rewrite Hkey, Hval, Hrsa. cbn [server_AESKey]. now rewrite HF.
Qed.

(** X25.  A request that the server refuses with [SignError] has replaced the
    key all the same: [serverDecrypt] stores the key of the envelope before
    it decrypts and verifies, and does not take it back.  The next
    [serverEncrypt] seals its response under the key of the refused request. *)
Theorem refused_request_replaces_the_key
  (self : Server) (env body Signature payload metaData SignData : value) :
  server_opens self env body ->
  carries body Signature payload metaData ->
  sign payload metaData = Ok SignData ->
  Signature <> SignData ->
  exists d RSAKey k,
    env = VDict d /\ dict_get "key" d = Some RSAKey
    /\ RSADecrypt (PrivateKey self) RSAKey = Ok k
    /\ k <> EmptyString
    /\ serverDecrypt self env
       = (Raise SignError,
          {| PrivateKey := PrivateKey self; server_AESKey := VStr k |})
    /\ forall item respData signIndex now,
        serverEncrypt (snd (serverDecrypt self env))
                      (VDict (item :: respData)) signIndex now
        = (ciphertext <- seal (VStr k) (item :: respData) signIndex now ;;
           Ok (VDict [("data", VStr ciphertext)])).
Proof.
  intros Hopen Hc Hsign Hne.
  pose proof (serverDecrypt_verify _ _ _ Hopen) as Hfst.
  destruct Hopen as (d & rk & ct & k & plain & -> & Hk & Hv & Hrsa & Hdec & Hload).
  assert (Hknz : k <> EmptyString).
  { unfold AESDecrypt in Hdec.
    destruct (aes_arguments_ok (VStr k) ct) eqn:Eok; [|discriminate].
    apply aes_arguments_ok_text in Eok.
    destruct Eok as (k' & t & [= <-] & _ & [Hpos _] & _).
    intros ->. simpl in Hpos. lia. }
  assert (Hverify : verify body = Raise SignError).
  { now apply (verify_SignError _ _ _ _ _ Hc Hsign). }
  assert (Hsnd : snd (serverDecrypt self (VDict d))
                 = {| PrivateKey := PrivateKey self; server_AESKey := VStr k |}).
  { unfold serverDecrypt. now rewrite Hk, Hv, Hrsa. }
  exists d, rk, k. split; [reflexivity|]. do 3 (split; [assumption|]). split.
  - rewrite (surjective_pairing (serverDecrypt self (VDict d))).
    now rewrite Hfst, Hverify, Hsnd.
  - intros item respData si now. rewrite Hsnd. unfold serverEncrypt.
    cbn [server_AESKey truthy]. apply String.eqb_neq in Hknz.
    now rewrite Hknz.
Qed.

End Receiving.

(** ** The exchange under any [signIndex] *)

Section SelectiveExchange.

Context {lib : Library}.

(** X26.  The exchange goes through for every [signIndex], not the default
    only.  With lawful libraries, a valid key pair, and a payload and a
    response that are well-formed dictionaries, not empty and without the key
    [__meta__], each sent with a [signIndex] (a well-formed value: [None],
    [False], a text, ...) that lists no key the data lacks: the four steps
    succeed, [serverDecrypt] returns the payload and [clientDecrypt] the
    response. *)
Theorem exchange_with_any_signIndex
  (pub priv random rnd : list byte) (P R : dict value)
  (signIndex signIndex' : value) (now now' : string) :
  Lawful lib ->
  valid_key_pair pub priv ->
  P <> [] -> well_formed (VDict P) -> dict_get "__meta__" P = None ->
  well_formed signIndex ->
  (forall k, In k (conversionComma signIndex) -> In k (keys P)) ->
  R <> [] -> well_formed (VDict R) -> dict_get "__meta__" R = None ->
  well_formed signIndex' ->
  (forall k, In k (conversionComma signIndex') -> In k (keys R)) ->
  exists request server response,
    clientEncrypt (new_client pub random) (VDict P) signIndex now rnd
    = Ok request
    /\ serverDecrypt (new_server priv) request = (Ok (VDict P), server)
    /\ serverEncrypt server (VDict R) signIndex' now' = Ok response
    /\ clientDecrypt (new_client pub random) response = Ok (VDict R).
Proof.
  intros laws Hkeys HP HPw HPm Hsi HPin HR HRw HRm Hsi' HRin.
  pose proof (lawful_reads_back P signIndex now laws HPw Hsi HPm) as HPj.
  pose proof (lawful_reads_back R signIndex' now' laws HRw Hsi' HRm) as HRj.
  destruct (genAesKey_shape random) as [Hlen Hascii].
  set (k := genAesKey random) in *.
  destruct (Hkeys k rnd Hlen Hascii) as (RSAKey & Hwrap & Hunwrap).
  destruct (with_meta_listed P signIndex now HPin) as [bodyP HbP].
  destruct (with_meta_listed R signIndex' now' HRin) as [bodyR HbR].
  destruct (seal_opens k P signIndex now bodyP) as (ctP & HsealP & HopenP); auto.
  destruct (seal_opens k R signIndex' now' bodyR) as (ctR & HsealR & HopenR); auto.
  assert (Hknz : String.eqb k "" = false).
  { apply String.eqb_neq. intros E. rewrite E in Hlen. discriminate. }
  exists (VDict [("key", VStr RSAKey); ("value", VStr ctP)]).
  exists {| PrivateKey := priv; server_AESKey := VStr k |}.
  exists (VDict [("data", VStr ctR)]).
  split; [|split; [|split]].
  - unfold clientEncrypt. destruct P as [|item P']; [congruence|].
    cbn [truthy new_client client_AESKey PublicKey]. fold k.
    rewrite Hwrap. cbn [bind]. rewrite HsealP. reflexivity.
  - unfold serverDecrypt.
    cbn [dict_get String.eqb Ascii.eqb Bool.eqb new_server PrivateKey
           server_AESKey].
    rewrite Hunwrap. cbn [server_AESKey]. now rewrite HopenP.
  - unfold serverEncrypt. cbn [server_AESKey truthy]. rewrite Hknz. cbn [negb].
    destruct R as [|item R']; [congruence|]. cbn [truthy].
    rewrite HsealR. reflexivity.
  - unfold clientDecrypt.
    cbn [dict_get String.eqb Ascii.eqb Bool.eqb new_client client_AESKey].
    fold k. exact HopenR.
Qed.

End SelectiveExchange.

(* ================================================================= *)
(** * The theorems at work on the scenario *)

Module Witnesses.

Import Reference Scenario.

Ltac distinct_keys := unfold is_mapping; repeat constructor; simpl; intuition discriminate.

Lemma pem_not_empty : pem <> [].
Proof. discriminate. Qed.

Lemma login_well_formed : well_formed (VDict login).
Proof. split; [distinct_keys | simpl; tauto]. Qed.

Lemma status_well_formed : well_formed (VDict status).
Proof. split; [distinct_keys | simpl; tauto]. Qed.

Lemma reserved_well_formed : well_formed (VDict reserved).
Proof. split; [distinct_keys | simpl; tauto]. Qed.

(** The scenario of the specification: login, then status. *)
Lemma exchange_round_trip_witness :
  exists request server response,
    clientEncrypt client (VDict login) VNone now [] = Ok request
    /\ serverDecrypt fresh_server request = (Ok (VDict login), server)
    /\ serverEncrypt server (VDict status) VNone later = Ok response
    /\ clientDecrypt client response = Ok (VDict status).
Proof.
  apply (exchange_round_trip pem pem random [] login status now later).
  - exact reference_lawful.
  - exact (reference_key_pair pem pem_not_empty).
  - discriminate.
  - exact login_well_formed.
  - reflexivity.
  - discriminate.
  - exact status_well_formed.
  - reflexivity.
Defined.

(** A payload that uses [__meta__], with lawful libraries and a valid key
    pair: the client signs it with that entry and then overwrites the entry,
    so the server, which signs what is left after popping [__meta__], refuses
    the request. *)
Lemma reserved_key_breaks_exchange :
  Lawful library
  /\ valid_key_pair pem pem
  /\ reserved <> []
  /\ well_formed (VDict reserved)
  /\ clientEncrypt client (VDict reserved) VNone now [] = Ok reserved_request
  /\ fst (serverDecrypt fresh_server reserved_request) = Raise SignError.
Proof.
  split; [exact reference_lawful|].
  split; [exact (reference_key_pair pem pem_not_empty)|].
  split; [discriminate|].
  split; [exact reserved_well_formed|].
  split; vm_compute; reflexivity.
Qed.

(** The same exchange with an empty response: [serverEncrypt] refuses it. *)
Lemma empty_response_breaks_exchange :
  serverDecrypt fresh_server request = (Ok (VDict login), server)
  /\ serverEncrypt server (VDict []) VNone later = Raise TypeError.
Proof. split; vm_compute; reflexivity. Qed.

Lemma sign_is_digest_witness :
  exists items,
    sign (VDict login) (VDict user_only)
    = Ok (VStr (md5 (Text (flatten (map field items)))))
    /\ StronglySorted key_lt items
    /\ (forall k v,
          In (k, v) items <->
          dict_get k user_only = Some v
          \/ (dict_get k user_only = None /\ In k (selection login user_only)
              /\ dict_get k login = Some v)).
Proof.
  apply (sign_is_digest_of_canonical_string login user_only).
  - distinct_keys.
  - distinct_keys.
  - discriminate.
  - intros k [<-|[]]. simpl. auto.
Defined.

(** The signature the scenario computes for [SignatureIndex = "user"]. *)
Lemma sign_user_only :
  sign (VDict login) (VDict user_only) = Ok (VStr "d0cc95134424c5fcd00625a8d697d7b2").
Proof. vm_compute. reflexivity. Qed.

(** ['+'] in a value: the code writes [%2B] where the specification's words
    give [%20]. *)
Lemma plus_is_escaped_not_mapped_to_space :
  _percent_encode (VStr "a+b") = "%22a%2Bb%22"
  /\ specified_encode (Json.dumps_sorted (VStr "a+b")) = "%22a%20b%22".
Proof. split; vm_compute; reflexivity. Qed.

Lemma SignatureIndex_witness :
  exists items,
    sign (VDict login) (VDict user_only)
    = Ok (VStr (md5 (Text (flatten (map field items)))))
    /\ StronglySorted key_lt items
    /\ (forall k v,
          In (k, v) items <->
          dict_get k user_only = Some v
          \/ (dict_get k user_only = None /\ In k (conversionComma (VStr "user"))
              /\ dict_get k login = Some v))
    /\ (forall k, In k (keys items) <->
                  In k (conversionComma (VStr "user")) \/ In k (keys user_only))
    /\ (forall P' : dict value,
          (forall k, In k (conversionComma (VStr "user")) ->
                     dict_get k P' = dict_get k login) ->
          sign (VDict P') (VDict user_only) = sign (VDict login) (VDict user_only)).
Proof.
  apply (proj1 (proj2 (proj2 (SignatureIndex_three_valued login user_only
                                ltac:(distinct_keys) ltac:(distinct_keys))))
           "user").
  - reflexivity.
  - discriminate.
  - intros k [<-|[]]. simpl. auto.
Defined.

(** The empty text as [SignatureIndex]: it lists no key, so [login] and
    [logout] have the same value at every listed key; yet the whole payload is
    signed, and their signatures differ. *)
Lemma empty_index_signs_the_whole_payload :
  conversionComma (VStr "") = []
  /\ (forall k, In k (conversionComma (VStr "")) ->
                dict_get k logout = dict_get k login)
  /\ sign (VDict logout) (VDict (new_metaData now (VStr "")))
     <> sign (VDict login) (VDict (new_metaData now (VStr ""))).
Proof.
  split; [reflexivity|]. split; [intros k []|].
  vm_compute. discriminate.
Qed.

Lemma carries_body :
  carries body (VStr "29310cfbbfa3fe8d53e312a34ceffa6d") (VDict login)
          (VDict (new_metaData now VNone)).
Proof. eexists. split; reflexivity. Qed.

Lemma carries_forged :
  carries forged_body (VStr "29310cfbbfa3fe8d53e312a34ceffa6e") (VDict login)
          (VDict (new_metaData now VNone)).
Proof. eexists. split; reflexivity. Qed.

Lemma sign_login :
  sign (VDict login) (VDict (new_metaData now VNone))
  = Ok (VStr "29310cfbbfa3fe8d53e312a34ceffa6d").
Proof. vm_compute. reflexivity. Qed.

Lemma client_opens_forged : client_opens client (envelope_of forged_body) forged_body.
Proof.
  exists [("data", VStr forged_ciphertext)], (VStr forged_ciphertext),
         (VStr (Json.dumps_compact forged_body)).
  repeat split; vm_compute; reflexivity.
Qed.

Lemma forged_differs :
  VStr "29310cfbbfa3fe8d53e312a34ceffa6e" <> VStr "29310cfbbfa3fe8d53e312a34ceffa6d".
Proof. discriminate. Qed.

(** The forged body differs from the accepted one in the last digit of the
    signature only; the client refuses it. *)
Lemma SignError_witness :
  clientDecrypt client (envelope_of forged_body) = Raise SignError.
Proof.
  exact (proj1
           (proj2 (proj2 (SignError_exactly_on_mismatch
                            body (VStr "29310cfbbfa3fe8d53e312a34ceffa6d")
                            (VDict login) (VDict (new_metaData now VNone))
                            (VStr "29310cfbbfa3fe8d53e312a34ceffa6d")
                            carries_body sign_login))
              forged_body (VStr "29310cfbbfa3fe8d53e312a34ceffa6e")
              carries_forged eq_refl forged_differs)
           client (envelope_of forged_body) client_opens_forged).
Defined.

Lemma AESDecrypt_not_text_witness :
  (bytes_decode (repeat xff 16) = None ->
   AESDecrypt (VStr (client_AESKey client)) (VStr not_text) = Ok (VBool false)
   /\ truthy (VBool false) = false)
  /\ (forall text,
        bytes_decode (repeat xff 16) = Some text ->
        AESDecrypt (VStr (client_AESKey client)) (VStr not_text)
        = Ok (VStr (without_controls text))).
Proof.
  apply (AESDecrypt_not_text (client_AESKey client) not_text
           (repeat xff 16) (repeat xff 16)).
  - vm_compute. reflexivity.
  - vm_compute. reflexivity.
  - vm_compute. reflexivity.
Defined.

(** The non-text case on the scenario: sixteen bytes [FF] under the client's
    key. *)
Lemma AESDecrypt_returns_False :
  AESDecrypt (VStr (client_AESKey client)) (VStr not_text) = Ok (VBool false).
Proof. vm_compute. reflexivity. Qed.

Lemma AES_rejects_witness :
  AESEncrypt (VStr "fifteen letters") (VStr "text") = Raise AESError
  /\ AESDecrypt (VStr "fifteen letters") (VStr "text") = Raise AESError.
Proof.
  apply AES_rejects_bad_arguments. left.
  intros k E. injection E as <-. intros [_ H]. vm_compute in H. discriminate.
Defined.

Lemma same_login : same_items login login'.
Proof.
  intros k. simpl.
  destruct (String.eqb_spec k "action") as [->|]; [reflexivity|].
  destruct (String.eqb k "user"); reflexivity.
Qed.

Lemma sign_ignores_order_witness :
  sign (VDict login) (VDict (new_metaData now VNone))
  = sign (VDict login') (VDict (new_metaData now VNone)).
Proof.
  apply sign_ignores_order.
  - distinct_keys.
  - distinct_keys.
  - distinct_keys.
  - distinct_keys.
  - exact same_login.
  - intros k. reflexivity.
Defined.

Lemma scenario_serverDecrypt :
  serverDecrypt fresh_server request = (Ok (VDict login), server).
Proof. vm_compute. reflexivity. Qed.

Lemma serverEncrypt_witness :
  exists d RSAKey k,
    request = VDict d /\ dict_get "key" d = Some RSAKey
    /\ RSADecrypt (PrivateKey fresh_server) RSAKey = Ok k
    /\ server_AESKey server = VStr k
    /\ forall resp signIndex now,
        serverEncrypt server resp signIndex now
        = match resp with
          | VDict (item :: respData) =>
              data <- with_meta (item :: respData) signIndex now ;;
              ciphertext <-
                AESEncrypt (VStr k) (VStr (Json.dumps_compact (VDict data))) ;;
              Ok (VDict [("data", VStr ciphertext)])
          | _ => Raise TypeError
          end.
Proof.
  apply (proj2 (proj2 serverEncrypt_requires_stored_key)
           fresh_server request (VDict login) server).
  exact scenario_serverDecrypt.
Defined.

(** Before any request the server refuses the empty dictionary with
    [ValueError], not [TypeError]. *)
Lemma keyless_server_raises_ValueError :
  serverEncrypt fresh_server (VDict []) VNone now = Raise ValueError.
Proof. reflexivity. Qed.

Lemma empty_payload_witness :
  clientEncrypt client (VInt 7) VNone now [] = Raise TypeError
  /\ serverEncrypt server (VDict []) VNone now
     = serverEncrypt server (VInt 7) VNone now.
Proof.
  split.
  - apply (proj1 (proj2 empty_payload_rejected)). reflexivity.
  - apply (proj1 (proj2 (proj2 empty_payload_rejected))). reflexivity.
Defined.

(** *** The further properties on the scenario *)

Lemma reference_rsa_pair (pem : list byte) (K : public_key) (m r c : list byte) :
  load_pkcs1_public pem = Ok K \/ load_pkcs1_openssl_pem pem = Ok K ->
  rsa_encrypt m K r = Ok c -> rsa_decrypt c pem = Ok m.
Proof.
  cbn [load_pkcs1_public load_pkcs1_openssl_pem rsa_encrypt rsa_decrypt library
       public_key] in *.
  intros HK. assert (E : K = pem).
  { unfold load_pem in HK. destruct pem; destruct HK as [H|H];
      try discriminate; now inversion H. }
  subst K. unfold wrap, unwrap.
  destruct (Nat.leb (List.length m) 117); [|discriminate].
  intros [= <-]. rewrite starts_with_app, skipn_app, Nat.sub_diag.
  rewrite skipn_all. reflexivity.
Qed.

Lemma RSADecrypt_inverts_witness :
  RSADecrypt pem (VStr wrapped_hello) = Ok "hello".
Proof.
  apply (RSADecrypt_inverts_RSAEncrypt (lib := library)
           pem pem pem "hello" [] wrapped_hello).
  - exact reference_lawful.
  - reflexivity.
  - exact (reference_rsa_pair pem).
  - vm_compute. reflexivity.
Defined.

(** The stand-in cipher refuses partial blocks, as CBC does. *)
Lemma mirror_refuses_partial_blocks key iv data :
  List.length data mod 16 <> 0 -> aes_cbc_encrypt key iv data = Raise ValueError.
Proof.
  intros H. cbn [aes_cbc_encrypt library]. unfold mirror, aes_lengths_ok.
  apply Nat.eqb_neq in H. now rewrite H, andb_false_r.
Qed.

(** One character of two bytes: 15 characters of padding make 17 bytes. *)
Lemma AESEncrypt_pads_witness :
  AESEncrypt (VStr short_key) (VStr e_acute) = Raise ValueError.
Proof.
  apply (proj2 (AESEncrypt_pads_characters_not_bytes
                  short_key e_acute mirror_refuses_partial_blocks eq_refl)).
  vm_compute. discriminate.
Defined.

(** Two lines come back as one. *)
Lemma AES_controls_witness :
  exists c,
    AESEncrypt (VStr (client_AESKey client)) (VStr two_lines) = Ok c
    /\ AESDecrypt (VStr (client_AESKey client)) (VStr c)
       = Ok (VStr (without_controls two_lines))
    /\ (without_controls two_lines = two_lines
        <-> all_chars (fun c => (32 <=? code c)%N) two_lines = true).
Proof.
  apply (AESDecrypt_inverts_AESEncrypt_up_to_controls
           (client_AESKey client) two_lines).
  - exact reference_lawful.
  - vm_compute. reflexivity.
  - right. vm_compute. reflexivity.
  - discriminate.
  - vm_compute. reflexivity.
Defined.

Lemma two_lines_joined : without_controls two_lines = "line oneline two".
Proof. vm_compute. reflexivity. Qed.

Lemma AESDecrypt_returns_witness :
  VBool false = VBool false
  \/ exists text, VBool false = VStr text
                  /\ all_chars (fun c => (32 <=? code c)%N) text = true.
Proof.
  exact (AESDecrypt_returns_text_without_controls_or_False
           (VStr (client_AESKey client)) (VStr not_text) (VBool false)
           AESDecrypt_returns_False).
Defined.

Lemma new_year_is_now : get_current_timestamp new_year = now.
Proof. vm_compute. reflexivity. Qed.

Lemma timestamps_witness :
  String.length (get_current_timestamp new_year) = 20
  /\ String.compare (get_current_timestamp new_year)
                    (get_current_timestamp a_second_later)
     = chronological new_year a_second_later
  /\ (get_current_timestamp new_year = get_current_timestamp a_second_later ->
      new_year = a_second_later).
Proof.
  apply (timestamps_sort_chronologically new_year a_second_later).
  - unfold calendar_time. cbn. lia.
  - unfold calendar_time. cbn. lia.
Defined.

Lemma conversionComma_witness :
  conversionComma (VStr (String.concat ", " ["user"; "action"]))
  = ["user"; "action"].
Proof.
  apply (conversionComma_reads_what_join_writes ", " ["user"; "action"]).
  - exists "", " ". repeat split; reflexivity.
  - repeat constructor.
Defined.

Lemma conversionComma_keys_witness :
  "b" <> EmptyString /\ all_chars no_comma "b" = true.
Proof.
  apply (proj1 (conversionComma_keys (VStr "a , b")) "b").
  vm_compute. auto.
Defined.

Lemma unambiguous_witness : map signed_text nested = map signed_text nested'.
Proof.
  apply (proj1 signing_string_is_unambiguous nested nested').
  vm_compute. reflexivity.
Defined.

Lemma sign_raises_witness :
  sign (VDict login) (VDict (new_metaData now (VStr "user,token")))
  = Raise KeyError.
Proof.
  apply (proj2 (sign_raises (VDict login)
                  (VDict (new_metaData now (VStr "user,token"))) KeyError)).
  right. split; [reflexivity|].
  exists login, (new_metaData now (VStr "user,token")), "user,token", "token".
  repeat split; try reflexivity. vm_compute. auto.
Defined.

Lemma sign_returns_witness :
  (signature_index (new_metaData now VNone) = VBool false
   /\ VStr "29310cfbbfa3fe8d53e312a34ceffa6d" = VNone)
  \/ (signature_index (new_metaData now VNone) <> VBool false
      /\ exists s, VStr "29310cfbbfa3fe8d53e312a34ceffa6d" = VStr s
                   /\ String.length s = 32
                   /\ all_chars lower_hex s = true).
Proof.
  exact (sign_returns login (new_metaData now VNone) _ sign_login).
Defined.

(** A list of keys as [SignatureIndex]: the whole of [login] is signed. *)
Lemma sign_whole_witness :
  sign (VDict login) (VDict list_index)
  = Ok (VStr (md5 (Text (canonicalize
                           (sorted_items (dict_update login list_index)))))).
Proof.
  apply (sign_covers_whole_payload_by_default login login' list_index).
  - distinct_keys.
  - distinct_keys.
  - distinct_keys.
  - discriminate.
  - discriminate.
Defined.

Lemma shadow_witness :
  sign (VDict (dict_set "Timestamp" (VStr "now") stamped))
       (VDict (new_metaData now VNone))
  = sign (VDict stamped) (VDict (new_metaData now VNone)).
Proof.
  apply metadata_shadows_payload.
  - distinct_keys.
  - distinct_keys.
  - simpl. auto.
  - simpl. auto.
Defined.

(** The nested dictionary of [nested] and [nested'], in its two orders. *)
Lemma nested_order_witness :
  sign (VDict nested) (VDict (new_metaData now VNone))
  = sign (VDict nested') (VDict (new_metaData now VNone)).
Proof.
  apply (proj2 sign_ignores_nested_order nested nested' (new_metaData now VNone)).
  - distinct_keys.
  - cbn. repeat split; distinct_keys.
Defined.

(** What [with_meta] makes of the payload that uses [__meta__]. *)
Lemma with_meta_overwrites_witness :
  exists Signature,
    sign (VDict reserved) (VDict (new_metaData now VNone)) = Ok Signature
    /\ dict_get "__meta__" reserved_body
       = Some (VDict [("Timestamp", VStr now); ("SignatureVersion", VStr "v1");
                      ("SignatureMethod", VStr "MD5");
                      ("SignatureIndex", VNone); ("Signature", Signature)])
    /\ (forall k, k <> "__meta__" ->
                  dict_get k reserved_body = dict_get k reserved)
    /\ keys reserved_body = if dict_mem "__meta__" reserved then keys reserved
                            else (keys reserved ++ ["__meta__"])%list.
Proof.
  apply (with_meta_overwrites_the_reserved_key reserved VNone now reserved_body).
  vm_compute. reflexivity.
Defined.

Lemma listed_key_missing_witness :
  serverEncrypt server (VDict login) (VStr "user,token") now = Raise KeyError.
Proof.
  apply (proj2 (listed_key_missing_raises_KeyError
                  login (VStr "user,token") "token"
                  ltac:(vm_compute; auto) eq_refl ltac:(discriminate))).
  reflexivity.
Defined.

Lemma sending_witness :
  exists body ciphertext,
    with_meta awkward (VStr "name") now = Ok body
    /\ seal (VStr (client_AESKey client)) awkward (VStr "name") now
       = Ok ciphertext
    /\ AESDecrypt (VStr (client_AESKey client)) (VStr ciphertext)
       = Ok (VStr (Json.dumps_compact (VDict body)))
    /\ (forall self rnd RSAKey,
          client_AESKey self = client_AESKey client ->
          RSAEncrypt (PublicKey self) (client_AESKey client) rnd = Ok RSAKey ->
          clientEncrypt self (VDict awkward) (VStr "name") now rnd
          = Ok (VDict [("key", VStr RSAKey); ("value", VStr ciphertext)]))
    /\ (forall self,
          server_AESKey self = VStr (client_AESKey client) ->
          serverEncrypt self (VDict awkward) (VStr "name") now
          = Ok (VDict [("data", VStr ciphertext)])).
Proof.
  apply (sending_succeeds_whatever_the_data_holds
           (client_AESKey client) awkward (VStr "name") now).
  - exact reference_lawful.
  - vm_compute. reflexivity.
  - right. vm_compute. reflexivity.
  - discriminate.
  - intros key [<-|[]]. simpl. auto.
Defined.

Lemma verify_returns_witness :
  exists P meta,
    VDict login = VDict P
    /\ dict_get "__meta__" body_items = Some meta
    /\ dict_get "__meta__" P = None
    /\ (forall k, k <> "__meta__" -> dict_get k P = dict_get k body_items)
    /\ is_mapping P.
Proof.
  apply (verify_returns_the_payload_without_meta body_items (VDict login)).
  - distinct_keys.
  - vm_compute. reflexivity.
Defined.

Lemma verify_raises_witness : verify (VDict login) = Raise KeyError.
Proof.
  apply (proj1 (proj2 (proj2 verify_raises)) login). reflexivity.
Defined.

Lemma carries_unsigned :
  carries unsigned_body VNone (VDict login)
          (VDict (new_metaData now (VBool false))).
Proof. eexists. split; reflexivity. Qed.

Lemma unsigned_witness : verify unsigned_body = Ok (VDict login).
Proof.
  apply (proj1 (unsigned_body_is_accepted_as_it_is
                  unsigned_body VNone login (new_metaData now (VBool false))
                  carries_unsigned eq_refl)).
  reflexivity.
Defined.

Lemma envelope_errors_witness :
  clientDecrypt client (VDict [("data", VInt 5)]) = Raise AESError.
Proof.
  apply (proj1 (proj2 envelope_errors) client [("data", VInt 5)] (VInt 5)).
  - reflexivity.
  - left. reflexivity.
Defined.

Lemma undecodable_witness :
  clientDecrypt client (VDict [("data", VStr not_text)]) = Raise TypeError.
Proof.
  apply (proj1 (undecodable_plaintext_raises_TypeError
                  (client_AESKey client) not_text (repeat xff 16) (repeat xff 16)
                  ltac:(vm_compute; reflexivity) ltac:(vm_compute; reflexivity)
                  ltac:(vm_compute; reflexivity) ltac:(vm_compute; reflexivity))).
  - reflexivity.
  - reflexivity.
Defined.

Lemma server_opens_forged : server_opens fresh_server forged_request forged_body.
Proof.
  unfold forged_request.
  eexists _, _, _, (client_AESKey client), (VStr (Json.dumps_compact forged_body)).
  split; [reflexivity|].
  split; [reflexivity|].
  split; [reflexivity|].
  split; [vm_compute; reflexivity|].
  split; vm_compute; reflexivity.
Qed.

(** The forged body, sent to a server that has no key yet. *)
Lemma refused_request_witness :
  exists d RSAKey k,
    forged_request = VDict d /\ dict_get "key" d = Some RSAKey
    /\ RSADecrypt (PrivateKey fresh_server) RSAKey = Ok k
    /\ k <> EmptyString
    /\ serverDecrypt fresh_server forged_request
       = (Raise SignError,
          {| PrivateKey := PrivateKey fresh_server; server_AESKey := VStr k |})
    /\ forall item respData signIndex now,
        serverEncrypt (snd (serverDecrypt fresh_server forged_request))
                      (VDict (item :: respData)) signIndex now
        = (ciphertext <- seal (VStr k) (item :: respData) signIndex now ;;
           Ok (VDict [("data", VStr ciphertext)])).
Proof.
  exact (refused_request_replaces_the_key
           fresh_server forged_request forged_body
           (VStr "29310cfbbfa3fe8d53e312a34ceffa6e") (VDict login)
           (VDict (new_metaData now VNone))
           (VStr "29310cfbbfa3fe8d53e312a34ceffa6d")
           server_opens_forged carries_forged sign_login forged_differs).
Defined.

(** The scenario with the request signed on [user] only and the response not
    signed. *)
Lemma exchange_any_witness :
  exists request server response,
    clientEncrypt client (VDict login) (VStr "user") now [] = Ok request
    /\ serverDecrypt fresh_server request = (Ok (VDict login), server)
    /\ serverEncrypt server (VDict status) (VBool false) later = Ok response
    /\ clientDecrypt client response = Ok (VDict status).
Proof.
  apply (exchange_with_any_signIndex pem pem random [] login status
           (VStr "user") (VBool false) now later).
  - exact reference_lawful.
  - exact (reference_key_pair pem pem_not_empty).
  - discriminate.
  - exact login_well_formed.
  - reflexivity.
  - exact I.
  - intros k [<-|[]]. simpl. auto.
  - discriminate.
  - exact status_well_formed.
  - reflexivity.
  - exact I.
  - intros k [].
Defined.

End Witnesses.
